(** * The agent coordination plane

  A shallow embedding of [shared/central_router.py] (circuit breaker,
  central router: registry, round-robin selection, health aging, eviction,
  routing with retry) and of [shared/a2a_communication.py] (capability
  registry, pending-response tracking, consensus analysis, peer-review
  aggregation), with the properties the specification states about them.

  Conventions of the embedding.
  - A [datetime] is the number of microseconds since a fixed epoch (a [Z]);
    a [timedelta] is a difference of two of them, also in microseconds.
  - A Python [float] score is an exact rational ([Q]); rounding is not
    modelled.
  - A [dict] whose iteration order matters is an association list in
    insertion order; a [dict] that is only looked up is a [gmap].
  - A raised exception is the result [None] of an [option]-valued
    function, or an explicit outcome constructor. *)

From Stdlib Require Import ZArith QArith Lia Lqa Permutation Sorted.
From stdpp Require Import base option list gmap strings.

Local Open Scope Z_scope.

(** ** Time: [datetime] and [timedelta] *)

Module Time.

Definition datetime := Z.
Definition timedelta := Z.

Definition usec_per_sec : Z := 1000000.
Definition sec_per_day : Z := 86400.

(** [timedelta(seconds=s)], [timedelta(minutes=m)] *)
Definition of_seconds (s : Z) : timedelta := s * usec_per_sec.
Definition of_minutes (m : Z) : timedelta := of_seconds (m * 60).

(** [a - b] on datetimes *)
Definition sub (a b : datetime) : timedelta := a - b.

(** [td.seconds]: the seconds field of the normalised
    (days, seconds, microseconds) triple, always in [0, 86400). *)
Definition seconds (td : timedelta) : Z := (td / usec_per_sec) mod sec_per_day.

(** [td.days] *)
Definition days (td : timedelta) : Z := (td / usec_per_sec) / sec_per_day.

End Time.

(** ** [class CircuitBreaker] (central_router.py) *)

Module CircuitBreaker.

Inductive cb_state := Closed | Open | HalfOpen.

#[global] Instance cb_state_eq_dec : EqDecision cb_state.
Proof. solve_decision. Defined.

Record t := mk {
  threshold : Z;
  timeout : Z;
  failure_count : Z;
  last_failure : option Time.datetime;
  state : cb_state
}.

(** [__init__(self, threshold=5, timeout=60)] *)
Definition init (threshold timeout : Z) : t :=
  mk threshold timeout 0 None Closed.

Definition default : t := init 5 60.

Definition set_state (s : cb_state) (cb : t) : t :=
  mk (threshold cb) (timeout cb) (failure_count cb) (last_failure cb) s.

Definition record_success (cb : t) : t :=
  mk (threshold cb) (timeout cb) 0 (last_failure cb) Closed.

(** [now] is the value [datetime.now()] returns inside the call. *)
Definition record_failure (now : Time.datetime) (cb : t) : t :=
  let n := failure_count cb + 1 in
  mk (threshold cb) (timeout cb) n (Some now)
     (if Z.leb (threshold cb) n then Open else state cb).

(** The returned pair is the boolean result and the breaker after the
    call ([can_execute] moves an open breaker to half-open). *)
Definition can_execute (now : Time.datetime) (cb : t) : bool * t :=
  match state cb with
  | Closed => (true, cb)
  | Open =>
      match last_failure cb with
      | Some lf =>
          if Z.ltb (timeout cb) (Time.seconds (Time.sub now lf))
          then (true, set_state HalfOpen cb)
          else (false, cb)
      | None => (false, cb)
      end
  | HalfOpen => (true, cb)
  end.

(** Consecutive failures, recorded at the given instants. *)
Definition record_failures (times : list Time.datetime) (cb : t) : t :=
  fold_left (fun b now => record_failure now b) times cb.

(** A call on a breaker, with the instant at which it is made where the
    method reads the clock. *)
Inductive call :=
  | CallSuccess
  | CallFailure (now : Time.datetime)
  | CallCanExecute (now : Time.datetime).

Definition apply_call (cb : t) (c : call) : t :=
  match c with
  | CallSuccess => record_success cb
  | CallFailure now => record_failure now cb
  | CallCanExecute now => snd (can_execute now cb)
  end.

(** A breaker after a sequence of calls, oldest first. *)
Definition run (calls : list call) (cb : t) : t := fold_left apply_call calls cb.

(** The breaker is closed, or it has reached its threshold and remembers
    the instant of a failure. *)
Definition tripped_consistently (cb : t) : Prop :=
  0 <= failure_count cb /\
  (state cb <> Closed ->
   threshold cb <= failure_count cb /\ is_Some (last_failure cb)).

End CircuitBreaker.

(** ** Python built-ins the sources rely on *)

Module Py.

(** [bool(s)] of an optional string: [None] and the empty string are falsy. *)
Definition truthy (o : option string) : option string :=
  match o with
  | Some s => if decide (s = EmptyString) then None else Some s
  | None => None
  end.

(** [lst.remove(x)]: drops the first occurrence; [ValueError] ([None]) when
    there is none. *)
Fixpoint remove `{EqDecision A} (x : A) (l : list A) : option (list A) :=
  match l with
  | [] => None
  | y :: l' => if decide (y = x) then Some l' else cons y <$> remove x l'
  end.

(** The loop of [max(iterable, key=...)]: the running best is replaced only
    by a strictly greater key, so the first maximal element wins. *)
Fixpoint max_from {A K} (lt : K -> K -> bool) (key : A -> K)
    (best : A) (l : list A) : A :=
  match l with
  | [] => best
  | x :: l' => max_from lt key (if lt (key best) (key x) then x else best) l'
  end.

(** [max(l, key=key)]; [ValueError] ([None]) on an empty sequence. *)
Definition max_by {A K} (lt : K -> K -> bool) (key : A -> K)
    (l : list A) : option A :=
  match l with
  | [] => None
  | x :: l' => Some (max_from lt key x l')
  end.

(** [min(l, key=key)]: the first minimal element. *)
Definition min_by {A K} (lt : K -> K -> bool) (key : A -> K)
    (l : list A) : option A :=
  max_by (fun a b => lt b a) key l.

(** Strict order on the rationals standing for floats. *)
Definition Qltb (a b : Q) : bool := negb (Qle_bool b a).

(** [sum(l)] over floats *)
Definition Qsum (l : list Q) : Q := fold_left Qplus l 0%Q.

(** [d[k] = v] on an insertion-ordered dict: an existing key keeps its
    position, a new key goes last. *)
Fixpoint dict_set `{EqDecision K} {V} (k : K) (v : V) (d : list (K * V))
    : list (K * V) :=
  match d with
  | [] => [(k, v)]
  | (k', v') :: d' =>
      if decide (k' = k) then (k', v) :: d' else (k', v') :: dict_set k v d'
  end.

(** [d.get(k)] *)
Fixpoint dict_get `{EqDecision K} {V} (k : K) (d : list (K * V)) : option V :=
  match d with
  | [] => None
  | (k', v') :: d' => if decide (k' = k) then Some v' else dict_get k d'
  end.

(** The number of occurrences of [x] in [l]. *)
Definition occurrences `{EqDecision A} (x : A) (l : list A) : nat :=
  length (List.filter (fun y => bool_decide (y = x)) l).

(** [a < b] on pairs of floats: the first components that differ decide. *)
Definition pair_ltb (a b : Q * Q) : bool :=
  Qltb (fst a) (fst b) || (Qeq_bool (fst a) (fst b) && Qltb (snd a) (snd b)).

(** One step of [sorted(l, key=key, reverse=True)]: [x], which stood before
    the elements of [l], goes in front of the first element whose key is
    not greater than its own, so that equal keys keep their order. *)
Fixpoint insert_desc {A K} (lt : K -> K -> bool) (key : A -> K) (x : A)
    (l : list A) : list A :=
  match l with
  | [] => [x]
  | y :: l' =>
      if lt (key x) (key y) then y :: insert_desc lt key x l'
      else x :: y :: l'
  end.

(** [sorted(l, key=key, reverse=True)]: descending by key, stable. *)
Definition sorted_desc {A K} (lt : K -> K -> bool) (key : A -> K)
    (l : list A) : list A :=
  foldr (insert_desc lt key) [] l.

(** [l[:n]]: a negative [n] counts from the end. *)
Definition slice_to {A} (n : Z) (l : list A) : list A :=
  if Z.leb 0 n then take (Z.to_nat n) l
  else take (length l - Z.to_nat (- n)) l.

(** [list(d.keys())] is [keys]: the keys of the dict, each once, in the
    order of their insertion, which a map does not record; so [keys] is
    any enumeration of the keys of [d]. *)
Definition dict_keys {V} (keys : list string) (d : gmap string V) : Prop :=
  keys ≡ₚ map fst (map_to_list d).

(** Arithmetic on doubles.  A finite double is the rational it denotes; an
    operation returns the exact result rounded to a double by [rnd]. *)
Definition fadd (rnd : Q -> Q) (a b : Q) : Q := rnd (a + b)%Q.
Definition fsub (rnd : Q -> Q) (a b : Q) : Q := rnd (a - b)%Q.
Definition fmul (rnd : Q -> Q) (a b : Q) : Q := rnd (a * b)%Q.

(** [a] does not rank below [b] in the order of the keys. *)
Definition not_below {A K} (lt : K -> K -> bool) (key : A -> K) (a b : A) : Prop :=
  lt (key a) (key b) = false.

End Py.

(** ** [class CentralRouter] (central_router.py) *)

Module CentralRouter.

Inductive RoutingStrategy :=
  ROUND_ROBIN | LEAST_LOADED | RANDOM | STICKY_SESSION | PRIORITY_BASED.

Inductive AgentStatus := HEALTHY | DEGRADED | UNHEALTHY | OFFLINE.

#[global] Instance AgentStatus_eq_dec : EqDecision AgentStatus.
Proof. solve_decision. Defined.

(** [@dataclass AgentInstance]; the fields [endpoint], [error_count],
    [version] and [metadata] are never read by the router and are left out. *)
Record AgentInstance := mkAgent {
  agent_id : string;
  agent_type : string;
  capabilities : list string;
  status : AgentStatus;
  last_heartbeat : option Time.datetime;
  load_factor : Q;
  message_count : Z
}.

Definition set_status (s : AgentStatus) (a : AgentInstance) : AgentInstance :=
  mkAgent (agent_id a) (agent_type a) (capabilities a) s
          (last_heartbeat a) (load_factor a) (message_count a).

(** The routed message, reduced to the keys the router reads. *)
Record message := mkMessage {
  message_id : option string;
  required_capability : option string
}.

(** Subjects the router publishes on. *)
Inductive topic :=
  | AgentInbox (id : string)      (* agent.<id>.messages *)
  | AgentUpdates.                 (* router.agent.updates *)

(** What the process cannot decide by itself: the string hash behind the
    round-robin key, whether the n-th publish on the transport succeeds,
    and the n-th draw of the random generator (for a sequence length). *)
Record env := mkEnv {
  hash_tuple : list string -> Z;
  publish_ok : nat -> topic -> bool;
  randbelow : nat -> nat -> nat
}.

Record statistics := mkStats {
  messages_routed : Z;
  routing_errors : Z;
  agents_registered : Z;
  circuit_breaker_trips : Z
}.

(** The mutable attributes of the router.  [published] is the transport's
    view: every publish call so far, oldest first, with its outcome. *)
Record router := mkRouter {
  agents : gmap string AgentInstance;
  agent_types : gmap string (list string);
  capabilities_index : gmap string (list string);
  routing_counters : gmap Z Z;
  circuit_breakers : gmap string CircuitBreaker.t;
  stats : statistics;
  published : list (topic * bool);
  rand_calls : nat
}.

(** [__init__] *)
Definition init : router :=
  mkRouter ∅ ∅ ∅ ∅ ∅ (mkStats 0 0 0 0) [] 0%nat.

Definition set_agents f (st : router) : router :=
  mkRouter (f (agents st)) (agent_types st) (capabilities_index st)
    (routing_counters st) (circuit_breakers st) (stats st) (published st)
    (rand_calls st).
Definition set_agent_types f (st : router) : router :=
  mkRouter (agents st) (f (agent_types st)) (capabilities_index st)
    (routing_counters st) (circuit_breakers st) (stats st) (published st)
    (rand_calls st).
Definition set_capabilities_index f (st : router) : router :=
  mkRouter (agents st) (agent_types st) (f (capabilities_index st))
    (routing_counters st) (circuit_breakers st) (stats st) (published st)
    (rand_calls st).
Definition set_routing_counters f (st : router) : router :=
  mkRouter (agents st) (agent_types st) (capabilities_index st)
    (f (routing_counters st)) (circuit_breakers st) (stats st) (published st)
    (rand_calls st).
Definition set_circuit_breakers f (st : router) : router :=
  mkRouter (agents st) (agent_types st) (capabilities_index st)
    (routing_counters st) (f (circuit_breakers st)) (stats st) (published st)
    (rand_calls st).
Definition set_stats f (st : router) : router :=
  mkRouter (agents st) (agent_types st) (capabilities_index st)
    (routing_counters st) (circuit_breakers st) (f (stats st)) (published st)
    (rand_calls st).
Definition set_published f (st : router) : router :=
  mkRouter (agents st) (agent_types st) (capabilities_index st)
    (routing_counters st) (circuit_breakers st) (stats st) (f (published st))
    (rand_calls st).
Definition set_rand_calls f (st : router) : router :=
  mkRouter (agents st) (agent_types st) (capabilities_index st)
    (routing_counters st) (circuit_breakers st) (stats st) (published st)
    (f (rand_calls st)).

(** Reading a [defaultdict(list)] entry, or [d.get(k, [])]. *)
Definition index_get (k : string) (m : gmap string (list string)) : list string :=
  default [] (m !! k).

(** [d[k].append(x)] on a [defaultdict(list)] *)
Definition index_append (k x : string) (m : gmap string (list string))
    : gmap string (list string) :=
  <[k := index_get k m ++ [x]]> m.

(** *** A state-and-exception monad for the router's methods *)

Inductive exn :=
  KeyError | ValueError | ZeroDivisionError | IndexError.

Inductive outcome (A : Type) :=
  | Ret (a : A)
  | Raise (e : exn).
Arguments Ret {A} a.
Arguments Raise {A} e.

Definition M (A : Type) : Type := router -> outcome A * router.

Definition ret {A} (a : A) : M A := fun st => (Ret a, st).
Definition raise {A} (e : exn) : M A := fun st => (Raise e, st).
Definition bind {A B} (c : M A) (k : A -> M B) : M B :=
  fun st =>
    match c st with
    | (Ret a, st') => k a st'
    | (Raise e, st') => (Raise e, st')
    end.
Definition get : M router := fun st => (Ret st, st).
Definition modify (f : router -> router) : M unit := fun st => (Ret tt, f st).
(** A call that cannot raise *)
Definition total {A} (f : router -> A * router) : M A :=
  fun st => let '(a, st') := f st in (Ret a, st').
(** [try: c  except Exception: h] *)
Definition try_except {A} (c : M A) (h : M A) : M A :=
  fun st =>
    match c st with
    | (Ret a, st') => (Ret a, st')
    | (Raise _, st') => h st'
    end.
(** [d[k]] on a plain dict: [KeyError] when absent *)
Definition subscript {V} (m : router -> gmap string V) (k : string) : M V :=
  fun st =>
    match m st !! k with
    | Some v => (Ret v, st)
    | None => (Raise KeyError, st)
    end.

Notation "'let*' x ':=' c 'in' k" := (bind c (fun x => k))
  (at level 10, x pattern, c at level 100, k at level 200).
Notation "c1 ';;' c2" := (bind c1 (fun _ => c2))
  (at level 100, c2 at level 200, right associativity).

(** [for x in l: body(x)] *)
Fixpoint for_each {A} (body : A -> M unit) (l : list A) : M unit :=
  match l with
  | [] => ret tt
  | x :: l' => body x ;; for_each body l'
  end.

Section Methods.

Context (E : env).

(** [await self.nats_client.publish(topic, ...)]: the call is recorded with
    its outcome; [false] stands for the exception a failed publish raises. *)
Definition publish (t : topic) (st : router) : bool * router :=
  let ok := publish_ok E (length (published st)) t in
  (ok, set_published (fun l => l ++ [(t, ok)]) st).

(** [register_agent]; its [try]/[except] only logs, so the method always
    returns normally. *)
Definition register_agent (a : AgentInstance) (st : router) : router :=
  let st := set_agents (insert (agent_id a) a) st in
  let st := set_agent_types (index_append (agent_type a) (agent_id a)) st in
  let st :=
    fold_left
      (fun s c => set_capabilities_index (index_append c (agent_id a)) s)
      (capabilities a) st in
  let st :=
    set_circuit_breakers (insert (agent_id a) CircuitBreaker.default) st in
  let st :=
    set_stats (fun s => mkStats (messages_routed s) (routing_errors s)
                          (agents_registered s + 1) (circuit_breaker_trips s))
      st in
  snd (publish AgentUpdates st).

(** The loop body of [_unregister_agent] for one capability. *)
Definition drop_capability (id c : string) (st : router) : router :=
  match Py.remove id (index_get c (capabilities_index st)) with
  | Some l => set_capabilities_index (insert c l) st
  | None => st
  end.

(** [_unregister_agent]; [list.remove] on the type index raises
    [ValueError] when the id is not listed there. *)
Definition _unregister_agent (id : string) : M unit :=
  fun st =>
    match agents st !! id with
    | None => (Ret tt, st)
    | Some a =>
        match Py.remove id (index_get (agent_type a) (agent_types st)) with
        | None => (Raise ValueError, st)
        | Some l =>
            let st := set_agent_types (insert (agent_type a) l) st in
            let st :=
              fold_left (fun s c => drop_capability id c s) (capabilities a) st in
            let st := set_circuit_breakers (delete id) st in
            (Ret tt, set_agents (delete id) st)
        end
    end.

(** [_handle_agent_heartbeat], after the payload is decoded; [load] is
    [data.get("load_factor", 0.0)]. *)
Definition _handle_agent_heartbeat (now : Time.datetime) (id : string)
    (load : Q) (st : router) : router :=
  set_agents
    (alter (fun a => mkAgent (agent_id a) (agent_type a) (capabilities a)
                       HEALTHY (Some now) load (message_count a)) id) st.

(** One iteration of [_health_monitor_task] on one agent. *)
Definition age_status (current_time : Time.datetime) (a : AgentInstance)
    : AgentInstance :=
  match last_heartbeat a with
  | Some hb =>
      let time_since_heartbeat := Time.sub current_time hb in
      if Z.ltb (Time.of_seconds 60) time_since_heartbeat
      then set_status OFFLINE a
      else if Z.ltb (Time.of_seconds 30) time_since_heartbeat
      then set_status DEGRADED a
      else a
  | None => a
  end.

(** One iteration of the [while self.running] loop of
    [_health_monitor_task]. *)
Definition health_monitor_pass (current_time : Time.datetime) (st : router)
    : router :=
  set_agents (fmap (age_status current_time)) st.

(** The condition of the comprehension in [_cleanup_task]. *)
Definition expired (current_time : Time.datetime) (a : AgentInstance) : bool :=
  bool_decide (status a = OFFLINE) &&
  match last_heartbeat a with
  | Some hb => Z.ltb (Time.of_minutes 5) (Time.sub current_time hb)
  | None => false
  end.

Definition offline_agents (current_time : Time.datetime) (st : router)
    : list string :=
  map fst
    (List.filter (fun item => expired current_time (snd item))
       (map_to_list (agents st))).

(** One iteration of the loop of [_cleanup_task]: an exception leaves the
    [for] loop and is logged by the handler of the iteration. *)
Definition cleanup_pass (current_time : Time.datetime) (st : router) : router :=
  snd (for_each _unregister_agent (offline_agents current_time st) st).

(** The round-robin branch of [_select_agent].  Reading
    [self.routing_counters[key]] creates the entry of the [defaultdict]
    before the modulo is taken, also when the modulo then fails. *)
Definition select_round_robin (candidates : list string) : M string :=
  fun st =>
    let key := hash_tuple E candidates in
    let c := default 0 (routing_counters st !! key) in
    match candidates with
    | [] => (Raise ZeroDivisionError, set_routing_counters (insert key c) st)
    | _ :: _ =>
        let c' := (c + 1) mod Z.of_nat (length candidates) in
        let st' := set_routing_counters (insert key c') st in
        match candidates !! Z.to_nat c' with
        | Some id => (Ret id, st')
        | None => (Raise IndexError, st')
        end
    end.

(** [self.agents[a].load_factor] for every candidate, in order *)
Fixpoint load_keys (candidates : list string)
    : M (list (string * Q)) :=
  match candidates with
  | [] => ret []
  | id :: rest =>
      let* a := subscript agents id in
      let* keys := load_keys rest in
      ret ((id, load_factor a) :: keys)
  end.

(** [_select_agent] *)
Definition _select_agent (candidates : list string) (strategy : RoutingStrategy)
    : M string :=
  match strategy with
  | LEAST_LOADED =>
      match candidates with
      | [] => raise ValueError
      | _ :: _ =>
          let* keys := load_keys candidates in
          match Py.min_by Py.Qltb snd keys with
          | Some item => ret (fst item)
          | None => raise ValueError
          end
      end
  | RANDOM =>
      fun st =>
        match candidates with
        | [] => (Raise IndexError, st)
        | _ :: _ =>
            let n := length candidates in
            let i := (randbelow E (rand_calls st) n mod n)%nat in
            let st' := set_rand_calls S st in
            match candidates !! i with
            | Some id => (Ret id, st')
            | None => (Raise IndexError, st')
            end
        end
  | ROUND_ROBIN | STICKY_SESSION | PRIORITY_BASED =>
      select_round_robin candidates
  end.

(** [_deliver_message]: every exception is caught inside and turned into
    the result [False]. *)
Definition _deliver_message (id : string) (st : router) : bool * router :=
  match agents st !! id with
  | None => (false, st)
  | Some _ =>
      let '(ok, st) := publish (AgentInbox id) st in
      if ok then
        (true,
         set_agents
           (alter (fun a =>
              let n := message_count a + 1 in
              mkAgent (agent_id a) (agent_type a) (capabilities a) (status a)
                (last_heartbeat a) (inject_Z n / 100)%Q n) id) st)
      else (false, st)
  end.

(** The first part of [route_message]: the candidate ids. *)
Definition destinations (msg : message) (destination_type destination_id
    : option string) (st : router) : list string :=
  match Py.truthy destination_id with
  | Some id => if decide (is_Some (agents st !! id)) then [id] else []
  | None =>
      match Py.truthy destination_type with
      | Some ty => index_get ty (agent_types st)
      | None =>
          match Py.truthy (required_capability msg) with
          | Some c => index_get c (capabilities_index st)
          | None => []
          end
      end
  end.

(** The comprehension building [healthy_agents]: [can_execute] is only
    called on agents whose status is healthy, and may move their breaker
    to half-open. *)
Fixpoint healthy_filter (now : Time.datetime) (ids : list string)
    : M (list string) :=
  match ids with
  | [] => ret []
  | id :: rest =>
      let* a := subscript agents id in
      let* keep :=
        if decide (status a = HEALTHY) then
          let* cb := subscript circuit_breakers id in
          let '(ok, cb') := CircuitBreaker.can_execute now cb in
          modify (set_circuit_breakers (insert id cb')) ;;
          ret ok
        else ret false in
      let* rest' := healthy_filter now rest in
      ret (if keep then id :: rest' else rest')
  end.

Definition bump_messages_routed (s : statistics) : statistics :=
  mkStats (messages_routed s + 1) (routing_errors s) (agents_registered s)
    (circuit_breaker_trips s).
Definition bump_routing_errors (s : statistics) : statistics :=
  mkStats (messages_routed s) (routing_errors s + 1) (agents_registered s)
    (circuit_breaker_trips s).

(** [self.circuit_breakers[id].record_success()] and [.record_failure()] *)
Definition breaker_success (id : string) : M unit :=
  let* cb := subscript circuit_breakers id in
  modify (set_circuit_breakers (insert id (CircuitBreaker.record_success cb))).
Definition breaker_failure (now : Time.datetime) (id : string) : M unit :=
  let* cb := subscript circuit_breakers id in
  modify (set_circuit_breakers
            (insert id (CircuitBreaker.record_failure now cb))).

(** The body of the [try] block of [route_message]. *)
Definition route_body (now : Time.datetime) (msg : message)
    (destination_type destination_id : option string)
    (strategy : RoutingStrategy) : M bool :=
  let* st := get in
  let destination_agents := destinations msg destination_type destination_id st in
  match destination_agents with
  | [] => ret false
  | _ :: _ =>
      let* healthy_agents := healthy_filter now destination_agents in
      match healthy_agents with
      | [] => ret false
      | _ :: _ =>
          let* selected_agent := _select_agent healthy_agents strategy in
          let* success := total (_deliver_message selected_agent) in
          if success : bool then
            modify (set_stats bump_messages_routed) ;;
            breaker_success selected_agent ;;
            ret true
          else
            modify (set_stats bump_routing_errors) ;;
            breaker_failure now selected_agent ;;
            if (1 <? length healthy_agents)%nat then
              let alternative_agents :=
                List.filter (fun a => negb (bool_decide (a = selected_agent)))
                  healthy_agents in
              let* alternative_agent :=
                _select_agent alternative_agents strategy in
              total (_deliver_message alternative_agent)
            else ret false
      end
  end.

(** [route_message] *)
Definition route_message (now : Time.datetime) (msg : message)
    (destination_type destination_id : option string)
    (strategy : RoutingStrategy) (st : router) : bool * router :=
  match try_except
          (route_body now msg destination_type destination_id strategy)
          (modify (set_stats bump_routing_errors) ;; ret false) st with
  | (Ret b, st') => (b, st')
  | (Raise _, st') => (false, st')
  end.

(** [n] consecutive calls of [_select_agent] on the same candidate list,
    collecting the selected ids in order. *)
Fixpoint select_many (n : nat) (candidates : list string)
    (strategy : RoutingStrategy) : M (list string) :=
  match n with
  | O => ret []
  | S n' =>
      let* id := _select_agent candidates strategy in
      let* ids := select_many n' candidates strategy in
      ret (id :: ids)
  end.

End Methods.

(** The picks of [k] consecutive round-robin selections, read off the
    cursor value [c] they start from. *)
Fixpoint round_robin_picks (candidates : list string) (c : Z) (k : nat)
    : list string :=
  match k with
  | O => []
  | S k' =>
      let c' := (c + 1) mod Z.of_nat (length candidates) in
      match candidates !! Z.to_nat c' with
      | Some x => x :: round_robin_picks candidates c' k'
      | None => []
      end
  end.

(** What an operation leaves alone: the profiles and the transport log. *)
Definition same_world (st st' : router) : Prop :=
  agents st' = agents st /\ published st' = published st.

(** [self.agents[id].load_factor], read as 0 for an id without profile. *)
Definition load_of (st : router) (id : string) : Q :=
  match agents st !! id with
  | Some a => load_factor a
  | None => 0%Q
  end.

(** Every registered agent is listed under its type: what
    [_unregister_agent] needs in order not to raise. *)
Definition types_listed (st : router) : Prop :=
  forall id a, agents st !! id = Some a ->
               id ∈ index_get (agent_type a) (agent_types st).

(** A transport on which every publish succeeds, with a constant hash and a
    constant random draw; used to run the router on concrete inputs. *)
Definition quiet_env : env :=
  mkEnv (fun _ => 0) (fun _ _ => true) (fun _ _ => 0%nat).

(** A transport on which the inbox of the agent [down] cannot be reached. *)
Definition unreachable (down : string) : env :=
  mkEnv (fun _ => 0)
    (fun _ t => match t with
                | AgentInbox id => negb (bool_decide (id = down))
                | AgentUpdates => true
                end)
    (fun _ _ => 0%nat).

(** A freshly started agent, as its registration message describes it. *)
Definition fresh_agent (id ty : string) (caps : list string)
    (now : Time.datetime) : AgentInstance :=
  mkAgent id ty caps HEALTHY (Some now) 0 0.

Section Broadcast.

Context (E : env).

(** The targets of [_handle_broadcast_message]: the ids listed under the
    requested types, or every registered id when no type is given.  [keys]
    is [list(self.agents.keys())], the registered ids in the order of
    their insertion. *)
Definition broadcast_targets (keys types : list string) (st : router)
    : list string :=
  match types with
  | [] => keys
  | _ :: _ => concat (map (fun ty => index_get ty (agent_types st)) types)
  end.

(** [_handle_broadcast_message], after the payload is decoded. *)
Definition _handle_broadcast_message (keys types : list string) (st : router)
    : router :=
  fold_left (fun s id => snd (_deliver_message E id s))
    (broadcast_targets keys types st) st.

End Broadcast.

(** The transport log after a call: the log before it, followed by the
    delivery attempts of the call. *)
Definition attempted (st st' : router) (attempts : list (topic * bool)) : Prop :=
  published st' = published st ++ attempts.

End CentralRouter.

(** ** [a2a_communication.py]: registry, message router, orchestrator *)

Module A2A.

Inductive AgentCapability :=
  | TECHNICAL_ANALYSIS | NEWS_ANALYSIS | SENTIMENT_ANALYSIS | RISK_MANAGEMENT
  | PORTFOLIO_MANAGEMENT | STRATEGY_EXECUTION | MARKET_DATA | EXECUTION
  | BACKTESTING | MACRO_ANALYSIS.

#[global] Instance AgentCapability_eq_dec : EqDecision AgentCapability.
Proof. solve_decision. Defined.

(** [@dataclass AgentProfile]; [supported_patterns] and [metadata] are not
    read by the code modelled here. *)
Record AgentProfile := mkProfile {
  agent_id : string;
  agent_type : string;
  capabilities : list AgentCapability;
  service_level : Q;
  reputation_score : Q;
  load_factor : Q;
  max_concurrent_requests : Z;
  last_heartbeat : option Time.datetime;
  status : string
}.

(** [class AgentRegistry].  An entry of [capabilities_index] is a Python
    [set]; it is kept as the duplicate-free list of its members in iteration
    order, and a missing key is the empty list. *)
Record AgentRegistry := mkRegistry {
  agents : gmap string AgentProfile;
  capabilities_index : AgentCapability -> list string
}.

Definition empty_registry : AgentRegistry := mkRegistry ∅ (fun _ => []).

(** [s.add(x)] *)
Definition set_add (x : string) (s : list string) : list string :=
  if decide (x ∈ s) then s else s ++ [x].

(** [s.discard(x)] *)
Definition set_discard (x : string) (s : list string) : list string :=
  List.filter (fun y => negb (bool_decide (y = x))) s.

Definition index_update (c : AgentCapability) (f : list string -> list string)
    (idx : AgentCapability -> list string) : AgentCapability -> list string :=
  fun c' => if decide (c' = c) then f (idx c') else idx c'.

(** [AgentRegistry.register_agent] *)
Definition register_agent (p : AgentProfile) (r : AgentRegistry) : AgentRegistry :=
  mkRegistry (<[agent_id p := p]> (agents r))
    (fold_left (fun idx c => index_update c (set_add (agent_id p)) idx)
       (capabilities p) (capabilities_index r)).

(** [AgentRegistry.unregister_agent] *)
Definition unregister_agent (id : string) (r : AgentRegistry)
    : bool * AgentRegistry :=
  match agents r !! id with
  | Some p =>
      (true,
       mkRegistry (delete id (agents r))
         (fold_left (fun idx c => index_update c (set_discard id) idx)
            (capabilities p) (capabilities_index r)))
  | None => (false, r)
  end.

(** [find_agents_by_capability] *)
Definition find_agents_by_capability (c : AgentCapability) (r : AgentRegistry)
    : list AgentProfile :=
  omap (fun id => agents r !! id) (capabilities_index r c).

(** [max(0.0, x)]: the second argument is returned only when it is
    strictly greater. *)
Definition max0 (x : Q) : Q := if Py.Qltb 0 x then x else 0%Q.

(** The local function [score_agent] of [get_best_agent_for_capability]. *)
Definition score_agent (agent : AgentProfile) : Q :=
  if decide (status agent = "active") then
    let availability_score := max0 (1 - load_factor agent) in
    (reputation_score agent * (4 # 10) +
     service_level agent * (3 # 10) +
     availability_score * (3 # 10))%Q
  else 0%Q.

(** [get_best_agent_for_capability] *)
Definition get_best_agent_for_capability (c : AgentCapability)
    (r : AgentRegistry) : option AgentProfile :=
  Py.max_by Py.Qltb score_agent (find_agents_by_capability c r).

(** The comprehension of [find_agents_by_capability] over [agent_ids],
    the members of the capability's set in the order in which the set is
    iterated. *)
Definition find_agents_in (agent_ids : list string) (r : AgentRegistry)
    : list AgentProfile :=
  omap (fun id => agents r !! id) agent_ids.

(** [score_agent] in double arithmetic: [rnd] rounds an exact result to a
    double, [w4] and [w3] are the doubles that [0.4] and [0.3] denote. *)
Definition score_agent_fl (rnd : Q -> Q) (w4 w3 : Q) (agent : AgentProfile)
    : Q :=
  if decide (status agent = "active") then
    let availability_score := max0 (Py.fsub rnd 1 (load_factor agent)) in
    let reputation_weight := w4 in
    let service_weight := w3 in
    let availability_weight := w3 in
    Py.fadd rnd
      (Py.fadd rnd (Py.fmul rnd (reputation_score agent) reputation_weight)
         (Py.fmul rnd (service_level agent) service_weight))
      (Py.fmul rnd availability_score availability_weight)
  else 0%Q.

(** [get_best_agent_for_capability] in double arithmetic, the set of the
    capability iterated in the order [agent_ids]. *)
Definition get_best_agent_fl (rnd : Q -> Q) (w4 w3 : Q)
    (agent_ids : list string) (r : AgentRegistry) : option AgentProfile :=
  Py.max_by Py.Qltb (score_agent_fl rnd w4 w3) (find_agents_in agent_ids r).

(** The weighted sum [score_agent] returns for an active agent. *)
Definition weighted_score (agent : AgentProfile) : Q :=
  (reputation_score agent * (4 # 10) +
   service_level agent * (3 # 10) +
   max0 (1 - load_factor agent) * (3 # 10))%Q.

(** *** [class MessageRouter] *)

(** [@dataclass AgentMessage], without the payload. *)
Record AgentMessage := mkMsg {
  message_id : string;
  sender_id : string;
  receiver_id : string;
  ttl : option Time.datetime;
  requires_response : bool;
  response_timeout : option Z
}.

(** The state of an [asyncio.Future]. *)
Inductive future := Pending | Failed | Resolved.

Definition done (f : future) : bool :=
  match f with Pending => false | _ => true end.

(** The router and the part of the event loop it feeds.  Futures are
    objects: [futures] is the store they live in, and a slot of
    [pending_responses] holds the address of one.  [timers] lists the
    watchdog tasks created so far (message id, seconds to sleep) and
    [deliveries] the delivery tasks. *)
Record MessageRouter := mkMR {
  registry : AgentRegistry;
  message_handlers : gset string;
  pending_responses : gmap string nat;
  futures : list future;
  timers : list (string * Z);
  deliveries : list AgentMessage
}.

Definition new_router (r : AgentRegistry) : MessageRouter :=
  mkMR r ∅ ∅ [] [] [].

(** [register_handler] *)
Definition register_handler (id : string) (mr : MessageRouter) : MessageRouter :=
  mkMR (registry mr) ({[id]} ∪ message_handlers mr) (pending_responses mr)
    (futures mr) (timers mr) (deliveries mr).

(** [_track_pending_response]: nothing happens when [response_timeout] is
    [None] or [0]. *)
Definition _track_pending_response (m : AgentMessage) (mr : MessageRouter)
    : MessageRouter :=
  match response_timeout m with
  | Some n =>
      if decide (n = 0) then mr
      else
        mkMR (registry mr) (message_handlers mr)
          (<[message_id m := length (futures mr)]> (pending_responses mr))
          (futures mr ++ [Pending])
          (timers mr ++ [(message_id m, n)])
          (deliveries mr)
  | None => mr
  end.

(** [_handle_response_timeout], from the point where its sleep is over. *)
Definition _handle_response_timeout (id : string) (mr : MessageRouter)
    : MessageRouter :=
  match pending_responses mr !! id with
  | Some addr =>
      let fs :=
        match futures mr !! addr with
        | Some f => if done f then futures mr else <[addr := Failed]> (futures mr)
        | None => futures mr
        end in
      mkMR (registry mr) (message_handlers mr)
        (delete id (pending_responses mr)) fs (timers mr) (deliveries mr)
  | None => mr
  end.

(** [MessageRouter.route_message]; the message's [routing_path] is not
    modelled. *)
Definition route_message (now : Time.datetime) (m : AgentMessage)
    (mr : MessageRouter) : bool * MessageRouter :=
  match agents (registry mr) !! receiver_id m with
  | None => (false, mr)
  | Some _ =>
      if match ttl m with Some t => Z.ltb t now | None => false end
      then (false, mr)
      else if decide (receiver_id m ∈ message_handlers mr) then
        let mr := if requires_response m
                  then _track_pending_response m mr else mr in
        (true,
         mkMR (registry mr) (message_handlers mr) (pending_responses mr)
           (futures mr) (timers mr) (deliveries mr ++ [m]))
      else (false, mr)
  end.

(** [wait_for_response] up to the [await]: the future waited on, or
    [None] for the [ValueError]. *)
Definition wait_for_response (id : string) (mr : MessageRouter) : option nat :=
  pending_responses mr !! id.

(** What can happen to a router between two instants: a call of
    [route_message], a watchdog [_handle_response_timeout] waking up, a
    call of [register_handler], or a change of the shared registry. *)
Inductive event :=
  | Route (now : Time.datetime) (m : AgentMessage)
  | Watchdog (id : string)
  | RegisterHandler (id : string)
  | Registry (r : AgentRegistry).

Definition apply_event (mr : MessageRouter) (e : event) : MessageRouter :=
  match e with
  | Route now m => snd (route_message now m mr)
  | Watchdog id => _handle_response_timeout id mr
  | RegisterHandler id => register_handler id mr
  | Registry r =>
      mkMR r (message_handlers mr) (pending_responses mr) (futures mr)
        (timers mr) (deliveries mr)
  end.

Definition run_events (events : list event) (mr : MessageRouter)
    : MessageRouter :=
  fold_left apply_event events mr.

(** The events that carry the message id [id]: the routing of a message
    with that id and the watchdog of that id. *)
Definition concerns (id : string) (e : event) : bool :=
  match e with
  | Route _ m => bool_decide (message_id m = id)
  | Watchdog id' => bool_decide (id' = id)
  | RegisterHandler _ | Registry _ => false
  end.

(** The watchdog of [id] waking up. *)
Definition fires (id : string) (e : event) : bool :=
  match e with
  | Watchdog id' => bool_decide (id' = id)
  | Route _ _ | RegisterHandler _ | Registry _ => false
  end.

(** Every slot holds the address of a future of the store, as it does in
    every router built from [new_router] by the events above. *)
Definition slots_allocated (mr : MessageRouter) : Prop :=
  forall id addr, pending_responses mr !! id = Some addr ->
                  (addr < length (futures mr))%nat.

(** The slot of [id] is there, it is the only one that holds the future
    at [addr], and that future is pending. *)
Definition holds_slot (id : string) (addr : nat) (mr : MessageRouter) : Prop :=
  pending_responses mr !! id = Some addr /\
  futures mr !! addr = Some Pending /\
  (forall id', pending_responses mr !! id' = Some addr -> id' = id) /\
  slots_allocated mr.

(** *** [class CollaborationOrchestrator] *)

(** A value a response may carry under ["decision"]. *)
Inductive pyval :=
  | PyNone
  | PyStr (s : string)
  | PyInt (n : Z).

#[global] Instance pyval_eq_dec : EqDecision pyval.
Proof. solve_decision. Defined.

(** A response payload, reduced to its ["decision"] key: [None] when the
    key is absent. *)
Record response := mkResponse { decision : option pyval }.

(** [r.get("decision")] *)
Definition get_decision (r : response) : pyval := default PyNone (decision r).

(** The dict [_analyze_consensus] returns. *)
Record consensus := mkConsensus {
  consensus_achieved : bool;
  agreement_score : Q;
  final_decision : pyval;
  dissenting_agents : list string
}.

(** [vote_counts[decision] = vote_counts.get(decision, 0) + 1] *)
Definition count_vote (vote_counts : list (pyval * Z)) (d : pyval)
    : list (pyval * Z) :=
  Py.dict_set d (default 0 (Py.dict_get d vote_counts) + 1) vote_counts.

(** [_analyze_consensus]; [responses] is the dict in insertion order. *)
Definition _analyze_consensus (responses : list (string * response)) : consensus :=
  match responses with
  | [] => mkConsensus false 0 PyNone []
  | _ :: _ =>
      let decisions := omap (fun item => decision (snd item)) responses in
      let vote_counts := fold_left count_vote decisions [] in
      (* [vote_counts] has an item exactly when [decisions] has one, so
         the branch without a maximum is the [if not decisions] return *)
      match Py.max_by Z.ltb snd vote_counts with
      | None => mkConsensus false 0 PyNone (map fst responses)
      | Some majority_decision =>
          let majority_count := snd majority_decision in
          let total_responses := Z.of_nat (length decisions) in
          let agreement_score :=
            (inject_Z majority_count / inject_Z total_responses)%Q in
          let consensus_achieved := Qle_bool (6 # 10) agreement_score in
          let dissenting_agents :=
            map fst
              (List.filter
                 (fun item =>
                    negb (bool_decide
                            (get_decision (snd item) = fst majority_decision)))
                 responses) in
          mkConsensus consensus_achieved agreement_score
            (fst majority_decision) dissenting_agents
      end
  end.

(** The number of occurrences of [d] among the decisions. *)
Definition votes (decisions : list pyval) (d : pyval) : Z :=
  Z.of_nat (count_occ pyval_eq_dec decisions d).

(** The decisions of all responses, a missing one read as [None]. *)
Definition decisions_of (responses : list (string * response)) : list pyval :=
  map (fun item => get_decision (snd item)) responses.

(** An entry of [active_collaborations]. *)
Record collaboration := mkCollab {
  topic : string;
  participants : list string;
  responses : list (string * response);
  timeout : Z
}.

Definition orchestrator := gmap string collaboration.

(** [handle_consensus_response] *)
Definition handle_consensus_response (collaboration_id sender : string)
    (content : response) (o : orchestrator) : orchestrator :=
  alter (fun c => mkCollab (topic c) (participants c)
                    (Py.dict_set sender content (responses c)) (timeout c))
    collaboration_id o.

(** The condition under which the polling loop of
    [_collect_consensus_responses] is left. *)
Definition polling_over (start_time now : Time.datetime) (c : collaboration)
    : bool :=
  negb (Z.ltb (Time.sub now start_time) (Time.of_seconds (timeout c)))
  || (length (participants c) <=? length (responses c))%nat.

(** The dict [_collect_consensus_responses] returns. *)
Record consensus_report := mkReport {
  report_id : string;
  report_result : consensus;
  report_responses : list (string * response)
}.

(** [_collect_consensus_responses] from the point where the polling loop is
    over; [o] is the orchestrator at that moment.  [None] is the
    [KeyError] of an unknown collaboration id. *)
Definition _collect_consensus_responses (collaboration_id : string)
    (o : orchestrator) : option (consensus_report * orchestrator) :=
  match o !! collaboration_id with
  | None => None
  | Some c =>
      Some (mkReport collaboration_id (_analyze_consensus (responses c))
              (responses c),
            delete collaboration_id o)
  end.

(** A review payload: its ["scores"] and ["recommendations"] keys. *)
Record review := mkReview {
  scores : option (gmap string Q);
  recommendations : option (list string)
}.

(** [review.get("scores", {}).get(criterion, 0.0)] *)
Definition score_of (criterion : string) (r : review) : Q :=
  default 0%Q (default ∅ (scores r) !! criterion).

(** [sum(l) / len(l) if l else 0.0] *)
Definition mean (l : list Q) : Q :=
  match l with
  | [] => 0%Q
  | _ :: _ => (Py.Qsum l / inject_Z (Z.of_nat (length l)))%Q
  end.

(** The dict [_aggregate_peer_reviews] returns; [reviewer_count] is only
    present when at least one review came in. *)
Record review_result := mkResult {
  overall_score : Q;
  criteria_scores : list (string * Q);
  all_recommendations : list string;
  consensus_level : Q;
  reviewer_count : option nat
}.

(** The loop filling [criteria_scores]. *)
Definition aggregate_criteria (reviews : list (string * review))
    (criteria : list string) : list (string * Q) :=
  fold_left
    (fun acc criterion =>
       Py.dict_set criterion
         (mean (map (fun item => score_of criterion (snd item)) reviews)) acc)
    criteria [].

(** [_aggregate_peer_reviews]; the order of the recommendations, which
    Python takes from a [set], is that of first occurrence here. *)
Definition _aggregate_peer_reviews (reviews : list (string * review))
    (criteria : list string) : review_result :=
  match reviews with
  | [] => mkResult 0 [] [] 0 None
  | _ :: _ =>
      let criteria_scores := aggregate_criteria reviews criteria in
      let overall_score := mean (map snd criteria_scores) in
      let all_recommendations :=
        concat (map (fun item => default [] (recommendations (snd item)))
                  reviews) in
      let score_variance :=
        mean (map (fun s => ((s - overall_score) * (s - overall_score))%Q)
                (map snd criteria_scores)) in
      mkResult overall_score criteria_scores (remove_dups all_recommendations)
        (max0 (1 - score_variance)) (Some (length reviews))
  end.

(** *** Registry upkeep and the manager's broadcast *)

(** [AgentRegistry.update_agent_status]; [load] is [None] when the caller
    leaves [load_factor] out. *)
Definition update_agent_status (now : Time.datetime) (id status' : string)
    (load : option Q) (r : AgentRegistry) : AgentRegistry :=
  mkRegistry
    (alter (fun p =>
       mkProfile (agent_id p) (agent_type p) (capabilities p)
         (service_level p) (reputation_score p)
         (default (load_factor p) load) (max_concurrent_requests p)
         (Some now) status') id (agents r))
    (capabilities_index r).

(** The test of [cleanup_stale_agents] on one profile. *)
Definition stale (cutoff_time : Time.datetime) (p : AgentProfile) : bool :=
  match last_heartbeat p with
  | Some hb => Z.ltb hb cutoff_time
  | None => false
  end.

(** [AgentRegistry.cleanup_stale_agents] *)
Definition cleanup_stale_agents (now : Time.datetime) (timeout_minutes : Z)
    (r : AgentRegistry) : AgentRegistry :=
  let cutoff_time := now - Time.of_minutes timeout_minutes in
  let stale_agents :=
    map fst (List.filter (fun item => stale cutoff_time (snd item))
               (map_to_list (agents r))) in
  fold_left (fun r id => snd (unregister_agent id r)) stale_agents r.

(** What [broadcast_message] iterates over: with a filter the members of
    the capability's set, in the order in which Python iterates the set,
    and without one [list(self.registry.agents.keys())].  Neither order
    is recorded in the registry, so [ids] is any enumeration of them. *)
Definition iterates (ids : list string)
    (capability_filter : option AgentCapability) (r : AgentRegistry) : Prop :=
  match capability_filter with
  | Some c => ids ≡ₚ capabilities_index r c
  | None => Py.dict_keys ids (agents r)
  end.

(** The target ids of [A2ACommunicationManager.broadcast_message], the
    sender removed; [ids] is what the call iterates over. *)
Definition broadcast_targets (ids : list string) (sender : string)
    (capability_filter : option AgentCapability) (r : AgentRegistry)
    : list string :=
  let target_ids :=
    match capability_filter with
    | Some _ => map agent_id (find_agents_in ids r)
    | None => ids
    end in
  List.filter (fun tid => negb (bool_decide (tid = sender))) target_ids.

(** The loop of [broadcast_message] over the targets: [uuid k] stands for
    the identifier drawn for the [k]-th message, [sent] counts the messages
    created so far. *)
Fixpoint broadcast_loop (uuid : nat -> string) (now : Time.datetime)
    (sender : string) (targets : list string) (sent : nat)
    (mr : MessageRouter) : Z * MessageRouter :=
  match targets with
  | [] => (0, mr)
  | target_id :: rest =>
      let message := mkMsg (uuid sent) sender target_id None false None in
      let '(ok, mr) := route_message now message mr in
      let '(success_count, mr) :=
        broadcast_loop uuid now sender rest (S sent) mr in
      ((if ok then 1 else 0) + success_count, mr)
  end.

(** [A2ACommunicationManager.broadcast_message] *)
Definition broadcast_message (uuid : nat -> string) (now : Time.datetime)
    (ids : list string) (sender : string)
    (capability_filter : option AgentCapability)
    (mr : MessageRouter) : Z * MessageRouter :=
  broadcast_loop uuid now sender
    (broadcast_targets ids sender capability_filter (registry mr)) 0 mr.

(** The sort key of a reviewer in [orchestrate_peer_review]. *)
Definition reviewer_key (r : AgentRegistry) (x : string) : Q * Q :=
  match agents r !! x with
  | Some p => (reputation_score p, (- load_factor p)%Q)
  | None => (0%Q, 0%Q)
  end.

(** The reviewers [orchestrate_peer_review] selects; [all_agents] is
    [list(self.registry.agents.keys())]. *)
Definition select_reviewers (subject_agent : string) (num_reviewers : Z)
    (all_agents : list string) (r : AgentRegistry) : list string :=
  let eligible_reviewers :=
    List.filter (fun a => negb (bool_decide (a = subject_agent))) all_agents in
  let num_reviewers :=
    if Z.ltb (Z.of_nat (length eligible_reviewers)) num_reviewers
    then Z.of_nat (length eligible_reviewers) else num_reviewers in
  Py.slice_to num_reviewers
    (Py.sorted_desc Py.pair_ltb (reviewer_key r) eligible_reviewers).

(** A target the router accepts a broadcast message for. *)
Definition accepts (mr : MessageRouter) (target : string) : bool :=
  bool_decide (is_Some (agents (registry mr) !! target))
  && bool_decide (target ∈ message_handlers mr).

End A2A.

(** * Properties *)

(** ** Time *)

Lemma seconds_range td : 0 <= Time.seconds td < Time.sec_per_day.
Proof. unfold Time.seconds, Time.sec_per_day. apply Z.mod_pos_bound. lia. Qed.

Lemma seconds_le_whole td :
  0 <= td -> Time.seconds td <= td / Time.usec_per_sec.
Proof.
  intros Htd. unfold Time.seconds, Time.sec_per_day.
  apply Z.mod_le; [|lia].
  apply Z.div_pos; [exact Htd | unfold Time.usec_per_sec; lia].
Qed.

Lemma seconds_within_day td :
  0 <= td < Time.of_seconds Time.sec_per_day ->
  Time.seconds td = td / Time.usec_per_sec.
Proof.
  unfold Time.of_seconds, Time.seconds, Time.sec_per_day, Time.usec_per_sec.
  intros [H0 H1]. apply Z.mod_small. split.
  - apply Z.div_pos; lia.
  - apply Z.div_lt_upper_bound; lia.
Qed.

(** ** Circuit breaker *)

Section BreakerFacts.

Import CircuitBreaker.

Lemma record_failures_snoc times now cb :
  record_failures (times ++ [now]) cb = record_failure now (record_failures times cb).
Proof. unfold record_failures. by rewrite fold_left_app. Qed.

Lemma record_failures_params times cb :
  threshold (record_failures times cb) = threshold cb /\
  timeout (record_failures times cb) = timeout cb /\
  failure_count (record_failures times cb)
  = failure_count cb + Z.of_nat (length times).
Proof.
  induction times as [|now times IH] using rev_ind.
  - cbn. repeat split; lia.
  - rewrite record_failures_snoc, length_app. cbn.
    destruct IH as (-> & -> & ->). repeat split; lia.
Qed.

Lemma record_failures_last times now cb :
  last_failure (record_failures (times ++ [now]) cb) = Some now /\
  state (record_failures (times ++ [now]) cb)
  = if Z.leb (threshold cb) (failure_count cb + Z.of_nat (length times) + 1)
    then Open else state (record_failures times cb).
Proof.
  rewrite record_failures_snoc. cbn.
  destruct (record_failures_params times cb) as (-> & _ & ->). done.
Qed.

Lemma open_blocks_until_cooldown cb lf now :
  state cb = Open -> last_failure cb = Some lf ->
  lf <= now <= lf + Time.of_seconds (timeout cb) ->
  can_execute now cb = (false, cb).
Proof.
  intros Hst Hlf [Hlo Hhi]. unfold can_execute. rewrite Hst, Hlf.
  assert (Time.seconds (Time.sub now lf) <= timeout cb) as Hle.
  { etransitivity; [apply seconds_le_whole; unfold Time.sub; lia|].
    unfold Time.sub, Time.of_seconds, Time.usec_per_sec in *.
    enough ((now - lf) / 1000000 < timeout cb + 1) by lia.
    apply Z.div_lt_upper_bound; lia. }
  destruct (Z.ltb_spec (timeout cb) (Time.seconds (Time.sub now lf))); [lia|done].
Qed.

Lemma open_admits_after_cooldown cb lf now :
  state cb = Open -> last_failure cb = Some lf ->
  lf + Time.of_seconds (timeout cb + 1) <= now
    < lf + Time.of_seconds Time.sec_per_day ->
  0 <= timeout cb + 1 ->
  can_execute now cb = (true, set_state HalfOpen cb).
Proof.
  intros Hst Hlf [Hlo Hhi] Hpos. unfold can_execute. rewrite Hst, Hlf.
  assert (timeout cb < Time.seconds (Time.sub now lf)) as Hlt.
  { rewrite seconds_within_day.
    - unfold Time.sub, Time.of_seconds, Time.usec_per_sec in *.
      enough (timeout cb + 1 <= (now - lf) / 1000000) by lia.
      apply Z.div_le_lower_bound; lia.
    - unfold Time.sub, Time.of_seconds, Time.usec_per_sec in *. lia. }
  destruct (Z.ltb_spec (timeout cb) (Time.seconds (Time.sub now lf))); [done|lia].
Qed.

End BreakerFacts.

(** C3 as the claim states it fails at the instant the cooldown ends: five
    failures at seconds 0 to 4 open a default breaker (threshold 5,
    cooldown 60 s), and a call made exactly 60 s after the last failure is
    still refused and leaves the breaker open, where the claim lets the
    first call "at or after that moment" through. *)
Lemma breaker_refuses_at_cooldown :
  let cb := CircuitBreaker.record_failures
              (map Time.of_seconds [0; 1; 2; 3; 4]) CircuitBreaker.default in
  let now := Time.of_seconds 4 + Time.of_seconds (CircuitBreaker.timeout cb) in
  CircuitBreaker.state cb = CircuitBreaker.Open /\
  CircuitBreaker.last_failure cb = Some (Time.of_seconds 4) /\
  CircuitBreaker.can_execute now cb = (false, cb).
Proof. vm_compute. repeat split; reflexivity. Qed.

(** C3 (amended).  A breaker with threshold at least 1 and no failure on
    record that records [threshold] consecutive failures is open, with
    [failure_count = threshold] and [last_failure] the instant of the last
    one.  From then on [can_execute] returns false, and changes nothing, at
    every instant up to and including [cooldown] seconds after
    [last_failure]; a call made at least [cooldown + 1] seconds and less
    than one day after [last_failure] returns true and moves the breaker
    to half-open.  In half-open, [can_execute] returns true and changes
    nothing, [record_failure] re-opens the breaker, and [record_success]
    sets [failure_count] to 0 and the state to closed. *)
Theorem breaker_cooldown_cycle :
  forall (cb0 : CircuitBreaker.t) (times : list Time.datetime)
         (t_last : Time.datetime),
    1 <= CircuitBreaker.threshold cb0 ->
    0 <= CircuitBreaker.timeout cb0 ->
    CircuitBreaker.failure_count cb0 = 0 ->
    Z.of_nat (length times) = CircuitBreaker.threshold cb0 ->
    last times = Some t_last ->
    let cb := CircuitBreaker.record_failures times cb0 in
    let half := CircuitBreaker.set_state CircuitBreaker.HalfOpen cb in
    (CircuitBreaker.state cb = CircuitBreaker.Open /\
     CircuitBreaker.failure_count cb = CircuitBreaker.threshold cb0 /\
     CircuitBreaker.last_failure cb = Some t_last) /\
    (forall now,
        t_last <= now <= t_last + Time.of_seconds (CircuitBreaker.timeout cb0) ->
        CircuitBreaker.can_execute now cb = (false, cb)) /\
    (forall now,
        t_last + Time.of_seconds (CircuitBreaker.timeout cb0 + 1) <= now
          < t_last + Time.of_seconds Time.sec_per_day ->
        CircuitBreaker.can_execute now cb = (true, half)) /\
    (forall now, CircuitBreaker.can_execute now half = (true, half)) /\
    (forall now,
        CircuitBreaker.state (CircuitBreaker.record_failure now half)
        = CircuitBreaker.Open) /\
    (CircuitBreaker.failure_count (CircuitBreaker.record_success half) = 0 /\
     CircuitBreaker.state (CircuitBreaker.record_success half)
     = CircuitBreaker.Closed).
Proof.
  intros cb0 times t_last Hthr Hto Hcount Hlen Hlast cb half.
  destruct (last_Some times t_last) as [[prefix ->] _]; [done|].
  rewrite length_app in Hlen. cbn in Hlen.
  destruct (record_failures_last prefix t_last cb0) as [Hlf Hst].
  destruct (record_failures_params (prefix ++ [t_last]) cb0)
    as (Hthr' & Hto' & Hcnt').
  rewrite length_app in Hcnt'. cbn in Hcnt'.
  fold cb in Hlf, Hst, Hthr', Hto', Hcnt'.
  assert (CircuitBreaker.state cb = CircuitBreaker.Open) as Hopen.
  { rewrite Hst. destruct (Z.leb_spec (CircuitBreaker.threshold cb0)
      (CircuitBreaker.failure_count cb0 + Z.of_nat (length prefix) + 1));
      [done|lia]. }
  split; [repeat split; [done|lia|done]|].
  split.
  { intros now Hnow. apply (open_blocks_until_cooldown cb t_last); try done.
    rewrite Hto'. done. }
  split.
  { intros now Hnow. apply (open_admits_after_cooldown cb t_last); try done.
    - rewrite Hto'. done.
    - rewrite Hto'. lia. }
  split; [done|]. split; [|done].
  intros now. cbn.
  destruct (Z.leb_spec (CircuitBreaker.threshold cb)
              (CircuitBreaker.failure_count cb + 1)); [done|lia].
Qed.

Lemma breaker_cooldown_cycle_witness :
  let cb := CircuitBreaker.record_failures
              (map Time.of_seconds [0; 1; 2; 3; 4]) CircuitBreaker.default in
  CircuitBreaker.state cb = CircuitBreaker.Open /\
  CircuitBreaker.can_execute (Time.of_seconds 65) cb
  = (true, CircuitBreaker.set_state CircuitBreaker.HalfOpen cb).
Proof.
  pose proof (breaker_cooldown_cycle CircuitBreaker.default
                (map Time.of_seconds [0; 1; 2; 3; 4]) (Time.of_seconds 4)) as H.
  cbv zeta in H.
  destruct H as ((Hopen & _) & _ & Hadmit & _);
    [cbn; lia | cbn; lia | reflexivity | reflexivity | reflexivity |].
  split; [exact Hopen|].
  apply Hadmit. vm_compute. split; [discriminate | reflexivity].
Defined.

(** ** Central router: registration and the indices *)

(** C5 (the code departs from the claim).  Registering the agent ["a"]
    twice lists its id twice under its type and under its capability, and
    unregistering it afterwards removes the profile and only one of the two
    occurrences from each index: the id stays in both indices with no
    profile behind it. *)
Theorem reregistration_leaves_orphans :
  forall E : CentralRouter.env,
    let a := CentralRouter.fresh_agent "a" "analyst" ["charts"] 0 in
    let st2 := CentralRouter.register_agent E a
                 (CentralRouter.register_agent E a CentralRouter.init) in
    let res := CentralRouter._unregister_agent "a" st2 in
    (CentralRouter.index_get "analyst" (CentralRouter.agent_types st2)
       = ["a"; "a"] /\
     CentralRouter.index_get "charts" (CentralRouter.capabilities_index st2)
       = ["a"; "a"]) /\
    fst res = CentralRouter.Ret tt /\
    CentralRouter.agents (snd res) !! "a" = None /\
    CentralRouter.index_get "analyst" (CentralRouter.agent_types (snd res))
      = ["a"] /\
    CentralRouter.index_get "charts" (CentralRouter.capabilities_index (snd res))
      = ["a"].
Proof. intros E. vm_compute. repeat split; reflexivity. Qed.

(** ** Central router: round-robin selection *)

Section RoundRobin.

Import CentralRouter.
Context (E : env).

Lemma select_round_robin_step (candidates : list string) (st : router) :
  candidates <> [] ->
  let n := Z.of_nat (length candidates) in
  let key := hash_tuple E candidates in
  let c' := (default 0 (routing_counters st !! key) + 1) mod n in
  exists id,
    candidates !! Z.to_nat c' = Some id /\
    select_round_robin E candidates st
    = (Ret id, set_routing_counters (insert key c') st).
Proof.
  intros Hne n key c'. unfold select_round_robin.
  destruct candidates as [|x l]; [done|].
  fold key. fold n. fold c'.
  assert (0 <= c' < n) as Hc'.
  { apply Z.mod_pos_bound. unfold n. cbn [length]. lia. }
  destruct (lookup_lt_is_Some_2 (x :: l) (Z.to_nat c')) as [id Hid].
  { unfold n in Hc'. lia. }
  exists id. rewrite Hid. done.
Qed.

Lemma select_many_round_robin (candidates : list string) (k : nat) :
  candidates <> [] ->
  forall st : router,
    exists st',
      select_many E k candidates ROUND_ROBIN st
      = (Ret (round_robin_picks candidates
                (default 0 (routing_counters st !! hash_tuple E candidates)) k),
         st').
Proof.
  intros Hne. induction k as [|k IH]; intros st.
  - exists st. done.
  - destruct (select_round_robin_step candidates st Hne) as (x & Hx & Hsel).
    cbn [select_many _select_agent]. unfold bind at 1. rewrite Hsel.
    set (key := hash_tuple E candidates) in *.
    set (n := Z.of_nat (length candidates)) in *.
    set (c := default 0 (routing_counters st !! key)) in *.
    destruct (IH (set_routing_counters (insert key ((c + 1) mod n)) st))
      as (st' & Hrest).
    unfold bind at 1. rewrite Hrest. exists st'. unfold ret. do 2 f_equal.
    cbn [routing_counters set_routing_counters].
    rewrite lookup_insert_eq. cbn [default round_robin_picks].
    fold n. rewrite Hx. done.
Qed.

Lemma lookup_cons_Some_S_aux {A} (x : A) (l : list A) (j : nat) :
  (x :: l) !! S j = l !! j.
Proof. reflexivity. Qed.

Lemma round_robin_picks_lookup (candidates : list string) (k : nat) :
  candidates <> [] ->
  forall (c : Z) (j : nat),
    (j < k)%nat ->
    round_robin_picks candidates c k !! j
    = candidates
        !! Z.to_nat ((c + 1 + Z.of_nat j) mod Z.of_nat (length candidates)).
Proof.
  intros Hne.
  set (n := Z.of_nat (length candidates)).
  assert (0 < n) as Hn.
  { unfold n. destruct candidates; [done|cbn [length]; lia]. }
  induction k as [|k IH]; intros c j Hj; [lia|].
  cbn [round_robin_picks]. fold n.
  destruct (lookup_lt_is_Some_2 candidates (Z.to_nat ((c + 1) mod n)))
    as [x Hx].
  { pose proof (Z.mod_pos_bound (c + 1) n Hn). lia. }
  rewrite Hx. destruct j as [|j].
  - replace (c + 1 + Z.of_nat 0) with (c + 1) by lia. by rewrite Hx.
  - rewrite lookup_cons_Some_S_aux, IH by lia. do 2 f_equal.
    replace ((c + 1) mod n + 1 + Z.of_nat j)
      with ((c + 1) mod n + (1 + Z.of_nat j)) by lia.
    rewrite Zplus_mod_idemp_l. f_equal. lia.
Qed.

Lemma round_robin_picks_length (candidates : list string) (k : nat) (c : Z) :
  (length (round_robin_picks candidates c k) <= k)%nat.
Proof.
  revert c. induction k as [|k IH]; intros c; cbn; [lia|].
  destruct (candidates !! _); cbn; [|lia]. specialize (IH ((c + 1) mod
    Z.of_nat (length candidates))). lia.
Qed.

Lemma round_robin_picks_rotate (candidates : list string) (c : Z) :
  candidates <> [] ->
  round_robin_picks candidates c (length candidates)
  = rotate (Z.to_nat ((c + 1) mod Z.of_nat (length candidates))) candidates.
Proof.
  intros Hne.
  set (n := Z.of_nat (length candidates)).
  assert (0 < n) as Hn.
  { unfold n. destruct candidates; [done|cbn [length]; lia]. }
  assert (0 <= (c + 1) mod n < n) as Hr by (apply Z.mod_pos_bound; lia).
  apply list_eq. intros i.
  destruct (decide (i < length candidates)%nat) as [Hi|Hi].
  - rewrite lookup_rotate_r by done. unfold rotate_nat_add.
    rewrite Z2Nat.id by lia. fold n.
    rewrite Zplus_mod_idemp_l.
    by apply round_robin_picks_lookup.
  - rewrite (lookup_ge_None_2 (rotate _ _)) by (rewrite length_rotate; lia).
    apply lookup_ge_None_2.
    pose proof (round_robin_picks_length candidates (length candidates) c). lia.
Qed.

Lemma rotate_Permutation {A} (k : nat) (l : list A) : rotate k l ≡ₚ l.
Proof.
  unfold rotate. rewrite Permutation_app_comm. by rewrite take_drop.
Qed.

End RoundRobin.

(** C6.  [N] consecutive round-robin selections on a fixed non-empty
    candidate list of length [N], with nothing else touching the cursor in
    between, all return normally, and the ids they return are the
    candidates, each position of the list being visited exactly once
    (the picks are a permutation of the list, namely a rotation of it). *)
Theorem round_robin_visits_each_once :
  forall (E : CentralRouter.env) (candidates : list string)
         (st : CentralRouter.router),
    candidates <> [] ->
    exists picks st',
      CentralRouter.select_many E (length candidates) candidates
        CentralRouter.ROUND_ROBIN st = (CentralRouter.Ret picks, st') /\
      picks ≡ₚ candidates.
Proof.
  intros E candidates st Hne.
  destruct (select_many_round_robin E candidates (length candidates) Hne st)
    as (st' & Hrun).
  eexists _, st'. split; [exact Hrun|].
  rewrite round_robin_picks_rotate by done. apply rotate_Permutation.
Qed.

Lemma round_robin_visits_each_once_witness :
  exists picks st',
    CentralRouter.select_many CentralRouter.quiet_env 3 ["a"; "b"; "c"]
      CentralRouter.ROUND_ROBIN CentralRouter.init
    = (CentralRouter.Ret picks, st') /\
    picks ≡ₚ ["a"; "b"; "c"].
Proof.
  apply (round_robin_visits_each_once CentralRouter.quiet_env ["a"; "b"; "c"]
           CentralRouter.init).
  discriminate.
Defined.

(** ** Central router: health aging and eviction *)

Section Eviction.

Import CentralRouter.

Lemma py_remove_Some {A} `{EqDecision A} (x : A) (l : list A) :
  x ∈ l -> exists l', Py.remove x l = Some l' /\
                      forall y, y <> x -> y ∈ l -> y ∈ l'.
Proof.
  induction l as [|z l IH]; intros Hin.
  - by apply elem_of_nil in Hin.
  - cbn. destruct (decide (z = x)) as [->|Hzx].
    + exists l. split; [done|]. intros y Hy Hyin.
      apply elem_of_cons in Hyin as [->|]; done.
    + apply elem_of_cons in Hin as [->|Hin]; [done|].
      destruct (IH Hin) as (l' & -> & Hl'). exists (z :: l'). split; [done|].
      intros y Hy Hyin. apply elem_of_cons in Hyin as [->|Hyin].
      * apply elem_of_cons. by left.
      * apply elem_of_cons. right. by apply Hl'.
Qed.

Lemma drop_capabilities_frame id caps st :
  let st' := fold_left (fun s c => drop_capability id c s) caps st in
  agents st' = agents st /\ agent_types st' = agent_types st /\
  circuit_breakers st' = circuit_breakers st.
Proof.
  revert st. induction caps as [|c caps IH]; intros st; [done|].
  cbn [fold_left]. destruct (IH (drop_capability id c st)) as (-> & -> & ->).
  unfold drop_capability. by destruct (Py.remove _ _).
Qed.

Lemma unregister_listed st id a :
  types_listed st -> agents st !! id = Some a ->
  exists st',
    _unregister_agent id st = (Ret tt, st') /\
    agents st' = delete id (agents st) /\
    types_listed st'.
Proof.
  intros Hinv Ha. unfold _unregister_agent. rewrite Ha.
  destruct (py_remove_Some id (index_get (agent_type a) (agent_types st)))
    as (l & Hl & Hkeep); [by apply (Hinv id a)|].
  rewrite Hl. eexists. split; [done|].
  set (st1 := set_agent_types (insert (agent_type a) l) st).
  destruct (drop_capabilities_frame id (capabilities a) st1) as (Hag & Hty & _).
  cbn [agents set_agents set_circuit_breakers agent_types].
  split; [by rewrite Hag|].
  intros id' a' Ha'. cbn [agents set_agents set_circuit_breakers agent_types] in *.
  rewrite Hag in Ha'. rewrite Hty. cbn in Ha'.
  apply lookup_delete_Some in Ha' as [Hne Ha'].
  cbn. unfold index_get. destruct (decide (agent_type a = agent_type a')) as [Heq|Hty'].
  - rewrite Heq, lookup_insert_eq. cbn. apply Hkeep; [done|].
    rewrite Heq. by apply (Hinv id' a').
  - rewrite lookup_insert_ne by done. by apply (Hinv id' a').
Qed.

(** [types_listed] holds initially and is kept by registration and by the
    health pass, as it is by [_unregister_agent]. *)
Lemma types_listed_init : types_listed init.
Proof. intros id a Ha. cbn in Ha. by rewrite lookup_empty in Ha. Qed.

Lemma index_capabilities_frame id caps st :
  let st' := fold_left
               (fun s c => set_capabilities_index (index_append c id) s)
               caps st in
  agents st' = agents st /\ agent_types st' = agent_types st.
Proof.
  revert st. induction caps as [|c caps IH]; intros st; [done|].
  cbn [fold_left].
  by destruct (IH (set_capabilities_index (index_append c id) st)) as (-> & ->).
Qed.

Lemma register_agent_types_listed E a st :
  types_listed st -> types_listed (register_agent E a st).
Proof.
  intros Hinv id b Hb. unfold register_agent, publish in *.
  cbn [snd agents agent_types set_published set_stats set_circuit_breakers]
    in *.
  set (st1 := set_agent_types (index_append (agent_type a) (agent_id a))
                (set_agents (insert (agent_id a) a) st)) in *.
  destruct (index_capabilities_frame (agent_id a) (capabilities a) st1)
    as (Hag & Hty).
  rewrite Hag in Hb. rewrite Hty. cbn in Hb |- *.
  unfold index_append, index_get.
  apply lookup_insert_Some in Hb as [[<- <-]|[Hne Hb]].
  - rewrite lookup_insert_eq. cbn. apply elem_of_app. right.
    by apply list_elem_of_singleton.
  - destruct (decide (agent_type a = agent_type b)) as [Heq|Hty'].
    + rewrite Heq, lookup_insert_eq. cbn. apply elem_of_app. left.
      by apply (Hinv id b).
    + rewrite lookup_insert_ne by done. by apply (Hinv id b).
Qed.

Lemma health_monitor_pass_types_listed now st :
  types_listed st -> types_listed (health_monitor_pass now st).
Proof.
  intros Hinv id b Hb. unfold health_monitor_pass in *. cbn in Hb |- *.
  rewrite lookup_fmap in Hb.
  destruct (agents st !! id) as [a|] eqn:Ha; [|done].
  cbn in Hb. injection Hb as <-.
  assert (agent_type (age_status now a) = agent_type a) as ->.
  { unfold age_status. destruct (last_heartbeat a); [|done].
    by repeat case_match. }
  by apply (Hinv id a).
Qed.

Lemma unregister_all_listed ids st :
  types_listed st ->
  exists st',
    for_each _unregister_agent ids st = (Ret tt, st') /\
    (forall k, agents st' !! k
               = if decide (k ∈ ids) then None else agents st !! k) /\
    types_listed st'.
Proof.
  revert st. induction ids as [|id ids IH]; intros st Hinv.
  - exists st. split; [done|]. split; [|done]. intros k.
    destruct (decide (k ∈ [])) as [Hk|]; [by apply elem_of_nil in Hk|done].
  - cbn [for_each]. unfold bind.
    destruct (agents st !! id) as [a|] eqn:Ha.
    + destruct (unregister_listed st id a Hinv Ha) as (st1 & -> & Hag & Hinv1).
      destruct (IH st1 Hinv1) as (st' & -> & Hlook & Hinv').
      exists st'. split; [done|]. split; [|done]. intros k. rewrite Hlook, Hag.
      destruct (decide (k ∈ ids)) as [Hk|Hk].
      * rewrite decide_True; [done|]. apply elem_of_cons. by right.
      * destruct (decide (k = id)) as [->|Hne].
        -- rewrite decide_True by (apply elem_of_cons; by left).
           apply lookup_delete_eq.
        -- rewrite decide_False.
           ++ by apply lookup_delete_ne.
           ++ intros [?|?]%elem_of_cons; done.
    + assert (_unregister_agent id st = (Ret tt, st)) as ->.
      { unfold _unregister_agent. by rewrite Ha. }
      destruct (IH st Hinv) as (st' & -> & Hlook & Hinv').
      exists st'. split; [done|]. split; [|done]. intros k. rewrite Hlook.
      destruct (decide (k ∈ ids)) as [Hk|Hk].
      * rewrite decide_True; [done|]. apply elem_of_cons. by right.
      * destruct (decide (k = id)) as [->|Hne].
        -- rewrite decide_True by (apply elem_of_cons; by left). done.
        -- rewrite decide_False; [done|].
           intros [?|?]%elem_of_cons; done.
Qed.

Lemma elem_of_offline_agents now st id :
  id ∈ offline_agents now st <->
  exists a, agents st !! id = Some a /\ expired now a = true.
Proof.
  unfold offline_agents. rewrite list_elem_of_In, in_map_iff. split.
  - intros ([k a] & <- & Hin). apply filter_In in Hin as [Hin Hexp].
    apply list_elem_of_In, elem_of_map_to_list in Hin. by exists a.
  - intros (a & Ha & Hexp). exists (id, a). split; [done|].
    apply filter_In. split; [|done].
    by apply list_elem_of_In, elem_of_map_to_list.
Qed.

Lemma cleanup_pass_lookup now st id :
  types_listed st ->
  agents (cleanup_pass now st) !! id
  = match agents st !! id with
    | Some a => if expired now a then None else Some a
    | None => None
    end.
Proof.
  intros Hinv. unfold cleanup_pass.
  destruct (unregister_all_listed (offline_agents now st) st Hinv)
    as (st' & -> & Hlook & _).
  cbn [snd]. rewrite Hlook.
  destruct (decide (id ∈ offline_agents now st)) as [Hin|Hnin].
  - apply elem_of_offline_agents in Hin as (a & -> & ->). done.
  - destruct (agents st !! id) as [a|] eqn:Ha; [|done].
    destruct (expired now a) eqn:Hexp; [|done].
    exfalso. apply Hnin, elem_of_offline_agents. by exists a.
Qed.

Lemma age_status_cases now a hb :
  last_heartbeat a = Some hb ->
  age_status now a
  = if Z.ltb (Time.of_seconds 60) (Time.sub now hb) then set_status OFFLINE a
    else if Z.ltb (Time.of_seconds 30) (Time.sub now hb)
    then set_status DEGRADED a else a.
Proof. intros Hhb. unfold age_status. by rewrite Hhb. Qed.

End Eviction.

(** C9 as the claim states it fails on the eviction delay: an agent whose
    last heartbeat is at second 0 is marked offline by the health pass at
    second 61, and the cleanup pass at second 301 already unregisters it,
    after 240 seconds in the offline state and not after 5 additional
    minutes. *)
Lemma evicted_before_five_minutes_offline :
  let st0 := CentralRouter.register_agent CentralRouter.quiet_env
               (CentralRouter.fresh_agent "a" "analyst" ["charts"] 0)
               CentralRouter.init in
  let marked_offline := Time.of_seconds 61 in
  let st1 := CentralRouter.health_monitor_pass marked_offline st0 in
  let cleanup := Time.of_seconds 301 in
  let st2 := CentralRouter.cleanup_pass cleanup st1 in
  CentralRouter.status <$> CentralRouter.agents st0 !! "a"
    = Some CentralRouter.HEALTHY /\
  CentralRouter.status <$> CentralRouter.agents st1 !! "a"
    = Some CentralRouter.OFFLINE /\
  Time.sub cleanup marked_offline < Time.of_minutes 5 /\
  CentralRouter.agents st2 !! "a" = None.
Proof. vm_compute. repeat split; reflexivity. Qed.

(** C9 (amended).  For a registered agent with a last heartbeat, a pass of
    the health task leaves the profile unchanged while at most 30 seconds
    have elapsed since the heartbeat, sets the status to degraded when more
    than 30 and at most 60 seconds have elapsed, and sets it to offline
    when more than 60 seconds have elapsed.  A pass of the cleanup task
    unregisters the agent exactly when its status is offline and more than
    5 minutes have elapsed since its last heartbeat (not since it went
    offline); otherwise the profile stays as it is.  The router is assumed
    to list every registered agent under its type. *)
Theorem health_aging_and_eviction :
  forall (st : CentralRouter.router) (now : Time.datetime) (id : string)
         (a : CentralRouter.AgentInstance) (hb : Time.datetime),
    CentralRouter.types_listed st ->
    CentralRouter.agents st !! id = Some a ->
    CentralRouter.last_heartbeat a = Some hb ->
    let elapsed := Time.sub now hb in
    let aged := CentralRouter.agents (CentralRouter.health_monitor_pass now st) !! id in
    let kept := CentralRouter.agents (CentralRouter.cleanup_pass now st) !! id in
    (elapsed <= Time.of_seconds 30 -> aged = Some a) /\
    (Time.of_seconds 30 < elapsed <= Time.of_seconds 60 ->
     aged = Some (CentralRouter.set_status CentralRouter.DEGRADED a)) /\
    (Time.of_seconds 60 < elapsed ->
     aged = Some (CentralRouter.set_status CentralRouter.OFFLINE a)) /\
    (CentralRouter.status a = CentralRouter.OFFLINE ->
     Time.of_minutes 5 < elapsed -> kept = None) /\
    (CentralRouter.status a <> CentralRouter.OFFLINE \/
     elapsed <= Time.of_minutes 5 -> kept = Some a).
Proof.
  intros st now id a hb Hinv Ha Hhb elapsed aged kept.
  assert (aged = Some (CentralRouter.age_status now a)) as ->.
  { unfold aged, CentralRouter.health_monitor_pass.
    cbn [CentralRouter.agents CentralRouter.set_agents].
    by rewrite lookup_fmap, Ha. }
  rewrite (age_status_cases now a hb Hhb). fold elapsed.
  assert (kept = if CentralRouter.expired now a then None else Some a) as ->.
  { unfold kept. rewrite cleanup_pass_lookup by done. by rewrite Ha. }
  unfold CentralRouter.expired. rewrite Hhb. fold elapsed.
  unfold Time.of_minutes, Time.of_seconds, Time.usec_per_sec in *.
  repeat split.
  - intros H. do 2 (case_match; [lia|]). done.
  - intros H. case_match; [lia|]. case_match; [done|lia].
  - intros H. case_match; [done|lia].
  - intros Hoff H. rewrite bool_decide_eq_true_2 by done.
    cbn. case_match; [done|lia].
  - intros [Hst|H].
    + by rewrite bool_decide_eq_false_2.
    + destruct (bool_decide _); [|done]. cbn. case_match; [lia|done].
Qed.

Lemma health_aging_and_eviction_witness :
  let a := CentralRouter.set_status CentralRouter.OFFLINE
             (CentralRouter.fresh_agent "a" "analyst" ["charts"] 0) in
  let st := CentralRouter.register_agent CentralRouter.quiet_env a
              CentralRouter.init in
  CentralRouter.agents
    (CentralRouter.cleanup_pass (Time.of_seconds 301) st) !! "a" = None /\
  CentralRouter.agents
    (CentralRouter.cleanup_pass (Time.of_seconds 300) st) !! "a" = Some a.
Proof.
  intros a st.
  assert (CentralRouter.types_listed st) as Hinv
    by apply register_agent_types_listed, types_listed_init.
  split.
  - apply (health_aging_and_eviction st (Time.of_seconds 301) "a" a 0 Hinv);
      [reflexivity | reflexivity | reflexivity | vm_compute; reflexivity].
  - apply (health_aging_and_eviction st (Time.of_seconds 300) "a" a 0 Hinv);
      [reflexivity | reflexivity |].
    right. vm_compute. discriminate.
Defined.

(** ** Central router: routing, breaker bookkeeping and the retry *)

Section Routing.

Import CentralRouter.
Context (E : env).

Lemma healthy_filter_frame now ids : forall st healthy st1,
  healthy_filter now ids st = (Ret healthy, st1) ->
  same_world st st1 /\
  (forall k, is_Some (circuit_breakers st !! k) ->
             is_Some (circuit_breakers st1 !! k)) /\
  (forall id, id ∈ healthy ->
     id ∈ ids /\ is_Some (agents st !! id) /\
     is_Some (circuit_breakers st1 !! id)).
Proof.
  induction ids as [|id ids IH]; intros st healthy st1 Hrun.
  - cbn in Hrun. injection Hrun as <- <-.
    split; [done|]. split; [done|]. intros ? []%elem_of_nil.
  - cbn [healthy_filter] in Hrun. unfold bind at 1, subscript in Hrun.
    destruct (agents st !! id) as [a|] eqn:Ha; [|done].
    unfold bind at 1 in Hrun.
    destruct (decide (status a = HEALTHY)) as [Hst|Hst].
    + unfold bind at 1, subscript in Hrun.
      destruct (circuit_breakers st !! id) as [cb|] eqn:Hcb; [|done].
      destruct (CircuitBreaker.can_execute now cb) as [ok cb'] eqn:Hexec.
      unfold bind at 1, modify, ret in Hrun.
      set (st0 := set_circuit_breakers (insert id cb') st) in *.
      unfold bind at 1 in Hrun.
      destruct (healthy_filter now ids st0) as [[rest|e] st'] eqn:Hrest; [|done].
      injection Hrun as <- <-.
      destruct (IH st0 rest st' Hrest) as ((Hag & Hpub) & Hmono & Hin).
      assert (forall k, is_Some (circuit_breakers st !! k) ->
                        is_Some (circuit_breakers st' !! k)) as Hmono'.
      { intros k Hk. apply Hmono. unfold st0. cbn.
        destruct (decide (id = k)) as [->|Hne].
        - rewrite lookup_insert_eq. done.
        - by rewrite lookup_insert_ne. }
      split; [split; [by rewrite Hag|by rewrite Hpub]|]. split; [done|].
      intros k Hk. destruct ok.
      * apply elem_of_cons in Hk as [->|Hk].
        -- split; [apply elem_of_cons; by left|]. split; [by rewrite Ha|].
           apply Hmono'. by rewrite Hcb.
        -- destruct (Hin k Hk) as (? & ? & ?).
           split; [apply elem_of_cons; by right|done].
      * destruct (Hin k Hk) as (? & ? & ?).
        split; [apply elem_of_cons; by right|done].
    + unfold ret at 1 in Hrun. unfold bind at 1 in Hrun.
      destruct (healthy_filter now ids st) as [[rest|e] st'] eqn:Hrest; [|done].
      injection Hrun as <- <-.
      destruct (IH st rest st' Hrest) as (Hw & Hmono & Hin).
      split; [done|]. split; [done|].
      intros k Hk. destruct (Hin k Hk) as (? & ? & ?).
      split; [apply elem_of_cons; by right|done].
Qed.

Lemma load_keys_frame ids : forall st r st',
  load_keys ids st = (r, st') -> st' = st.
Proof.
  induction ids as [|id ids IH]; intros st r st' Hrun.
  - by injection Hrun as _ <-.
  - cbn [load_keys] in Hrun. unfold bind at 1, subscript in Hrun.
    destruct (agents st !! id); [|by injection Hrun as _ <-].
    unfold bind at 1 in Hrun.
    destruct (load_keys ids st) as [[keys|e] st0] eqn:Hrest;
      apply IH in Hrest as ->; by injection Hrun as _ <-.
Qed.

Lemma load_keys_total ids st :
  (forall id, id ∈ ids -> is_Some (agents st !! id)) ->
  exists keys, load_keys ids st = (Ret keys, st) /\ map fst keys = ids.
Proof.
  induction ids as [|id ids IH]; intros Hreg.
  - by exists [].
  - destruct (Hreg id) as [a Ha]; [apply elem_of_cons; by left|].
    destruct IH as (keys & Hkeys & Hfst).
    { intros k Hk. apply Hreg, elem_of_cons. by right. }
    exists ((id, load_factor a) :: keys). split; [|by cbn; rewrite Hfst].
    cbn [load_keys]. unfold bind at 1, subscript. rewrite Ha.
    unfold bind at 1. by rewrite Hkeys.
Qed.

Lemma max_from_elem {A K} (lt : K -> K -> bool) (key : A -> K) l : forall best,
  Py.max_from lt key best l = best \/ Py.max_from lt key best l ∈ l.
Proof.
  induction l as [|x l IH]; intros best; [by left|].
  cbn. destruct (IH (if lt (key best) (key x) then x else best)) as [->|Hin].
  - destruct (lt (key best) (key x)); [right; apply elem_of_cons|]; by left.
  - right. apply elem_of_cons. by right.
Qed.

Lemma max_by_elem {A K} (lt : K -> K -> bool) (key : A -> K) l x :
  Py.max_by lt key l = Some x -> x ∈ l.
Proof.
  destruct l as [|y l]; [done|]. cbn. intros [= <-].
  destruct (max_from_elem lt key l y) as [->|Hin]; apply elem_of_cons; auto.
Qed.

Lemma load_keys_ids ids : forall st keys st',
  load_keys ids st = (Ret keys, st') -> map fst keys = ids.
Proof.
  induction ids as [|id ids IH]; intros st keys st' Hrun.
  - by injection Hrun as <- _.
  - cbn [load_keys] in Hrun. unfold bind at 1, subscript in Hrun.
    destruct (agents st !! id); [|done].
    unfold bind at 1 in Hrun.
    destruct (load_keys ids st) as [[rest|e] st0] eqn:Hrest; [|done].
    injection Hrun as <- _. cbn. f_equal. by eapply IH.
Qed.

Lemma select_round_robin_frame l st r st' :
  select_round_robin E l st = (r, st') ->
  same_world st st' /\ circuit_breakers st' = circuit_breakers st /\
  (forall x, r = Ret x -> x ∈ l).
Proof.
  unfold select_round_robin. destruct l as [|y l].
  - intros [= <- <-]. by repeat split.
  - destruct (_ !! _) as [x|] eqn:Hx; intros [= <- <-].
    + repeat split. intros ? [= <-]. by eapply list_elem_of_lookup_2.
    + by repeat split.
Qed.

Lemma select_frame l strategy st r st' :
  _select_agent E l strategy st = (r, st') ->
  same_world st st' /\ circuit_breakers st' = circuit_breakers st /\
  (forall x, r = Ret x -> x ∈ l).
Proof.
  destruct strategy; cbn [_select_agent];
    try apply select_round_robin_frame.
  - destruct l as [|y l]; [intros [= <- <-]; by repeat split|].
    unfold bind at 1.
    destruct (load_keys (y :: l) st) as [[keys|e] st0] eqn:Hkeys;
      pose proof (load_keys_frame _ _ _ _ Hkeys) as ->.
    + destruct (Py.min_by Py.Qltb snd keys) as [item|] eqn:Hmin;
        intros [= <- <-]; [|by repeat split].
      repeat split. intros ? [= <-].
      apply max_by_elem in Hmin.
      rewrite <- (load_keys_ids _ _ _ _ Hkeys).
      apply list_elem_of_fmap. by exists item.
    + intros [= <- <-]. by repeat split.
  - destruct l as [|y l]; [intros [= <- <-]; by repeat split|].
    destruct (_ !! _) as [x|] eqn:Hx; intros [= <- <-].
    + repeat split. intros ? [= <-]. by eapply list_elem_of_lookup_2.
    + by repeat split.
Qed.

Lemma select_total l strategy st :
  l <> [] -> (forall x, x ∈ l -> is_Some (agents st !! x)) ->
  exists x st', _select_agent E l strategy st = (Ret x, st').
Proof.
  intros Hne Hreg.
  assert (exists x st', select_round_robin E l st = (Ret x, st')) as Hrr.
  { destruct (select_round_robin_step E l st Hne) as (x & _ & ->). eauto. }
  destruct strategy; cbn [_select_agent]; try exact Hrr.
  - destruct l as [|y l]; [done|].
    destruct (load_keys_total (y :: l) st Hreg) as (keys & Hkeys & Hfst).
    unfold bind at 1. rewrite Hkeys.
    destruct keys as [|item keys]; [done|]. cbn. eauto.
  - destruct l as [|y l]; [done|].
    destruct (lookup_lt_is_Some_2 (y :: l)
                (randbelow E (rand_calls st) (length (y :: l))
                   mod length (y :: l))%nat) as [x Hx].
    { apply Nat.mod_upper_bound. done. }
    rewrite Hx. eauto.
Qed.

Lemma select_nil strategy st :
  exists e st', _select_agent E [] strategy st = (Raise e, st') /\
                same_world st st' /\
                circuit_breakers st' = circuit_breakers st.
Proof.
  destruct strategy; cbn; unfold raise, same_world;
    eexists _, _; (split; [reflexivity|]); done.
Qed.

Lemma deliver_spec id st :
  is_Some (agents st !! id) ->
  let ok := publish_ok E (length (published st)) (AgentInbox id) in
  exists st',
    _deliver_message E id st = (ok, st') /\
    published st' = published st ++ [(AgentInbox id, ok)] /\
    circuit_breakers st' = circuit_breakers st /\
    (forall k, is_Some (agents st !! k) -> is_Some (agents st' !! k)).
Proof.
  intros [a Ha] ok. unfold _deliver_message. rewrite Ha.
  unfold publish. fold ok. destruct ok.
  - eexists. split; [done|]. repeat split. intros k Hk. cbn.
    by apply lookup_alter_is_Some.
  - eexists. split; [done|]. by repeat split.
Qed.

Lemma breaker_success_spec id cb st :
  circuit_breakers st !! id = Some cb ->
  breaker_success id st
  = (Ret tt, set_circuit_breakers
               (insert id (CircuitBreaker.record_success cb)) st).
Proof. intros H. unfold breaker_success, bind, subscript. by rewrite H. Qed.

Lemma breaker_failure_spec now id cb st :
  circuit_breakers st !! id = Some cb ->
  breaker_failure now id st
  = (Ret tt, set_circuit_breakers
               (insert id (CircuitBreaker.record_failure now cb)) st).
Proof. intros H. unfold breaker_failure, bind, subscript. by rewrite H. Qed.

Lemma match_nonempty {A B} (l : list A) (a b : B) :
  l <> [] -> match l with [] => a | _ :: _ => b end = b.
Proof. by destruct l. Qed.

Lemma healthy_filter_nil now st : healthy_filter now [] st = (Ret [], st).
Proof. reflexivity. Qed.

End Routing.

(** C10.  Take a [route_message] call whose candidates pass the health
    filter with a non-empty result [healthy] and whose strategy selects
    [sel] among them; [first_ok] is the outcome of the first delivery.
    - If the first delivery succeeds, the call returns true, the breaker of
      [sel] has had [record_success] applied, and exactly one delivery was
      attempted.
    - If it fails, the breaker of [sel] has had [record_failure] applied.
      When [healthy] holds some other id, exactly one more delivery is
      attempted, to an id [alt] different from [sel] that the same strategy
      selects among the others, and the call returns the outcome of that
      retry.  When it holds no other id, no retry is made and the call
      returns false. *)
Theorem route_records_outcome_and_retries_once :
  forall (E : CentralRouter.env) (now : Time.datetime)
         (msg : CentralRouter.message)
         (destination_type destination_id : option string)
         (strategy : CentralRouter.RoutingStrategy)
         (st st1 st2 : CentralRouter.router) (healthy : list string)
         (sel : string),
    CentralRouter.healthy_filter now
      (CentralRouter.destinations msg destination_type destination_id st) st
      = (CentralRouter.Ret healthy, st1) ->
    healthy <> [] ->
    CentralRouter._select_agent E healthy strategy st1
      = (CentralRouter.Ret sel, st2) ->
    let first_ok :=
      CentralRouter.publish_ok E (length (CentralRouter.published st))
        (CentralRouter.AgentInbox sel) in
    let others :=
      List.filter (fun a => negb (bool_decide (a = sel))) healthy in
    let res :=
      CentralRouter.route_message E now msg destination_type destination_id
        strategy st in
    exists cb,
      CentralRouter.circuit_breakers st2 !! sel = Some cb /\
      if first_ok then
        fst res = true /\
        CentralRouter.circuit_breakers (snd res) !! sel
          = Some (CircuitBreaker.record_success cb) /\
        CentralRouter.published (snd res)
          = CentralRouter.published st ++ [(CentralRouter.AgentInbox sel, true)]
      else
        CentralRouter.circuit_breakers (snd res) !! sel
          = Some (CircuitBreaker.record_failure now cb) /\
        match others with
        | [] =>
            fst res = false /\
            CentralRouter.published (snd res)
              = CentralRouter.published st
                  ++ [(CentralRouter.AgentInbox sel, false)]
        | _ :: _ =>
            exists alt,
              alt ∈ healthy /\ alt <> sel /\
              fst (CentralRouter._select_agent E others strategy
                     (CentralRouter.set_circuit_breakers
                        (insert sel (CircuitBreaker.record_failure now cb))
                        (CentralRouter.set_stats
                           CentralRouter.bump_routing_errors
                           (snd (CentralRouter._deliver_message E sel st2)))))
                = CentralRouter.Ret alt /\
              CentralRouter.published (snd res)
                = CentralRouter.published st
                    ++ [(CentralRouter.AgentInbox sel, false);
                        (CentralRouter.AgentInbox alt, fst res)]
        end.
Proof.
  intros E now msg dt di strategy st st1 st2 healthy sel Hfilter Hne Hsel
    first_ok others res.
  destruct (healthy_filter_frame now _ _ _ _ Hfilter)
    as ((Hag1 & Hpub1) & _ & Hin).
  destruct (select_frame E _ _ _ _ _ Hsel) as ((Hag2 & Hpub2) & Hcb2 & Hsel_in).
  specialize (Hsel_in sel eq_refl).
  destruct (Hin sel Hsel_in) as (_ & Hreg & [cb Hcb]).
  exists cb. rewrite Hcb2. split; [exact Hcb|].
  assert (is_Some (CentralRouter.agents st2 !! sel)) as Hreg2
    by (by rewrite Hag2, Hag1).
  destruct (deliver_spec E sel st2 Hreg2) as (st3 & Hdel & Hpub3 & Hcb3 & Hag3).
  rewrite Hpub2, Hpub1 in Hdel, Hpub3. fold first_ok in Hdel, Hpub3.
  (* run the body up to the first delivery *)
  assert (CentralRouter.destinations msg dt di st <> []) as Hdest.
  { intros Hd. rewrite Hd, healthy_filter_nil in Hfilter.
    injection Hfilter as <- _. done. }
  subst res.
  destruct (CentralRouter.route_message E now msg dt di strategy st)
    as [b st'] eqn:Hres.
  cbn [fst snd].
  unfold CentralRouter.route_message, CentralRouter.try_except,
    CentralRouter.route_body in Hres.
  unfold CentralRouter.bind at 1, CentralRouter.get in Hres.
  rewrite (match_nonempty _ _ _ Hdest) in Hres.
  unfold CentralRouter.bind at 1 in Hres. rewrite Hfilter in Hres.
  rewrite (match_nonempty _ _ _ Hne) in Hres.
  unfold CentralRouter.bind at 1 in Hres. rewrite Hsel in Hres.
  unfold CentralRouter.bind at 1, CentralRouter.total at 1 in Hres.
  rewrite Hdel in Hres.
  destruct first_ok eqn:Hok.
  - (* success *)
    unfold CentralRouter.bind at 1, CentralRouter.modify at 1 in Hres.
    unfold CentralRouter.bind at 1 in Hres.
    rewrite (breaker_success_spec sel cb) in Hres
      by (by cbn; rewrite Hcb3, Hcb2).
    unfold CentralRouter.ret in Hres. injection Hres as <- <-.
    cbn. rewrite lookup_insert_eq. by rewrite Hpub3.
  - (* failure *)
    unfold CentralRouter.bind at 1, CentralRouter.modify at 1 in Hres.
    unfold CentralRouter.bind at 1 in Hres.
    rewrite (breaker_failure_spec now sel cb) in Hres
      by (by cbn; rewrite Hcb3, Hcb2).
    assert (st3 = snd (CentralRouter._deliver_message E sel st2)) as Hst3
      by (by rewrite Hdel).
    rewrite <- Hst3.
    set (st4 := CentralRouter.set_circuit_breakers _ _) in *.
    fold others in Hres.
    assert (CentralRouter.published st4
            = CentralRouter.published st
                ++ [(CentralRouter.AgentInbox sel, false)]) as Hpub4
      by (by unfold st4; cbn; rewrite Hpub3).
    assert (CentralRouter.circuit_breakers st4 !! sel
            = Some (CircuitBreaker.record_failure now cb)) as Hcb4
      by (unfold st4; cbn; apply lookup_insert_eq).
    destruct others as [|o os] eqn:Hothers.
    + (* no other candidate: no retry, whatever the length test says *)
      destruct (1 <? length healthy)%nat.
      * destruct (select_nil E strategy st4)
          as (e & st5 & Hnil & (_ & Hpub5) & Hcb5).
        unfold CentralRouter.bind at 1 in Hres. rewrite Hnil in Hres.
        injection Hres as <- <-.
        cbn. rewrite Hcb5, Hpub5, Hcb4, Hpub4. done.
      * injection Hres as <- <-. rewrite Hcb4, Hpub4. done.
    + (* some other candidate: exactly one retry *)
      assert (2 <= length healthy)%nat as Hlen.
      { assert (o ∈ others) as Ho
          by (rewrite Hothers; apply elem_of_cons; by left).
        apply list_elem_of_In, filter_In in Ho as [Ho Hneq].
        apply negb_true_iff, bool_decide_eq_false in Hneq.
        apply list_elem_of_In in Ho.
        destruct healthy as [|x [|y l]]; [done| |cbn; lia].
        apply list_elem_of_singleton in Ho, Hsel_in. congruence. }
      destruct (Nat.ltb_spec 1 (length healthy)); [|lia].
      rewrite <- Hothers in *.
      assert (forall x, x ∈ others ->
                x ∈ healthy /\ x <> sel /\
                is_Some (CentralRouter.agents st4 !! x)) as Hoth.
      { intros x Hx. apply list_elem_of_In, filter_In in Hx as [Hx Hneq].
        apply negb_true_iff, bool_decide_eq_false in Hneq.
        apply list_elem_of_In in Hx. split; [done|]. split; [done|].
        unfold st4. cbn. apply Hag3. rewrite Hag2, Hag1.
        by destruct (Hin x Hx) as (_ & ? & _). }
      destruct (select_total E others strategy st4) as (alt & st5 & Halt).
      { by rewrite Hothers. }
      { intros x Hx. by apply Hoth. }
      destruct (select_frame E _ _ _ _ _ Halt)
        as ((Hag5 & Hpub5) & Hcb5 & Halt_in).
      specialize (Halt_in alt eq_refl).
      destruct (Hoth alt Halt_in) as (Hah & Hasel & Hareg).
      destruct (deliver_spec E alt st5) as (st6 & Hdel6 & Hpub6 & Hcb6 & _).
      { by rewrite Hag5. }
      unfold CentralRouter.bind at 1 in Hres. rewrite Halt in Hres.
      unfold CentralRouter.total in Hres. rewrite Hdel6 in Hres.
      injection Hres as <- <-.
      rewrite Hcb6, Hcb5, Hcb4. split; [done|].
      exists alt. split; [done|]. split; [done|]. split; [by rewrite Halt|].
      rewrite Hpub6, Hpub5, Hpub4, <- app_assoc. done.
Qed.

Lemma route_records_outcome_and_retries_once_witness :
  let E := CentralRouter.unreachable "b" in
  let st := CentralRouter.register_agent E
              (CentralRouter.fresh_agent "b" "analyst" ["charts"] 0)
              (CentralRouter.register_agent E
                 (CentralRouter.fresh_agent "a" "analyst" ["charts"] 0)
                 CentralRouter.init) in
  let res := CentralRouter.route_message E 0
               (CentralRouter.mkMessage (Some "m1") None)
               (Some "analyst") None CentralRouter.ROUND_ROBIN st in
  exists alt,
    alt <> "b" /\
    CentralRouter.published (snd res)
    = CentralRouter.published st
        ++ [(CentralRouter.AgentInbox "b", false);
            (CentralRouter.AgentInbox alt, fst res)].
Proof.
  intros E st res.
  pose proof (route_records_outcome_and_retries_once E 0
                (CentralRouter.mkMessage (Some "m1") None)
                (Some "analyst") None CentralRouter.ROUND_ROBIN st
                (snd (CentralRouter.healthy_filter 0 ["a"; "b"] st))
                (snd (CentralRouter._select_agent E ["a"; "b"]
                        CentralRouter.ROUND_ROBIN
                        (snd (CentralRouter.healthy_filter 0 ["a"; "b"] st))))
                ["a"; "b"] "b") as H.
  cbv zeta in H.
  destruct H as (cb & _ & H);
    [vm_compute; reflexivity | discriminate | vm_compute; reflexivity |].
  change (CentralRouter.publish_ok E (length (CentralRouter.published st))
            (CentralRouter.AgentInbox "b")) with false in H.
  destruct H as (_ & H).
  change (List.filter (fun a : string => negb (bool_decide (a = "b")))
            ["a"; "b"]) with ["a"] in H.
  destruct H as (alt & _ & Hne & _ & Hpub).
  exists alt. split; [exact Hne | exact Hpub].
Defined.

(** Running the retry scenario: the inbox of ["b"] is down, round robin
    picks ["b"] first, the retry goes to ["a"] and succeeds. *)
Example route_retry_run :
  let E := CentralRouter.unreachable "b" in
  let st := CentralRouter.register_agent E
              (CentralRouter.fresh_agent "b" "analyst" ["charts"] 0)
              (CentralRouter.register_agent E
                 (CentralRouter.fresh_agent "a" "analyst" ["charts"] 0)
                 CentralRouter.init) in
  let res := CentralRouter.route_message E 0
               (CentralRouter.mkMessage (Some "m1") None)
               (Some "analyst") None CentralRouter.ROUND_ROBIN st in
  fst res = true /\
  CentralRouter.published (snd res)
  = [(CentralRouter.AgentUpdates, true); (CentralRouter.AgentUpdates, true);
     (CentralRouter.AgentInbox "b", false);
     (CentralRouter.AgentInbox "a", true)] /\
  CircuitBreaker.failure_count
    <$> CentralRouter.circuit_breakers (snd res) !! "b" = Some 1 /\
  CircuitBreaker.failure_count
    <$> CentralRouter.circuit_breakers (snd res) !! "a" = Some 0.
Proof. vm_compute. repeat split; reflexivity. Qed.

(** ** Insertion-ordered dicts and [max] *)

Section DictFacts.

Context {K : Type} `{EqDecision K} {V : Type}.

Lemma dict_get_set (k k' : K) (v : V) (d : list (K * V)) :
  Py.dict_get k (Py.dict_set k' v d)
  = if decide (k' = k) then Some v else Py.dict_get k d.
Proof.
  induction d as [|[k0 v0] d IH]; cbn.
  - by destruct (decide (k' = k)).
  - destruct (decide (k0 = k')) as [->|Hne]; cbn.
    + by destruct (decide (k' = k)).
    + destruct (decide (k0 = k)) as [->|Hne'].
      * by rewrite decide_False.
      * exact IH.
Qed.

Lemma dict_get_Some_elem (k : K) (v : V) (d : list (K * V)) :
  Py.dict_get k d = Some v -> (k, v) ∈ d.
Proof.
  induction d as [|[k0 v0] d IH]; cbn; [done|].
  destruct (decide (k0 = k)) as [->|Hne].
  - intros [= ->]. apply elem_of_cons. by left.
  - intros H. apply elem_of_cons. right. by apply IH.
Qed.

Lemma dict_get_is_Some_elem (k : K) (v : V) (d : list (K * V)) :
  (k, v) ∈ d -> is_Some (Py.dict_get k d).
Proof.
  induction d as [|[k0 v0] d IH]; [by intros ?%elem_of_nil|].
  intros [Heq|Hin]%elem_of_cons; cbn.
  - injection Heq as -> ->. by rewrite decide_True.
  - destruct (decide (k0 = k)); [done|]. by apply IH.
Qed.

Lemma dict_get_NoDup_elem (k : K) (v : V) (d : list (K * V)) :
  NoDup (map fst d) -> (k, v) ∈ d -> Py.dict_get k d = Some v.
Proof.
  induction d as [|[k0 v0] d IH]; [by intros _ ?%elem_of_nil|].
  cbn. intros [Hnotin Hnd]%NoDup_cons [Heq|Hin]%elem_of_cons.
  - injection Heq as -> ->. by rewrite decide_True.
  - destruct (decide (k0 = k)) as [->|Hne]; [|by apply IH].
    exfalso. apply Hnotin. apply list_elem_of_fmap. by exists (k, v).
Qed.

Lemma dict_set_keys (k : K) (v : V) (d : list (K * V)) :
  map fst (Py.dict_set k v d)
  = if decide (k ∈ map fst d) then map fst d else map fst d ++ [k].
Proof.
  induction d as [|[k0 v0] d IH]; cbn.
  - rewrite decide_False; [done|]. by intros ?%elem_of_nil.
  - destruct (decide (k0 = k)) as [->|Hne]; cbn.
    + rewrite decide_True; [done|]. apply elem_of_cons. by left.
    + rewrite IH. destruct (decide (k ∈ map fst d)) as [Hin|Hnin].
      * rewrite decide_True; [done|]. apply elem_of_cons. by right.
      * rewrite decide_False; [done|].
        intros [?|?]%elem_of_cons; congruence.
Qed.

Lemma dict_set_NoDup (k : K) (v : V) (d : list (K * V)) :
  NoDup (map fst d) -> NoDup (map fst (Py.dict_set k v d)).
Proof.
  intros Hnd. rewrite dict_set_keys. case_decide; [done|].
  apply NoDup_app. split; [done|]. split.
  - intros x Hx ->%list_elem_of_singleton. done.
  - apply NoDup_singleton.
Qed.

End DictFacts.

Section MaxFacts.

Context {A K : Type} (lt : K -> K -> bool) (le : K -> K -> Prop)
  (key : A -> K).
Context (le_refl : forall a, le a a)
  (le_trans : forall a b c, le a b -> le b c -> le a c)
  (lt_le : forall a b, lt a b = true -> le a b)
  (nlt_le : forall a b, lt a b = false -> le b a).

Lemma max_from_upper l : forall best,
  le (key best) (key (Py.max_from lt key best l)) /\
  forall y, y ∈ l -> le (key y) (key (Py.max_from lt key best l)).
Proof.
  induction l as [|x l IH]; intros best; cbn.
  - split; [done|]. by intros ? ?%elem_of_nil.
  - destruct (IH (if lt (key best) (key x) then x else best)) as [Hb Hl].
    destruct (lt (key best) (key x)) eqn:Hlt.
    + split; [eauto|]. intros y [->|Hy]%elem_of_cons; eauto.
    + split; [done|]. intros y [->|Hy]%elem_of_cons; eauto.
Qed.

Lemma max_by_upper l x :
  Py.max_by lt key l = Some x -> forall y, y ∈ l -> le (key y) (key x).
Proof.
  destruct l as [|z l]; [done|]. cbn. intros [= <-] y.
  destruct (max_from_upper l z) as [Hz Hl].
  intros [->|Hy]%elem_of_cons; auto.
Qed.

End MaxFacts.

(** ** Orchestrator: consensus *)

Section Consensus.

Import A2A.

Lemma count_vote_get vc d d' :
  Py.dict_get d (count_vote vc d')
  = if decide (d' = d) then Some (default 0 (Py.dict_get d vc) + 1)
    else Py.dict_get d vc.
Proof.
  unfold count_vote. rewrite dict_get_set. by destruct (decide (d' = d)) as [->|].
Qed.

Lemma vote_counts_get decisions : forall vc d,
  NoDup (map fst vc) ->
  NoDup (map fst (fold_left count_vote decisions vc)) /\
  Py.dict_get d (fold_left count_vote decisions vc)
  = if decide (d ∈ decisions)
    then Some (default 0 (Py.dict_get d vc) + votes decisions d)
    else Py.dict_get d vc.
Proof.
  unfold votes.
  induction decisions as [|d' ds IH]; intros vc d Hnd; cbn [fold_left].
  - split; [done|]. rewrite decide_False; [done|]. by intros ?%elem_of_nil.
  - destruct (IH (count_vote vc d') d) as [Hnd' ->];
      [by apply dict_set_NoDup|].
    split; [done|]. rewrite count_vote_get. cbn [count_occ].
    destruct (pyval_eq_dec d' d) as [Heq|Hne], (decide (d' = d)) as [Heq'|Hne'];
      try done.
    + subst d'.
      destruct (decide (d ∈ d :: ds)) as [_|Hn];
        [|exfalso; apply Hn, elem_of_cons; by left].
      destruct (decide (d ∈ ds)) as [Hin|Hnin]; simpl default; f_equal; [lia|].
      assert (count_occ pyval_eq_dec ds d = 0%nat) as ->.
      { apply count_occ_not_In. by rewrite <- list_elem_of_In. }
      lia.
    + destruct (decide (d ∈ ds)) as [Hin|Hnin],
        (decide (d ∈ d' :: ds)) as [Hin'|Hnin']; try done.
      all: try (exfalso; apply Hnin', elem_of_cons; by right).
      all: apply elem_of_cons in Hin' as [?|?]; congruence.
Qed.

Lemma vote_counts_items decisions k n :
  (k, n) ∈ fold_left count_vote decisions [] <->
  k ∈ decisions /\ n = votes decisions k.
Proof.
  destruct (vote_counts_get decisions [] k) as [Hnd Hget]; [constructor|].
  split.
  - intros Hin. apply dict_get_NoDup_elem in Hin; [|done].
    rewrite Hget in Hin. destruct (decide (k ∈ decisions)); [|done].
    cbn in Hin. injection Hin as <-. split; [done|lia].
  - intros [Hin ->]. apply dict_get_Some_elem. rewrite Hget.
    rewrite decide_True by done. cbn. f_equal; lia.
Qed.

Lemma decisions_all_present (responses : list (string * response)) :
  Forall (fun item => is_Some (decision (snd item))) responses ->
  omap (fun item => decision (snd item)) responses
  = map (fun item => get_decision (snd item)) responses.
Proof.
  induction 1 as [|[id r] l [d Hd] _ IH]; [done|].
  cbn in *. unfold get_decision. rewrite Hd. cbn.
  change (list_omap _ _ ?f l) with (omap f l). by rewrite IH.
Qed.

Lemma elem_of_dissenting (responses : list (string * response)) final id :
  id ∈ map fst
         (List.filter
            (fun item => negb (bool_decide (get_decision (snd item) = final)))
            responses)
  <-> exists r, (id, r) ∈ responses /\ get_decision r <> final.
Proof.
  rewrite list_elem_of_In, in_map_iff. split.
  - intros ([id' r] & <- & Hin). apply filter_In in Hin as [Hin Hne].
    apply negb_true_iff, bool_decide_eq_false in Hne.
    exists r. split; [by apply list_elem_of_In|done].
  - intros (r & Hin & Hne). exists (id, r). split; [done|].
    apply filter_In. split; [by apply list_elem_of_In|].
    by apply negb_true_iff, bool_decide_eq_false.
Qed.

End Consensus.

(** C1.  When the responses are not empty and each of them carries a
    ["decision"], the result of [_analyze_consensus] has as
    [final_decision] one of the received decisions, with a vote count that
    no decision exceeds; [agreement_score] is that count divided by the
    number of responses received; [consensus_achieved] holds exactly when
    [agreement_score >= 0.6]; and [dissenting_agents] holds exactly the ids
    of the responders whose decision differs from [final_decision].  In
    particular the responses buy, buy, sell of three participants give
    [final_decision = "buy"], [agreement_score = 2/3],
    [consensus_achieved = true] and the "sell" responder as only
    dissenter. *)
Theorem consensus_majority :
  (forall responses : list (string * A2A.response),
      responses <> [] ->
      Forall (fun item => is_Some (A2A.decision (snd item))) responses ->
      let r := A2A._analyze_consensus responses in
      let decisions := A2A.decisions_of responses in
      A2A.final_decision r ∈ decisions /\
      (forall d, A2A.votes decisions d
                 <= A2A.votes decisions (A2A.final_decision r)) /\
      A2A.agreement_score r
        = (inject_Z (A2A.votes decisions (A2A.final_decision r))
           / inject_Z (Z.of_nat (length responses)))%Q /\
      (A2A.consensus_achieved r = true
       <-> (6 # 10 <= A2A.agreement_score r)%Q) /\
      (forall id,
          id ∈ A2A.dissenting_agents r
          <-> exists resp, (id, resp) ∈ responses /\
                           A2A.get_decision resp <> A2A.final_decision r))
  /\
  A2A._analyze_consensus
    [("agent_1", A2A.mkResponse (Some (A2A.PyStr "buy")));
     ("agent_2", A2A.mkResponse (Some (A2A.PyStr "buy")));
     ("agent_3", A2A.mkResponse (Some (A2A.PyStr "sell")))]
  = A2A.mkConsensus true (2 # 3) (A2A.PyStr "buy") ["agent_3"].
Proof.
  split; [|reflexivity].
  intros responses Hne Hall r decisions.
  unfold r, A2A._analyze_consensus.
  rewrite (match_nonempty _ _ _ Hne).
  rewrite (decisions_all_present responses Hall). fold (A2A.decisions_of responses).
  fold decisions.
  assert (exists d0, d0 ∈ decisions) as [d0 Hd0].
  { unfold decisions, A2A.decisions_of. destruct responses as [|x l]; [done|].
    eexists. apply elem_of_cons. by left. }
  destruct (Py.max_by Z.ltb snd (fold_left A2A.count_vote decisions []))
    as [[k n]|] eqn:Hmax.
  - pose proof (max_by_elem _ _ _ _ Hmax) as Hin.
    apply vote_counts_items in Hin as [Hk ->].
    assert (forall d, A2A.votes decisions d <= A2A.votes decisions k) as Hbound.
    { intros d. destruct (decide (d ∈ decisions)) as [Hd|Hd].
      - apply (max_by_upper Z.ltb Z.le snd Z.le_refl Z.le_trans) with
          (y := (d, A2A.votes decisions d)) in Hmax; [done| | |].
        + intros a b H. apply Z.ltb_lt in H. lia.
        + intros a b H. apply Z.ltb_ge in H. lia.
        + by apply vote_counts_items.
      - unfold A2A.votes at 1.
        rewrite (proj1 (count_occ_not_In _ _ _)); [unfold A2A.votes; lia|].
        by rewrite <- list_elem_of_In. }
    cbn [A2A.final_decision A2A.agreement_score A2A.consensus_achieved
           A2A.dissenting_agents fst snd].
    split; [done|]. split; [done|]. split.
    { unfold decisions, A2A.decisions_of. by rewrite length_map. }
    split; [apply Qle_bool_iff|]. apply elem_of_dissenting.
  - exfalso. destruct (fold_left A2A.count_vote decisions []) as [|x l] eqn:Hvc;
      [|done].
    assert ((d0, A2A.votes decisions d0) ∈ fold_left A2A.count_vote decisions [])
      as Hin by (by apply vote_counts_items).
    rewrite Hvc in Hin. by apply elem_of_nil in Hin.
Qed.

Lemma consensus_majority_witness :
  let responses :=
    [("agent_1", A2A.mkResponse (Some (A2A.PyStr "buy")));
     ("agent_2", A2A.mkResponse (Some (A2A.PyStr "buy")));
     ("agent_3", A2A.mkResponse (Some (A2A.PyStr "sell")))] in
  let r := A2A._analyze_consensus responses in
  A2A.final_decision r ∈ A2A.decisions_of responses /\
  (A2A.consensus_achieved r = true <-> (6 # 10 <= A2A.agreement_score r)%Q).
Proof.
  intros responses r.
  destruct (proj1 consensus_majority responses) as (H1 & _ & _ & H4 & _).
  - discriminate.
  - repeat constructor; eexists; reflexivity.
  - split; [exact H1 | exact H4].
Defined.

(** C4 as the claim states it fails on the dissenters: with two
    participants and no response at the deadline, the report lists no
    dissenting agent, where the claim lists both participants. *)
Lemma no_response_reports_no_dissenter :
  let c := A2A.mkCollab "rebalance" ["agent_1"; "agent_2"] [] 60 in
  let o : A2A.orchestrator := {[ "c1" := c ]} in
  A2A.polling_over 0 (Time.of_seconds 60) c = true /\
  exists report o',
    A2A._collect_consensus_responses "c1" o = Some (report, o') /\
    A2A.dissenting_agents (A2A.report_result report) = [] /\
    A2A.dissenting_agents (A2A.report_result report) <> A2A.participants c.
Proof.
  split; [reflexivity|]. eexists _, _. split; [reflexivity|].
  split; [reflexivity|discriminate].
Qed.

(** C4 (amended).  A consensus run that has received no response leaves
    its polling loop once the deadline is reached, and the result it
    returns has [consensus_achieved = false], [agreement_score = 0.0],
    [final_decision = None], no responses and an empty [dissenting_agents]
    list; the collaboration record is discarded. *)
Theorem consensus_without_responses :
  forall (o : A2A.orchestrator) (id : string) (c : A2A.collaboration),
    o !! id = Some c ->
    A2A.responses c = [] ->
    (forall start now,
        Time.of_seconds (A2A.timeout c) <= Time.sub now start ->
        A2A.polling_over start now c = true) /\
    A2A._collect_consensus_responses id o
    = Some (A2A.mkReport id (A2A.mkConsensus false 0 A2A.PyNone []) [],
            delete id o).
Proof.
  intros o id c Hc Hresp. split.
  - intros start now Hdeadline. unfold A2A.polling_over.
    destruct (Z.ltb_spec (Time.sub now start) (Time.of_seconds (A2A.timeout c)));
      [lia|done].
  - unfold A2A._collect_consensus_responses. by rewrite Hc, Hresp.
Qed.

Lemma consensus_without_responses_witness :
  let c := A2A.mkCollab "rebalance" ["agent_1"; "agent_2"] [] 60 in
  A2A._collect_consensus_responses "c1" {[ "c1" := c ]}
  = Some (A2A.mkReport "c1" (A2A.mkConsensus false 0 A2A.PyNone []) [],
          delete "c1" {[ "c1" := c ]}).
Proof.
  intros c.
  apply (consensus_without_responses {[ "c1" := c ]} "c1" c);
    reflexivity.
Defined.

(** ** Orchestrator: peer review *)

Section PeerReview.

Import A2A.

Lemma aggregate_get (f : string -> Q) criteria : forall acc c,
  Py.dict_get c
    (fold_left (fun acc criterion => Py.dict_set criterion (f criterion) acc)
       criteria acc)
  = if decide (c ∈ criteria) then Some (f c) else Py.dict_get c acc.
Proof.
  induction criteria as [|c' cs IH]; intros acc c; cbn [fold_left].
  - rewrite decide_False; [done|]. by intros ?%elem_of_nil.
  - rewrite IH, dict_get_set.
    destruct (decide (c ∈ cs)) as [Hin|Hnin],
      (decide (c ∈ c' :: cs)) as [Hin'|Hnin'],
      (decide (c' = c)) as [Heq|Hne]; try done.
    all: try (exfalso; apply Hnin', elem_of_cons; auto; fail).
    + by subst.
    + apply elem_of_cons in Hin' as [?|?]; congruence.
Qed.

Lemma mean_nonempty (l : list Q) :
  l <> [] -> mean l = (Py.Qsum l / inject_Z (Z.of_nat (length l)))%Q.
Proof. by destruct l. Qed.

End PeerReview.




(** ** Capability registry: the best agent *)

(** What [get_best_agent_for_capability] does in general: it returns
    nothing exactly when no registered agent holds the capability, and
    otherwise one of the candidates with the highest [score_agent], a
    score that is 0.0 for every candidate that is not active. *)
Lemma best_agent_maximises_score (c : A2A.AgentCapability)
    (r : A2A.AgentRegistry) :
  (A2A.get_best_agent_for_capability c r = None
   <-> A2A.find_agents_by_capability c r = []) /\
  (forall p, A2A.get_best_agent_for_capability c r = Some p ->
     p ∈ A2A.find_agents_by_capability c r /\
     forall q, q ∈ A2A.find_agents_by_capability c r ->
               (A2A.score_agent q <= A2A.score_agent p)%Q).
Proof.
  unfold A2A.get_best_agent_for_capability. split.
  - by destruct (A2A.find_agents_by_capability c r).
  - intros p Hp. split; [by eapply max_by_elem|].
    apply (max_by_upper Py.Qltb Qle A2A.score_agent Qle_refl Qle_trans)
      with (l := A2A.find_agents_by_capability c r); [| |done].
    + intros a b H. unfold Py.Qltb in H. apply negb_true_iff in H.
      apply Qlt_le_weak, Qnot_le_lt. intros Hle.
      apply Qle_bool_iff in Hle. congruence.
    + intros a b H. unfold Py.Qltb in H. apply negb_false_iff in H.
      by apply Qle_bool_iff.
Qed.

(** C7 (the code departs from the claim).  In a registry whose only
    holder of a capability is offline, no candidate is active and
    [get_best_agent_for_capability] still returns that offline agent
    instead of nothing. *)
Theorem best_agent_may_be_inactive :
  let p := A2A.mkProfile "agent_1" "technical" [A2A.TECHNICAL_ANALYSIS]
             (9 # 10) (9 # 10) (1 # 10) 10 None "offline" in
  let r := A2A.register_agent p A2A.empty_registry in
  A2A.find_agents_by_capability A2A.TECHNICAL_ANALYSIS r = [p] /\
  A2A.status p <> "active" /\
  A2A.get_best_agent_for_capability A2A.TECHNICAL_ANALYSIS r = Some p.
Proof. vm_compute. repeat split; [discriminate]. Qed.

(** ** Message router: pending responses *)

(** C8 as the claim states it fails for a message without a response
    timeout: the message is routed with [requires_response = true], and no
    pending-response slot is created for its id. *)
Lemma routed_without_slot :
  let p := A2A.mkProfile "agent_2" "news" [A2A.NEWS_ANALYSIS]
             (9 # 10) (9 # 10) (1 # 10) 10 None "active" in
  let mr := A2A.register_handler "agent_2"
              (A2A.new_router (A2A.register_agent p A2A.empty_registry)) in
  let m := A2A.mkMsg "m1" "agent_1" "agent_2" None true None in
  let res := A2A.route_message 0 m mr in
  fst res = true /\
  A2A.requires_response m = true /\
  A2A.pending_responses (snd res) !! "m1" = None.
Proof. vm_compute. repeat split; reflexivity. Qed.

Section PendingSlots.

Import A2A.

Lemma slots_allocated_new r : slots_allocated (new_router r).
Proof. intros id addr H. cbn in H. by rewrite lookup_empty in H. Qed.

Lemma slots_allocated_track m mr :
  slots_allocated mr -> slots_allocated (_track_pending_response m mr).
Proof.
  intros Hwf. unfold _track_pending_response.
  destruct (response_timeout m) as [n|]; [|done].
  destruct (decide (n = 0)); [done|].
  intros id addr. cbn. rewrite length_app. cbn.
  intros [[_ <-]|[_ H]]%lookup_insert_Some; [lia|].
  apply Hwf in H. lia.
Qed.

Lemma slots_allocated_step e mr :
  slots_allocated mr -> slots_allocated (apply_event mr e).
Proof.
  intros Hwf. destruct e as [now m|id|id|r]; cbn; [| |done|done].
  - unfold route_message.
    destruct (agents (registry mr) !! receiver_id m); [|done].
    destruct (match ttl m with Some t => t <? now | None => false end);
      [done|].
    destruct (decide (receiver_id m ∈ message_handlers mr)); [|done].
    cbn. destruct (requires_response m); [|done].
    by apply slots_allocated_track.
  - unfold _handle_response_timeout.
    destruct (pending_responses mr !! id) as [a|] eqn:Ha; [|done].
    intros id' addr. cbn. intros [_ H]%lookup_delete_Some. apply Hwf in H.
    destruct (futures mr !! a) as [f|]; [|done].
    destruct (done f); [done|]. by rewrite length_insert.
Qed.

Lemma slots_allocated_run events r :
  slots_allocated (run_events events (new_router r)).
Proof.
  unfold run_events. generalize (slots_allocated_new r).
  generalize (new_router r). induction events as [|e events IH]; [done|].
  intros mr Hwf. cbn. by apply IH, slots_allocated_step.
Qed.

(** A slot under [id] is only taken away by a watchdog of [id]. *)
Lemma slot_kept_step id e mr :
  fires id e = false ->
  is_Some (pending_responses mr !! id) ->
  is_Some (pending_responses (apply_event mr e) !! id).
Proof.
  intros Hother Hslot. destruct e as [now m|id'|id'|r]; cbn in *; try done.
  - unfold route_message.
    destruct (agents (registry mr) !! receiver_id m); [|done].
    destruct (match ttl m with Some t => t <? now | None => false end);
      [done|].
    destruct (decide (receiver_id m ∈ message_handlers mr)); [|done].
    cbn. destruct (requires_response m); [|done].
    unfold _track_pending_response.
    destruct (response_timeout m) as [n|]; [|done].
    destruct (decide (n = 0)); [done|]. cbn.
    apply lookup_insert_is_Some. destruct (decide (message_id m = id)); auto.
  - apply bool_decide_eq_false in Hother. unfold _handle_response_timeout.
    destruct (pending_responses mr !! id'); [|done].
    cbn. by rewrite lookup_delete_ne.
Qed.

Lemma slot_kept_run id events : forall mr,
  Forall (fun e => fires id e = false) events ->
  is_Some (pending_responses mr !! id) ->
  is_Some (pending_responses (run_events events mr) !! id).
Proof.
  induction events as [|e events IH]; intros mr Hall Hslot; [done|].
  apply Forall_cons in Hall as [He Hall]. cbn.
  apply IH; [done|]. by apply slot_kept_step.
Qed.

(** The slot of [id] and its future survive every event that does not
    carry [id]. *)
Lemma holds_slot_step id addr e mr :
  concerns id e = false ->
  holds_slot id addr mr -> holds_slot id addr (apply_event mr e).
Proof.
  intros Hother (Hslot & Hfut & Honly & Hwf).
  pose proof (slots_allocated_step e mr Hwf) as Hwf'.
  split; [|split; [|split; [|done]]]; clear Hwf';
    destruct e as [now m|id'|id'|r]; cbn in *; try done.
  - unfold route_message.
    destruct (agents (registry mr) !! receiver_id m); [|done].
    destruct (match ttl m with Some t => t <? now | None => false end);
      [done|].
    destruct (decide (receiver_id m ∈ message_handlers mr)); [|done].
    cbn. destruct (requires_response m); [|done].
    unfold _track_pending_response.
    destruct (response_timeout m) as [n|]; [|done].
    destruct (decide (n = 0)); [done|]. cbn.
    apply bool_decide_eq_false in Hother. by rewrite lookup_insert_ne.
  - apply bool_decide_eq_false in Hother. unfold _handle_response_timeout.
    destruct (pending_responses mr !! id'); [|done].
    cbn. by rewrite lookup_delete_ne.
  - unfold route_message.
    destruct (agents (registry mr) !! receiver_id m); [|done].
    destruct (match ttl m with Some t => t <? now | None => false end);
      [done|].
    destruct (decide (receiver_id m ∈ message_handlers mr)); [|done].
    cbn. destruct (requires_response m); [|done].
    unfold _track_pending_response.
    destruct (response_timeout m) as [n|]; [|done].
    destruct (decide (n = 0)); [done|]. cbn.
    rewrite lookup_app_l; [done|]. by eapply lookup_lt_Some.
  - apply bool_decide_eq_false in Hother. unfold _handle_response_timeout.
    destruct (pending_responses mr !! id') as [a|] eqn:Ha; [|done].
    cbn. destruct (futures mr !! a) as [f|]; [|done].
    destruct (done f); [done|].
    rewrite list_lookup_insert_ne; [done|].
    intros ->. by apply Honly in Ha.
  - unfold route_message.
    destruct (agents (registry mr) !! receiver_id m); [|done].
    destruct (match ttl m with Some t => t <? now | None => false end);
      [done|].
    destruct (decide (receiver_id m ∈ message_handlers mr)); [|done].
    cbn. destruct (requires_response m); [|done].
    unfold _track_pending_response.
    destruct (response_timeout m) as [n|]; [|done].
    destruct (decide (n = 0)); [done|]. cbn.
    intros k [[_ Heq]|[_ H]]%lookup_insert_Some; [|by apply Honly].
    apply lookup_lt_Some in Hfut. lia.
  - unfold _handle_response_timeout.
    destruct (pending_responses mr !! id'); [|done].
    cbn. intros k [_ H]%lookup_delete_Some. by apply Honly.
Qed.

Lemma holds_slot_run id addr events : forall mr,
  Forall (fun e => concerns id e = false) events ->
  holds_slot id addr mr -> holds_slot id addr (run_events events mr).
Proof.
  induction events as [|e events IH]; intros mr Hall Hinv; [done|].
  apply Forall_cons in Hall as [He Hall]. cbn.
  apply IH; [done|]. by apply holds_slot_step.
Qed.

(** The watchdog of [id] on a router that holds the slot. *)
Lemma holds_slot_timeout id addr mr :
  holds_slot id addr mr ->
  _handle_response_timeout id mr
  = mkMR (registry mr) (message_handlers mr)
      (delete id (pending_responses mr)) (<[addr := Failed]> (futures mr))
      (timers mr) (deliveries mr).
Proof.
  intros (Hslot & Hfut & _). unfold _handle_response_timeout.
  by rewrite Hslot, Hfut.
Qed.

End PendingSlots.

(** C8 (amended).  For a message routed with [requires_response = true]:
    when its [response_timeout] is set and not zero, routing creates one
    slot under its [message_id], holding a fresh pending future, together
    with one watchdog.  From then on a slot under that id exists whatever
    happens to the router - messages routed, watchdogs of other ids
    waking up, handlers registered, the registry changed - until a
    watchdog of that id fires.  As long as no other message with the same
    id is routed, the slot is the one created, it is the only slot that
    holds its future, and the future stays pending; the watchdog then
    removes the slot and fails the future with the timeout, leaving the
    other slots and futures alone, and a second firing for the same id
    finds no slot and changes nothing.  When [response_timeout] is absent
    or zero, no slot, future or watchdog is created. *)
Theorem pending_slot_lifecycle :
  forall (now : Time.datetime) (m : A2A.AgentMessage)
         (mr mr' : A2A.MessageRouter),
    A2A.route_message now m mr = (true, mr') ->
    A2A.requires_response m = true ->
    let id := A2A.message_id m in
    let addr := length (A2A.futures mr) in
    (forall n, A2A.response_timeout m = Some n -> n <> 0 ->
       A2A.pending_responses mr' !! id = Some addr /\
       A2A.futures mr' = A2A.futures mr ++ [A2A.Pending] /\
       A2A.timers mr' = A2A.timers mr ++ [(id, n)] /\
       (forall id', id' <> id ->
          A2A.pending_responses (A2A._handle_response_timeout id' mr') !! id
          = Some addr) /\
       (forall events,
          Forall (fun e => A2A.fires id e = false) events ->
          is_Some (A2A.pending_responses (A2A.run_events events mr') !! id)) /\
       (A2A.slots_allocated mr ->
        forall events,
          Forall (fun e => A2A.concerns id e = false) events ->
          let later := A2A.run_events events mr' in
          A2A.pending_responses later !! id = Some addr /\
          A2A.futures later !! addr = Some A2A.Pending /\
          (forall id', A2A.pending_responses later !! id' = Some addr ->
                       id' = id) /\
          let expired := A2A._handle_response_timeout id later in
          A2A.pending_responses expired !! id = None /\
          (forall id', id' <> id ->
             A2A.pending_responses expired !! id'
             = A2A.pending_responses later !! id') /\
          A2A.futures expired = <[addr := A2A.Failed]> (A2A.futures later) /\
          A2A.futures expired !! addr = Some A2A.Failed /\
          A2A._handle_response_timeout id expired = expired) /\
       let expired := A2A._handle_response_timeout id mr' in
       A2A.pending_responses expired !! id = None /\
       A2A.futures expired = A2A.futures mr ++ [A2A.Failed] /\
       A2A._handle_response_timeout id expired = expired) /\
    (A2A.response_timeout m = None \/ A2A.response_timeout m = Some 0 ->
     A2A.pending_responses mr' = A2A.pending_responses mr /\
     A2A.futures mr' = A2A.futures mr /\
     A2A.timers mr' = A2A.timers mr).
Proof.
  intros now m mr mr' Hroute Hreq id addr.
  unfold A2A.route_message in Hroute.
  destruct (A2A.agents (A2A.registry mr) !! A2A.receiver_id m); [|done].
  destruct (match A2A.ttl m with Some t => t <? now | None => false end);
    [done|].
  destruct (decide (A2A.receiver_id m ∈ A2A.message_handlers mr)); [|done].
  rewrite Hreq in Hroute. injection Hroute as <-.
  unfold A2A._track_pending_response. split.
  - intros n Hn Hn0. rewrite Hn. rewrite decide_False by done.
    cbn [A2A.pending_responses A2A.futures A2A.timers A2A.registry
           A2A.message_handlers A2A.deliveries].
    fold id. fold addr.
    assert ((A2A.futures mr ++ [A2A.Pending]) !! addr = Some A2A.Pending)
      as Hfut by (unfold addr; by rewrite list_lookup_middle).
    split; [apply lookup_insert_eq|]. split; [done|]. split; [done|].
    split.
    { intros id' Hne. unfold A2A._handle_response_timeout.
      cbn [A2A.pending_responses A2A.futures A2A.timers A2A.registry
             A2A.message_handlers A2A.deliveries].
      destruct (<[id:=addr]> (A2A.pending_responses mr) !! id'); cbn.
      - rewrite lookup_delete_ne by done. apply lookup_insert_eq.
      - apply lookup_insert_eq. }
    split.
    { intros events Hother. apply slot_kept_run; [done|].
      cbn [A2A.pending_responses]. by rewrite lookup_insert_eq. }
    split.
    { intros Hwf events Hother. set (mr' := A2A.mkMR _ _ _ _ _ _).
      assert (A2A.holds_slot id addr mr') as Hinit.
      { unfold mr'. split; [apply lookup_insert_eq|].
        split; [exact Hfut|]. split.
        - intros id'. cbn [A2A.pending_responses].
          intros [[? _]|[_ H]]%lookup_insert_Some; [done|].
          apply Hwf in H. unfold addr in H. lia.
        - intros k a0. cbn. rewrite length_app. cbn.
          intros [[_ <-]|[_ H]]%lookup_insert_Some; [unfold addr; lia|].
          apply Hwf in H. lia. }
      pose proof (holds_slot_run id addr events mr' Hother Hinit) as Hlater.
      cbv zeta. set (later := A2A.run_events events mr') in *.
      rewrite (holds_slot_timeout id addr later Hlater).
      destruct Hlater as (Hslot & Hpending & Honly & _).
      split; [done|]. split; [done|]. split; [done|].
      cbn [A2A.pending_responses A2A.futures].
      split; [apply lookup_delete_eq|].
      split; [intros id' Hne; by apply lookup_delete_ne|].
      split; [done|].
      split; [apply list_lookup_insert_eq; by eapply lookup_lt_Some|].
      unfold A2A._handle_response_timeout at 1.
      cbn [A2A.pending_responses]. by rewrite lookup_delete_eq. }
    unfold A2A._handle_response_timeout.
    cbn [A2A.pending_responses A2A.futures A2A.timers A2A.registry
           A2A.message_handlers A2A.deliveries].
    rewrite lookup_insert_eq.
    rewrite Hfut.
    cbn [A2A.done A2A.pending_responses A2A.futures A2A.timers A2A.registry
           A2A.message_handlers A2A.deliveries].
    rewrite lookup_delete_eq. split; [done|].
    unfold addr. rewrite insert_app_r_alt, Nat.sub_diag by lia. done.
  - intros [Hnone|Hzero].
    + rewrite Hnone. done.
    + rewrite Hzero. done.
Qed.

Lemma pending_slot_lifecycle_witness :
  let p := A2A.mkProfile "agent_2" "news" [A2A.NEWS_ANALYSIS]
             (9 # 10) (9 # 10) (1 # 10) 10 None "active" in
  let mr := A2A.register_handler "agent_2"
              (A2A.new_router (A2A.register_agent p A2A.empty_registry)) in
  let m1 := A2A.mkMsg "m1" "agent_1" "agent_2" None true (Some 30) in
  let m2 := A2A.mkMsg "m2" "agent_3" "agent_2" None true (Some 5) in
  let mr' := snd (A2A.route_message 0 m1 mr) in
  let later := A2A.run_events [A2A.Route 1 m2; A2A.Watchdog "m2"] mr' in
  A2A.pending_responses (snd (A2A.route_message 1 m2 mr')) !! "m2"
  = Some 1%nat /\
  A2A.pending_responses mr' !! "m1" = Some 0%nat /\
  A2A.pending_responses later !! "m1" = Some 0%nat /\
  A2A.futures later !! 0%nat = Some A2A.Pending /\
  A2A.pending_responses (A2A._handle_response_timeout "m1" later) !! "m1"
  = None.
Proof.
  intros p mr m1 m2 mr' later.
  destruct (pending_slot_lifecycle 0 m1 mr mr') as [H _];
    [vm_compute; reflexivity | reflexivity |].
  destruct (H 30) as (Hslot & _ & _ & _ & _ & Hframe & _);
    [reflexivity | discriminate |].
  destruct (Hframe (slots_allocated_new _) [A2A.Route 1 m2; A2A.Watchdog "m2"])
    as (Hlater & Hpending & _ & Hgone & _).
  { repeat constructor. }
  split; [reflexivity|].
  split; [exact Hslot|]. split; [exact Hlater|]. split; [exact Hpending|].
  exact Hgone.
Defined.

(** * Further properties of the modelled code *)

(** ** Circuit breaker: what every sequence of calls preserves *)

Section BreakerInvariant.

Import CircuitBreaker.

Lemma apply_call_consistent cb c :
  tripped_consistently cb -> tripped_consistently (apply_call cb c).
Proof.
  intros [Hpos Htrip]. destruct c as [|now|now]; cbn.
  - split; [done|]. cbn. done.
  - unfold record_failure, tripped_consistently. cbn. split; [lia|].
    destruct (Z.leb_spec (threshold cb) (failure_count cb + 1)).
    + intros _. split; [done|by eexists].
    + intros Hst. destruct (Htrip Hst). lia.
  - unfold can_execute. destruct (state cb) eqn:Hst.
    + cbn. split; [done|]. by rewrite Hst.
    + destruct Htrip as [Hth Hlf]; [by rewrite ?Hst|].
      destruct (last_failure cb) as [lf|] eqn:Hlast; [|by destruct Hlf].
      destruct (Z.ltb _ _); cbn.
      * split; [done|]. intros _. cbn. rewrite Hlast. split; [done|by eexists].
      * split; [done|]. rewrite Hlast. intros _. split; [done|by eexists].
    + cbn. split; [done|]. intros _. apply Htrip. by rewrite ?Hst.
Qed.

Lemma apply_call_params cb c :
  threshold (apply_call cb c) = threshold cb /\
  timeout (apply_call cb c) = timeout cb.
Proof.
  destruct c as [|now|now]; cbn; try done.
  unfold can_execute. destruct (state cb); try done.
  destruct (last_failure cb); [|done]. by destruct (Z.ltb _ _).
Qed.

End BreakerInvariant.

(** X1.  Whatever calls are made on a new breaker, in whatever order and
    at whatever instants, its threshold and cooldown stay as constructed,
    its failure count is never negative, and whenever it is not closed
    the failure count has reached the threshold and the instant of a
    failure is on record. *)
Theorem breaker_open_only_at_threshold :
  forall (threshold timeout : Z) (calls : list CircuitBreaker.call),
    let cb := CircuitBreaker.run calls (CircuitBreaker.init threshold timeout) in
    CircuitBreaker.threshold cb = threshold /\
    CircuitBreaker.timeout cb = timeout /\
    0 <= CircuitBreaker.failure_count cb /\
    (CircuitBreaker.state cb <> CircuitBreaker.Closed ->
     threshold <= CircuitBreaker.failure_count cb /\
     is_Some (CircuitBreaker.last_failure cb)).
Proof.
  intros th to calls. cbv zeta.
  induction calls as [|c calls IH] using rev_ind.
  - cbn. split; [done|]. split; [done|]. split; [lia|done].
  - unfold CircuitBreaker.run in *. rewrite fold_left_app. cbn [fold_left].
    destruct IH as (Hth & Hto & Hpos & Htrip).
    destruct (apply_call_params
                (fold_left CircuitBreaker.apply_call calls
                   (CircuitBreaker.init th to)) c) as [Hth' Hto'].
    destruct (apply_call_consistent
                (fold_left CircuitBreaker.apply_call calls
                   (CircuitBreaker.init th to)) c) as [Hpos' Htrip'].
    { split; [done|]. intros Hst. rewrite Hth. by apply Htrip. }
    rewrite Hth', Hto', Hth, Hto.
    split; [done|]. split; [done|]. split; [done|].
    intros Hst. destruct (Htrip' Hst) as [H1 H2].
    rewrite Hth', Hth in H1. done.
Qed.

(** X2.  A closed breaker with no failure on record that records fewer
    failures than its threshold stays closed, and [can_execute] then
    returns true at every instant without changing it. *)
Theorem breaker_stays_closed_below_threshold :
  forall (cb0 : CircuitBreaker.t) (times : list Time.datetime),
    CircuitBreaker.state cb0 = CircuitBreaker.Closed ->
    CircuitBreaker.failure_count cb0 = 0 ->
    Z.of_nat (length times) < CircuitBreaker.threshold cb0 ->
    let cb := CircuitBreaker.record_failures times cb0 in
    CircuitBreaker.state cb = CircuitBreaker.Closed /\
    CircuitBreaker.failure_count cb = Z.of_nat (length times) /\
    forall now, CircuitBreaker.can_execute now cb = (true, cb).
Proof.
  intros cb0 times Hst Hcount Hlen. cbv zeta.
  assert (CircuitBreaker.state (CircuitBreaker.record_failures times cb0)
          = CircuitBreaker.Closed) as Hclosed.
  { induction times as [|now times IH] using rev_ind; [done|].
    rewrite length_app in Hlen. cbn in Hlen.
    destruct (record_failures_last times now cb0) as [_ ->].
    destruct (Z.leb_spec (CircuitBreaker.threshold cb0)
                (CircuitBreaker.failure_count cb0 + Z.of_nat (length times) + 1));
      [lia|]. apply IH. lia. }
  split; [done|].
  destruct (record_failures_params times cb0) as (_ & _ & ->).
  split; [lia|]. intros now. unfold CircuitBreaker.can_execute.
  by rewrite Hclosed.
Qed.

Lemma breaker_stays_closed_below_threshold_witness :
  let cb := CircuitBreaker.record_failures
              (map Time.of_seconds [0; 1; 2; 3]) CircuitBreaker.default in
  CircuitBreaker.state cb = CircuitBreaker.Closed /\
  CircuitBreaker.failure_count cb = 4.
Proof.
  destruct (breaker_stays_closed_below_threshold CircuitBreaker.default
              (map Time.of_seconds [0; 1; 2; 3])) as (H1 & H2 & _);
    [reflexivity | reflexivity | cbn; lia |].
  split; [exact H1 | exact H2].
Defined.

(** ** Central router: registration, lookup and the way back *)

Section RegistryRoundTrip.

Import CentralRouter.

Lemma register_capabilities_index id caps : forall st,
  let st' := fold_left
               (fun s c => set_capabilities_index (index_append c id) s)
               caps st in
  forall k, index_get k (capabilities_index st')
            = index_get k (capabilities_index st)
                ++ replicate (Py.occurrences k caps) id.
Proof.
  induction caps as [|c caps IH]; intros st; cbn [fold_left]; intros k.
  - cbn. by rewrite app_nil_r.
  - rewrite IH. cbn [capabilities_index set_capabilities_index].
    unfold Py.occurrences. cbn [List.filter].
    unfold index_append at 1, index_get at 1.
    destruct (decide (c = k)) as [->|Hne].
    + rewrite lookup_insert_eq, bool_decide_eq_true_2 by done.
      unfold default. cbn [from_option Datatypes.id length].
      rewrite <- app_assoc. f_equal.
    + rewrite lookup_insert_ne, bool_decide_eq_false_2 by done. done.
Qed.

Lemma py_remove_last (x : string) (l : list string) :
  x ∉ l -> Py.remove x (l ++ [x]) = Some l.
Proof.
  induction l as [|y l IH]; intros Hnin; cbn.
  - by rewrite decide_True.
  - rewrite decide_False.
    + rewrite IH; [done|]. intros ?. apply Hnin, elem_of_cons. by right.
    + intros ->. apply Hnin, elem_of_cons. by left.
Qed.

Lemma py_remove_replicate (x : string) (l : list string) (n : nat) :
  x ∉ l ->
  Py.remove x (l ++ replicate n x)
  = match n with O => None | S n' => Some (l ++ replicate n' x) end.
Proof.
  induction l as [|y l IH]; intros Hnin.
  - destruct n; cbn; [done|]. by rewrite decide_True.
  - cbn. rewrite decide_False.
    + rewrite IH; [by destruct n|]. intros ?. apply Hnin, elem_of_cons. by right.
    + intros ->. apply Hnin, elem_of_cons. by left.
Qed.

Lemma drop_capabilities_index id caps : forall st (base : string -> list string)
    (f : string -> nat),
  (forall k, id ∉ base k) ->
  (forall k, index_get k (capabilities_index st) = base k ++ replicate (f k) id) ->
  forall k,
    index_get k
      (capabilities_index
         (fold_left (fun s c => drop_capability id c s) caps st))
    = base k ++ replicate (f k - Py.occurrences k caps) id.
Proof.
  induction caps as [|c caps IH]; intros st base f Hbase Hst k; cbn [fold_left].
  - cbn. rewrite Hst. f_equal. f_equal. lia.
  - rewrite (IH _ base (fun k' => if decide (k' = c) then f k' - 1 else f k')%nat);
      [|done|].
    + unfold Py.occurrences. cbn [List.filter].
      destruct (decide (k = c)) as [->|Hne].
      * rewrite bool_decide_eq_true_2 by done. cbn [length]. do 2 f_equal. lia.
      * rewrite bool_decide_eq_false_2 by done. done.
    + intros k'. unfold drop_capability. rewrite (Hst c).
      rewrite py_remove_replicate by done.
      destruct (f c) as [|n] eqn:Hfc.
      * rewrite Hst. destruct (decide (k' = c)) as [->|]; [|done].
        rewrite Hfc. done.
      * cbn [capabilities_index set_capabilities_index]. unfold index_get at 1.
        destruct (decide (k' = c)) as [->|Hne].
        -- rewrite lookup_insert_eq, Hfc. cbn. do 2 f_equal. lia.
        -- rewrite lookup_insert_ne by done. apply Hst.
Qed.

Lemma index_capabilities_others aid caps st :
  let st' := fold_left
               (fun s c => set_capabilities_index (index_append c aid) s)
               caps st in
  circuit_breakers st' = circuit_breakers st /\
  routing_counters st' = routing_counters st /\
  stats st' = stats st /\ published st' = published st.
Proof.
  revert st. induction caps as [|c caps IH]; intros st; [done|].
  cbn [fold_left].
  by destruct (IH (set_capabilities_index (index_append c aid) st))
    as (-> & -> & -> & ->).
Qed.

Lemma register_agent_fields E a st :
  let st' := register_agent E a st in
  agents st' = <[agent_id a := a]> (agents st) /\
  agent_types st'
    = index_append (agent_type a) (agent_id a) (agent_types st) /\
  circuit_breakers st'
    = <[agent_id a := CircuitBreaker.default]> (circuit_breakers st) /\
  (forall k, index_get k (capabilities_index st')
             = index_get k (capabilities_index st)
                 ++ replicate (Py.occurrences k (capabilities a)) (agent_id a)) /\
  routing_counters st' = routing_counters st.
Proof.
  unfold register_agent, publish.
  set (st1 := set_agent_types (index_append (agent_type a) (agent_id a))
                (set_agents (insert (agent_id a) a) st)).
  destruct (index_capabilities_frame (agent_id a) (capabilities a) st1)
    as (Hag & Hty).
  destruct (index_capabilities_others (agent_id a) (capabilities a) st1)
    as (Hcb & Hrc & _ & _).
  pose proof (register_capabilities_index (agent_id a) (capabilities a) st1)
    as Hci.
  cbn [snd agents agent_types circuit_breakers capabilities_index
         routing_counters set_published set_stats set_circuit_breakers].
  rewrite Hag, Hty, Hcb, Hrc. repeat split. exact Hci.
Qed.

End RegistryRoundTrip.

(** X3.  After [register_agent], the profile is stored under its id with a
    new closed breaker (also when the id was registered before, whatever
    its breaker was), the id is listed under its type and under each of
    its capabilities, no other profile or breaker has changed, and no
    index has lost an entry. *)
Theorem register_then_lookup :
  forall (E : CentralRouter.env) (a : CentralRouter.AgentInstance)
         (st : CentralRouter.router),
    let st' := CentralRouter.register_agent E a st in
    let aid := CentralRouter.agent_id a in
    CentralRouter.agents st' !! aid = Some a /\
    CentralRouter.circuit_breakers st' !! aid = Some CircuitBreaker.default /\
    aid ∈ CentralRouter.index_get (CentralRouter.agent_type a)
            (CentralRouter.agent_types st') /\
    (forall c, c ∈ CentralRouter.capabilities a ->
       aid ∈ CentralRouter.index_get c (CentralRouter.capabilities_index st')) /\
    (forall other, other <> aid ->
       CentralRouter.agents st' !! other = CentralRouter.agents st !! other /\
       CentralRouter.circuit_breakers st' !! other
       = CentralRouter.circuit_breakers st !! other) /\
    (forall k x,
       (x ∈ CentralRouter.index_get k (CentralRouter.agent_types st) ->
        x ∈ CentralRouter.index_get k (CentralRouter.agent_types st')) /\
       (x ∈ CentralRouter.index_get k (CentralRouter.capabilities_index st) ->
        x ∈ CentralRouter.index_get k (CentralRouter.capabilities_index st'))).
Proof.
  intros E a st st' aid.
  destruct (register_agent_fields E a st) as (Hag & Hty & Hcb & Hci & _).
  fold st' in Hag, Hty, Hcb, Hci. fold aid in Hag, Hty, Hcb, Hci.
  rewrite Hag, Hcb, Hty.
  split; [apply lookup_insert_eq|]. split; [apply lookup_insert_eq|].
  split.
  { unfold CentralRouter.index_append, CentralRouter.index_get.
    rewrite lookup_insert_eq. cbn. apply elem_of_app. right.
    by apply list_elem_of_singleton. }
  split.
  { intros c Hc. rewrite Hci. apply elem_of_app. right.
    apply elem_of_replicate. split; [done|].
    unfold Py.occurrences. apply list_elem_of_In in Hc.
    assert (In c (List.filter (fun y => bool_decide (y = c))
                    (CentralRouter.capabilities a))) as Hin
      by (apply filter_In; split; [done|by apply bool_decide_eq_true_2]).
    destruct (List.filter _ _); [done|]. cbn. lia. }
  split.
  { intros other Hne. by rewrite !lookup_insert_ne. }
  intros k x. split.
  - intros Hx. unfold CentralRouter.index_append.
    destruct (decide (CentralRouter.agent_type a = k)) as [<-|Hne].
    + unfold CentralRouter.index_get at 1. rewrite lookup_insert_eq. cbn.
      apply elem_of_app. by left.
    + unfold CentralRouter.index_get at 1. by rewrite lookup_insert_ne.
  - intros Hx. rewrite Hci. apply elem_of_app. by left.
Qed.

(** X4.  Registering an agent whose id is new to the router (no profile,
    no breaker, no index entry under that id) and unregistering it again
    gives back the router's profiles and breakers and the content of every
    type and capability index entry; the unregistration does not raise. *)
Theorem register_unregister_round_trip :
  forall (E : CentralRouter.env) (a : CentralRouter.AgentInstance)
         (st : CentralRouter.router),
    let aid := CentralRouter.agent_id a in
    CentralRouter.agents st !! aid = None ->
    CentralRouter.circuit_breakers st !! aid = None ->
    (forall k, aid ∉ CentralRouter.index_get k (CentralRouter.agent_types st)) ->
    (forall k, aid ∉ CentralRouter.index_get k
                       (CentralRouter.capabilities_index st)) ->
    exists st'',
      CentralRouter._unregister_agent aid (CentralRouter.register_agent E a st)
      = (CentralRouter.Ret tt, st'') /\
      CentralRouter.agents st'' = CentralRouter.agents st /\
      CentralRouter.circuit_breakers st'' = CentralRouter.circuit_breakers st /\
      (forall k, CentralRouter.index_get k (CentralRouter.agent_types st'')
                 = CentralRouter.index_get k (CentralRouter.agent_types st)) /\
      (forall k, CentralRouter.index_get k (CentralRouter.capabilities_index st'')
                 = CentralRouter.index_get k
                     (CentralRouter.capabilities_index st)).
Proof.
  intros E a st aid Hnew Hnocb Hty Hci.
  destruct (register_agent_fields E a st) as (Hag1 & Hty1 & Hcb1 & Hci1 & _).
  fold aid in Hag1, Hty1, Hcb1, Hci1.
  set (st1 := CentralRouter.register_agent E a st) in *.
  unfold CentralRouter._unregister_agent.
  rewrite Hag1, lookup_insert_eq, Hty1.
  unfold CentralRouter.index_append at 1, CentralRouter.index_get at 1.
  rewrite lookup_insert_eq. cbn [default from_option Datatypes.id].
  fold (CentralRouter.index_get (CentralRouter.agent_type a)
          (CentralRouter.agent_types st)).
  rewrite py_remove_last by apply Hty.
  eexists. split; [reflexivity|].
  set (st2 := CentralRouter.set_agent_types _ st1).
  destruct (drop_capabilities_frame aid (CentralRouter.capabilities a) st2)
    as (Hag3 & Hty3 & Hcb3).
  cbn [CentralRouter.agents CentralRouter.set_agents
         CentralRouter.set_circuit_breakers CentralRouter.circuit_breakers
         CentralRouter.agent_types CentralRouter.capabilities_index].
  rewrite Hag3, Hty3, Hcb3. unfold st2.
  cbn [CentralRouter.agents CentralRouter.set_agent_types
         CentralRouter.circuit_breakers CentralRouter.agent_types].
  rewrite Hag1, Hcb1, Hty1.
  split; [by apply delete_insert_id|]. split; [by apply delete_insert_id|].
  split.
  - intros k. unfold CentralRouter.index_append, CentralRouter.index_get.
    destruct (decide (CentralRouter.agent_type a = k)) as [<-|Hne].
    + by rewrite lookup_insert_eq.
    + by rewrite !lookup_insert_ne.
  - intros k.
    rewrite (drop_capabilities_index aid (CentralRouter.capabilities a) st2
               (fun k => CentralRouter.index_get k
                           (CentralRouter.capabilities_index st))
               (fun k => Py.occurrences k (CentralRouter.capabilities a)));
      [|done|].
    + rewrite Nat.sub_diag. cbn. by rewrite app_nil_r.
    + intros k'. unfold st2. cbn [CentralRouter.capabilities_index
                                   CentralRouter.set_agent_types].
      apply Hci1.
Qed.

Lemma register_unregister_round_trip_witness :
  let E := CentralRouter.quiet_env in
  let a := CentralRouter.fresh_agent "a" "analyst" ["charts"; "news"] 0 in
  exists st'',
    CentralRouter._unregister_agent "a"
      (CentralRouter.register_agent E a CentralRouter.init)
    = (CentralRouter.Ret tt, st'') /\
    CentralRouter.agents st'' = ∅.
Proof.
  intros E a.
  destruct (register_unregister_round_trip E a CentralRouter.init)
    as (st'' & Hrun & Hag & _); try reflexivity.
  - intros k. unfold CentralRouter.index_get. cbn. rewrite lookup_empty.
    apply not_elem_of_nil.
  - intros k. unfold CentralRouter.index_get. cbn. rewrite lookup_empty.
    apply not_elem_of_nil.
  - exists st''. split; [exact Hrun | exact Hag].
Defined.

Lemma register_then_lookup_witness :
  let a := CentralRouter.fresh_agent "a" "analyst" ["charts"] 0 in
  let st' := CentralRouter.register_agent CentralRouter.quiet_env a
               CentralRouter.init in
  "a" ∈ CentralRouter.index_get "charts" (CentralRouter.capabilities_index st').
Proof.
  intros a st'.
  destruct (register_then_lookup CentralRouter.quiet_env a CentralRouter.init)
    as (_ & _ & _ & Hcaps & _).
  apply Hcaps. apply elem_of_cons. by left.
Defined.

(** ** Central router: heartbeats and the health pass *)

Section Heartbeat.

Import CentralRouter.

Lemma set_agents_id (f : gmap string AgentInstance -> gmap string AgentInstance)
    (st : router) :
  f (agents st) = agents st -> set_agents f st = st.
Proof. intros H. destruct st. unfold set_agents. cbn in *. by rewrite H. Qed.

Lemma age_status_fields now a :
  agent_id (age_status now a) = agent_id a /\
  agent_type (age_status now a) = agent_type a /\
  capabilities (age_status now a) = capabilities a /\
  last_heartbeat (age_status now a) = last_heartbeat a /\
  load_factor (age_status now a) = load_factor a /\
  message_count (age_status now a) = message_count a.
Proof.
  unfold age_status. destruct (last_heartbeat a) eqn:Hhb; [|by rewrite Hhb].
  repeat case_match; cbn; by rewrite ?Hhb.
Qed.

End Heartbeat.

(** X5.  A heartbeat for an id that is not registered changes nothing.  A
    heartbeat for a registered id sets its status to healthy (whatever it
    was), stamps [last_heartbeat] and stores the reported load, keeps its
    type and capabilities, and leaves the other profiles alone; a health
    pass made up to 30 seconds later keeps that profile as it is. *)
Theorem heartbeat_restores_healthy :
  forall (now : Time.datetime) (id : string) (load : Q)
         (st : CentralRouter.router),
    let st' := CentralRouter._handle_agent_heartbeat now id load st in
    (CentralRouter.agents st !! id = None -> st' = st) /\
    (forall a, CentralRouter.agents st !! id = Some a ->
       let a' := CentralRouter.mkAgent (CentralRouter.agent_id a)
                   (CentralRouter.agent_type a) (CentralRouter.capabilities a)
                   CentralRouter.HEALTHY (Some now) load
                   (CentralRouter.message_count a) in
       CentralRouter.agents st' !! id = Some a' /\
       forall later,
         Time.sub later now <= Time.of_seconds 30 ->
         CentralRouter.agents (CentralRouter.health_monitor_pass later st') !! id
         = Some a') /\
    (forall other, other <> id ->
       CentralRouter.agents st' !! other = CentralRouter.agents st !! other).
Proof.
  intros now id load st st'.
  split; [|split].
  - intros Hnone. unfold st', CentralRouter._handle_agent_heartbeat.
    apply set_agents_id. apply map_eq. intros k.
    rewrite lookup_alter. case_decide; [subst; by rewrite Hnone|done].
  - intros a Ha a'. unfold st', CentralRouter._handle_agent_heartbeat.
    cbn [CentralRouter.agents CentralRouter.set_agents].
    assert (alter
              (fun a0 => CentralRouter.mkAgent (CentralRouter.agent_id a0)
                 (CentralRouter.agent_type a0) (CentralRouter.capabilities a0)
                 CentralRouter.HEALTHY (Some now) load
                 (CentralRouter.message_count a0)) id
              (CentralRouter.agents st) !! id = Some a') as Hlook
      by (by rewrite lookup_alter_eq, Ha).
    split; [exact Hlook|].
    intros later Hlater. unfold CentralRouter.health_monitor_pass.
    cbn [CentralRouter.agents CentralRouter.set_agents].
    rewrite lookup_fmap, Hlook. cbn. f_equal.
    unfold CentralRouter.age_status. cbn.
    unfold Time.of_seconds, Time.usec_per_sec, Time.sub in *.
    repeat case_match; try done; lia.
  - intros other Hne. unfold st', CentralRouter._handle_agent_heartbeat.
    cbn. by rewrite lookup_alter_ne.
Qed.

Lemma heartbeat_restores_healthy_witness :
  let a := CentralRouter.set_status CentralRouter.OFFLINE
             (CentralRouter.fresh_agent "a" "analyst" ["charts"] 0) in
  let st := CentralRouter.register_agent CentralRouter.quiet_env a
              CentralRouter.init in
  let st' := CentralRouter._handle_agent_heartbeat (Time.of_seconds 100) "a"
               (1 # 2) st in
  CentralRouter.status
    <$> CentralRouter.agents
          (CentralRouter.health_monitor_pass (Time.of_seconds 130) st') !! "a"
  = Some CentralRouter.HEALTHY /\
  CentralRouter._handle_agent_heartbeat (Time.of_seconds 100) "b" (1 # 2) st
  = st.
Proof.
  intros a st st'.
  destruct (heartbeat_restores_healthy (Time.of_seconds 100) "a" (1 # 2) st)
    as (_ & Hknown & _).
  destruct (heartbeat_restores_healthy (Time.of_seconds 100) "b" (1 # 2) st)
    as (Hunknown & _).
  split.
  - destruct (Hknown a) as [_ Hpass]; [reflexivity|].
    unfold st'. rewrite (Hpass (Time.of_seconds 130)); [reflexivity|].
    vm_compute. discriminate.
  - apply Hunknown. reflexivity.
Defined.

(** X6.  A health pass keeps the registered ids and never promotes: the
    profile it leaves under an id is the one that was there, with at most
    its status replaced by degraded or offline, and a profile without
    heartbeat is left as it is.  The pass sets an agent offline when its
    heartbeat is more than 60 seconds old, degraded when it is more than
    30 and at most 60 seconds old, and leaves it as it is otherwise.
    Without a new heartbeat, an agent that one pass sets offline is set
    offline by every later pass as well. *)
Theorem health_pass_only_downgrades :
  forall (now : Time.datetime) (st : CentralRouter.router) (id : string),
    (CentralRouter.agents (CentralRouter.health_monitor_pass now st) !! id = None
     <-> CentralRouter.agents st !! id = None) /\
    (forall a, CentralRouter.agents st !! id = Some a ->
       let a' := CentralRouter.age_status now a in
       CentralRouter.agents (CentralRouter.health_monitor_pass now st) !! id
       = Some a' /\
       (a' = a \/ a' = CentralRouter.set_status CentralRouter.DEGRADED a
        \/ a' = CentralRouter.set_status CentralRouter.OFFLINE a) /\
       (CentralRouter.last_heartbeat a = None -> a' = a) /\
       (forall hb,
          CentralRouter.last_heartbeat a = Some hb ->
          (Time.of_seconds 60 < Time.sub now hb ->
           a' = CentralRouter.set_status CentralRouter.OFFLINE a) /\
          (Time.of_seconds 30 < Time.sub now hb <= Time.of_seconds 60 ->
           a' = CentralRouter.set_status CentralRouter.DEGRADED a) /\
          (Time.sub now hb <= Time.of_seconds 30 -> a' = a)) /\
       (forall later hb,
          CentralRouter.last_heartbeat a = Some hb ->
          Time.of_seconds 60 < Time.sub now hb -> now <= later ->
          CentralRouter.agents
            (CentralRouter.health_monitor_pass later
               (CentralRouter.health_monitor_pass now st)) !! id
          = Some (CentralRouter.set_status CentralRouter.OFFLINE a))).
Proof.
  intros now st id. unfold CentralRouter.health_monitor_pass.
  cbn [CentralRouter.agents CentralRouter.set_agents]. rewrite lookup_fmap.
  split.
  - destruct (CentralRouter.agents st !! id); cbn; split; done.
  - intros a Ha. cbv zeta. set (a' := CentralRouter.age_status now a).
    rewrite Ha. cbn. split; [done|]. split; [|split; [|split]].
    + unfold a', CentralRouter.age_status.
      destruct (CentralRouter.last_heartbeat a); [|by left].
      repeat case_match; auto.
    + intros Hnone. unfold a', CentralRouter.age_status. by rewrite Hnone.
    + intros hb Hhb. unfold a'. rewrite (age_status_cases now a hb Hhb).
      assert (Time.of_seconds 30 < Time.of_seconds 60) by done.
      destruct (Z.ltb_spec (Time.of_seconds 60) (Time.sub now hb));
        [split; [done|split; intros; lia]|].
      destruct (Z.ltb_spec (Time.of_seconds 30) (Time.sub now hb)).
      * split; [intros; lia|]. split; [done|intros; lia].
      * split; [intros; lia|]. split; [intros; lia|done].
    + intros later hb Hhb Hold Hlater.
      rewrite !lookup_fmap, Ha. cbn. f_equal.
      rewrite (age_status_cases now a hb Hhb).
      destruct (Z.ltb_spec (Time.of_seconds 60) (Time.sub now hb)); [|lia].
      rewrite (age_status_cases later _ hb) by (by cbn).
      unfold Time.sub in *.
      destruct (Z.ltb_spec (Time.of_seconds 60) (later - hb)); [done|lia].
Qed.

Lemma health_pass_only_downgrades_witness :
  let a := CentralRouter.fresh_agent "a" "analyst" ["charts"] 0 in
  let st := CentralRouter.register_agent CentralRouter.quiet_env a
              CentralRouter.init in
  CentralRouter.agents
    (CentralRouter.health_monitor_pass (Time.of_seconds 500)
       (CentralRouter.health_monitor_pass (Time.of_seconds 61) st)) !! "a"
  = Some (CentralRouter.set_status CentralRouter.OFFLINE a).
Proof.
  intros a st.
  destruct (health_pass_only_downgrades (Time.of_seconds 61) st "a")
    as [_ H].
  destruct (H a) as (_ & _ & _ & _ & Hlater); [reflexivity|].
  apply (Hlater (Time.of_seconds 500) 0); [reflexivity| |]; vm_compute;
    [reflexivity | discriminate].
Defined.

(** ** Central router: selection strategies *)

Section FirstMaximum.

Context {A K : Type} (lt : K -> K -> bool) (le slt : K -> K -> Prop)
  (key : A -> K).
Context (lt_slt : forall a b, lt a b = true -> slt a b)
  (nlt_le : forall a b, lt a b = false -> le b a)
  (slt_trans : forall a b c, slt a b -> slt b c -> slt a c)
  (le_slt_trans : forall a b c, le a b -> slt b c -> slt a c).

(** The element [max] keeps is the running best it started from, or it
    sits in the list behind elements whose keys are all strictly below
    its own. *)
Lemma max_from_first l : forall best,
  let x := Py.max_from lt key best l in
  x = best \/
  exists l1 l2, l = l1 ++ x :: l2 /\ slt (key best) (key x) /\
                forall y, y ∈ l1 -> slt (key y) (key x).
Proof.
  induction l as [|z l IH]; intros best; cbn; [by left|].
  destruct (lt (key best) (key z)) eqn:Hlt.
  - right. destruct (IH z) as [Heq|(l1 & l2 & Hl & Hz & Hl1)].
    + exists [], l. rewrite Heq. split; [done|]. split; [by apply lt_slt|].
      by intros ? ?%elem_of_nil.
    + exists (z :: l1), l2. split; [by rewrite Hl at 1|].
      split; [eapply slt_trans; [by apply lt_slt|done]|].
      intros y [->|Hy]%elem_of_cons; auto.
  - destruct (IH best) as [Heq|(l1 & l2 & Hl & Hb & Hl1)]; [by left|].
    right. exists (z :: l1), l2. split; [by rewrite Hl at 1|]. split; [done|].
    intros y [->|Hy]%elem_of_cons; [|auto].
    eapply le_slt_trans; [by apply nlt_le|done].
Qed.

End FirstMaximum.

Section Selection.

Import CentralRouter.
Context (E : env).

Lemma load_keys_value ids st :
  (forall id, id ∈ ids -> is_Some (agents st !! id)) ->
  load_keys ids st = (Ret (map (fun id => (id, load_of st id)) ids), st).
Proof.
  induction ids as [|id ids IH]; intros Hreg; [done|].
  destruct (Hreg id) as [a Ha]; [apply elem_of_cons; by left|].
  cbn [load_keys map]. unfold bind at 1, subscript. rewrite Ha.
  unfold bind at 1. rewrite IH.
  - unfold ret, load_of. by rewrite Ha.
  - intros k Hk. apply Hreg, elem_of_cons. by right.
Qed.

End Selection.

(** X7.  On a non-empty list of registered candidates the least-loaded
    strategy returns, without changing the router, a candidate whose
    [load_factor] no candidate undercuts, and among several such the first
    of the list: every candidate listed before it has a strictly larger
    load. *)
Theorem least_loaded_selects_first_minimum :
  forall (E : CentralRouter.env) (candidates : list string)
         (st : CentralRouter.router),
    candidates <> [] ->
    (forall id, id ∈ candidates -> is_Some (CentralRouter.agents st !! id)) ->
    exists sel before after,
      CentralRouter._select_agent E candidates CentralRouter.LEAST_LOADED st
      = (CentralRouter.Ret sel, st) /\
      candidates = before ++ sel :: after /\
      (forall id, id ∈ candidates ->
         (CentralRouter.load_of st sel <= CentralRouter.load_of st id)%Q) /\
      (forall id, id ∈ before ->
         (CentralRouter.load_of st sel < CentralRouter.load_of st id)%Q).
Proof.
  intros E candidates st Hne Hreg.
  destruct candidates as [|c0 cs]; [done|].
  set (g := fun id : string => (id, CentralRouter.load_of st id)).
  set (lt' := fun a b : Q => Py.Qltb b a).
  assert (Hlt : forall a b, lt' a b = true -> (b < a)%Q).
  { intros a b H. unfold lt', Py.Qltb in H. apply negb_true_iff in H.
    apply Qnot_le_lt. intros Hle. apply Qle_bool_iff in Hle. congruence. }
  assert (Hnlt : forall a b, lt' a b = false -> (a <= b)%Q).
  { intros a b H. unfold lt', Py.Qltb in H. apply negb_false_iff in H.
    by apply Qle_bool_iff. }
  cbn [CentralRouter._select_agent]. unfold CentralRouter.bind at 1.
  rewrite (load_keys_value (c0 :: cs) st Hreg). fold g.
  cbn [map]. unfold Py.min_by, Py.max_by. fold lt'.
  set (x := Py.max_from lt' snd (g c0) (map g cs)).
  assert (forall y, y ∈ g c0 :: map g cs -> (snd x <= snd y)%Q) as Hmin.
  { destruct (max_from_upper lt' (fun a b => b <= a)%Q snd
                Qle_refl (fun a b c H1 H2 => Qle_trans _ _ _ H2 H1)
                (fun a b H => Qlt_le_weak _ _ (Hlt a b H))
                (fun a b H => Hnlt a b H) (map g cs) (g c0)) as [H0 Hl].
    intros y [->|Hy]%elem_of_cons; [exact H0|by apply Hl]. }
  pose proof (max_from_first lt' (fun a b => b <= a)%Q (fun a b => b < a)%Q snd
                Hlt Hnlt (fun a b c H1 H2 => Qlt_trans _ _ _ H2 H1)
                (fun a b c H1 H2 => Qlt_le_trans _ _ _ H2 H1)
                (map g cs) (g c0)) as Hfirst.
  cbv zeta in Hfirst. fold x in Hfirst.
  destruct Hfirst as [Hx|(l1 & l2 & Hl & Hbest & Hl1)].
  - exists c0, [], cs. rewrite Hx. cbn. split; [done|]. split; [done|].
    split; [|by intros ? ?%elem_of_nil].
    intros id Hid. rewrite Hx in Hmin. apply (Hmin (g id)).
    change (g c0 :: map g cs) with (map g (c0 :: cs)).
    apply list_elem_of_fmap. by exists id.
  - apply fmap_app_inv in Hl as (b1 & rest & -> & Hrest & ->).
    symmetry in Hrest. apply fmap_cons_inv in Hrest as (sel & after & Hsel & _ & ->).
    exists sel, (c0 :: b1), after. rewrite Hsel. cbn [fst g].
    split; [done|]. split; [done|]. split.
    + intros id Hid. rewrite Hsel in Hmin. apply (Hmin (g id)).
      change (g c0 :: map g (b1 ++ sel :: after))
        with (map g (c0 :: b1 ++ sel :: after)).
      apply list_elem_of_fmap. by exists id.
    + rewrite Hsel in Hbest, Hl1. cbn in Hbest.
      intros id [->|Hid]%elem_of_cons; [done|].
      apply (Hl1 (g id)). apply list_elem_of_fmap. by exists id.
Qed.

Lemma least_loaded_selects_first_minimum_witness :
  let E := CentralRouter.quiet_env in
  let st := CentralRouter._handle_agent_heartbeat 0 "b" (1 # 4)
              (CentralRouter._handle_agent_heartbeat 0 "a" (3 # 4)
                 (CentralRouter.register_agent E
                    (CentralRouter.fresh_agent "b" "analyst" [] 0)
                    (CentralRouter.register_agent E
                       (CentralRouter.fresh_agent "a" "analyst" [] 0)
                       CentralRouter.init))) in
  exists sel,
    CentralRouter._select_agent E ["a"; "b"] CentralRouter.LEAST_LOADED st
    = (CentralRouter.Ret sel, st) /\
    (CentralRouter.load_of st sel <= CentralRouter.load_of st "a")%Q.
Proof.
  intros E st.
  destruct (least_loaded_selects_first_minimum E ["a"; "b"] st)
    as (sel & before & after & Hrun & _ & Hmin & _).
  - discriminate.
  - intros id Hid.
    apply elem_of_cons in Hid as [->|Hid]; [by eexists|].
    apply list_elem_of_singleton in Hid as ->. by eexists.
  - exists sel. split; [exact Hrun|]. apply Hmin. apply elem_of_cons. by left.
Defined.

(** X8.  Whatever the strategy, [_select_agent] leaves the profiles, the
    breakers and the transport untouched; what it returns is one of the
    candidates it was given; on an empty list it raises; and on a
    non-empty list of registered candidates it does return. *)
Theorem select_agent_returns_candidate :
  forall (E : CentralRouter.env) (candidates : list string)
         (strategy : CentralRouter.RoutingStrategy)
         (st st' : CentralRouter.router) (r : CentralRouter.outcome string),
    CentralRouter._select_agent E candidates strategy st = (r, st') ->
    (CentralRouter.agents st' = CentralRouter.agents st /\
     CentralRouter.circuit_breakers st' = CentralRouter.circuit_breakers st /\
     CentralRouter.published st' = CentralRouter.published st) /\
    (forall x, r = CentralRouter.Ret x -> x ∈ candidates) /\
    (candidates = [] -> exists e, r = CentralRouter.Raise e) /\
    (candidates <> [] ->
     (forall x, x ∈ candidates -> is_Some (CentralRouter.agents st !! x)) ->
     exists x, r = CentralRouter.Ret x).
Proof.
  intros E candidates strategy st st' r Hrun.
  destruct (select_frame E _ _ _ _ _ Hrun) as ((Hag & Hpub) & Hcb & Hin).
  split; [done|]. split; [done|]. split.
  - intros ->. destruct (select_nil E strategy st) as (e & st0 & Hnil & _).
    rewrite Hnil in Hrun. injection Hrun as <- _. by exists e.
  - intros Hne Hreg.
    destruct (select_total E candidates strategy st Hne Hreg)
      as (x & st0 & Hsel).
    rewrite Hsel in Hrun. injection Hrun as <- _. by exists x.
Qed.

Lemma select_agent_returns_candidate_witness :
  exists x,
    fst (CentralRouter._select_agent CentralRouter.quiet_env ["a"; "b"]
           CentralRouter.RANDOM CentralRouter.init)
    = CentralRouter.Ret x /\
    x ∈ ["a"; "b"].
Proof.
  destruct (CentralRouter._select_agent CentralRouter.quiet_env ["a"; "b"]
              CentralRouter.RANDOM CentralRouter.init) as [r st'] eqn:Hrun.
  destruct (select_agent_returns_candidate _ _ _ _ _ _ Hrun)
    as (_ & Hin & _ & _).
  vm_compute in Hrun. injection Hrun as <- _.
  eexists. split; [reflexivity|]. by apply Hin.
Defined.

(** ** Central router: the health filter of [route_message] *)

Section HealthFilter.

Import CentralRouter.

Lemma can_execute_cases now cb ok cb' :
  CircuitBreaker.can_execute now cb = (ok, cb') ->
  (ok = true -> CircuitBreaker.state cb' <> CircuitBreaker.Open) /\
  (CircuitBreaker.state cb <> CircuitBreaker.Open ->
   ok = true /\ cb' = cb).
Proof.
  unfold CircuitBreaker.can_execute.
  destruct (CircuitBreaker.state cb) eqn:Hst.
  - intros [= <- <-]. by rewrite Hst.
  - destruct (CircuitBreaker.last_failure cb); [|by intros [= <- <-]].
    destruct (Z.ltb _ _); intros [= <- <-]; by split.
  - intros [= <- <-]. by rewrite Hst.
Qed.

(** A breaker that is not open is not touched by the filter. *)
Lemma healthy_filter_keeps_admitting now ids : forall st r st1,
  healthy_filter now ids st = (r, st1) ->
  forall k cb, circuit_breakers st !! k = Some cb ->
               CircuitBreaker.state cb <> CircuitBreaker.Open ->
               circuit_breakers st1 !! k = Some cb.
Proof.
  induction ids as [|id ids IH]; intros st r st1 Hrun k cb Hk Hcb.
  - cbn in Hrun. by injection Hrun as _ <-.
  - cbn [healthy_filter] in Hrun. unfold bind at 1, subscript in Hrun.
    destruct (agents st !! id) as [a|]; [|by injection Hrun as _ <-].
    unfold bind at 1 in Hrun.
    destruct (decide (status a = HEALTHY)) as [Hhealthy|Hhealthy].
    + unfold bind at 1, subscript in Hrun.
      destruct (circuit_breakers st !! id) as [cb0|] eqn:Hcb0;
        [|by injection Hrun as _ <-].
      destruct (CircuitBreaker.can_execute now cb0) as [ok cb'] eqn:Hexec.
      unfold bind at 1, modify, ret in Hrun.
      set (st0 := set_circuit_breakers (insert id cb') st) in *.
      assert (circuit_breakers st0 !! k = Some cb) as Hk0.
      { unfold st0. cbn. destruct (decide (id = k)) as [->|Hne].
        - rewrite Hk in Hcb0. injection Hcb0 as <-.
          destruct (can_execute_cases _ _ _ _ Hexec) as [_ H].
          destruct (H Hcb) as [_ ->]. apply lookup_insert_eq.
        - by rewrite lookup_insert_ne. }
      unfold bind at 1 in Hrun.
      destruct (healthy_filter now ids st0) as [[rest|err] st'] eqn:Hrest;
        injection Hrun as _ <-; by eapply IH.
    + unfold ret at 1 in Hrun. unfold bind at 1 in Hrun.
      destruct (healthy_filter now ids st) as [[rest|err] st'] eqn:Hrest;
        injection Hrun as _ <-; by eapply IH.
Qed.

Lemma healthy_filter_sound now ids : forall st healthy st1,
  healthy_filter now ids st = (Ret healthy, st1) ->
  healthy `sublist_of` ids /\
  forall id, id ∈ healthy ->
    exists a cb,
      agents st !! id = Some a /\ status a = HEALTHY /\
      circuit_breakers st1 !! id = Some cb /\
      CircuitBreaker.state cb <> CircuitBreaker.Open.
Proof.
  induction ids as [|id ids IH]; intros st healthy st1 Hrun.
  - cbn in Hrun. injection Hrun as <- <-. split; [done|].
    by intros ? ?%elem_of_nil.
  - pose proof Hrun as Hrun0.
    cbn [healthy_filter] in Hrun. unfold bind at 1, subscript in Hrun.
    destruct (agents st !! id) as [a|] eqn:Ha; [|done].
    unfold bind at 1 in Hrun.
    destruct (decide (status a = HEALTHY)) as [Hst|Hst].
    + unfold bind at 1, subscript in Hrun.
      destruct (circuit_breakers st !! id) as [cb0|] eqn:Hcb0; [|done].
      destruct (CircuitBreaker.can_execute now cb0) as [ok cb'] eqn:Hexec.
      unfold bind at 1, modify, ret in Hrun.
      set (st0 := set_circuit_breakers (insert id cb') st) in *.
      unfold bind at 1 in Hrun.
      destruct (healthy_filter now ids st0) as [[rest|err] st'] eqn:Hrest; [|done].
      injection Hrun as <- <-.
      destruct (IH st0 rest st' Hrest) as [Hsub Hin].
      destruct ok.
      * split; [by apply sublist_skip|].
        intros k [->|Hk]%elem_of_cons; [|by apply Hin].
        exists a, cb'. split; [done|]. split; [done|].
        destruct (can_execute_cases _ _ _ _ Hexec) as [Hok _].
        split; [|by apply Hok].
        apply (healthy_filter_keeps_admitting now ids st0 _ _ Hrest);
          [unfold st0; cbn; apply lookup_insert_eq|by apply Hok].
      * split; [by apply sublist_cons|]. exact Hin.
    + unfold ret at 1 in Hrun. unfold bind at 1 in Hrun.
      destruct (healthy_filter now ids st) as [[rest|err] st'] eqn:Hrest; [|done].
      injection Hrun as <- <-.
      destruct (IH st rest st' Hrest) as [Hsub Hin].
      split; [by apply sublist_cons|]. exact Hin.
Qed.

End HealthFilter.

(** X9.  The candidates that pass the health filter of [route_message]
    keep their order, each has a healthy status, and after the filter the
    breaker of each is closed or half-open, never open: a message is
    never handed to an agent behind an open breaker. *)
Theorem health_filter_excludes_open_breakers :
  forall (now : Time.datetime) (ids healthy : list string)
         (st st1 : CentralRouter.router),
    CentralRouter.healthy_filter now ids st = (CentralRouter.Ret healthy, st1) ->
    healthy `sublist_of` ids /\
    forall id, id ∈ healthy ->
      exists a cb,
        CentralRouter.agents st !! id = Some a /\
        CentralRouter.status a = CentralRouter.HEALTHY /\
        CentralRouter.circuit_breakers st1 !! id = Some cb /\
        CircuitBreaker.state cb <> CircuitBreaker.Open.
Proof. intros now ids healthy st st1. apply healthy_filter_sound. Qed.

Lemma health_filter_excludes_open_breakers_witness :
  let E := CentralRouter.quiet_env in
  let st := CentralRouter.register_agent E
              (CentralRouter.set_status CentralRouter.DEGRADED
                 (CentralRouter.fresh_agent "b" "analyst" [] 0))
              (CentralRouter.register_agent E
                 (CentralRouter.fresh_agent "a" "analyst" [] 0)
                 CentralRouter.init) in
  ["a"] `sublist_of` ["a"; "b"].
Proof.
  intros E st.
  apply (health_filter_excludes_open_breakers 0 ["a"; "b"] ["a"] st
           (snd (CentralRouter.healthy_filter 0 ["a"; "b"] st))).
  vm_compute. reflexivity.
Defined.

(** ** Central router: what [route_message] does to the transport *)

Section RouteAttempts.

Import CentralRouter.
Context (E : env).

Lemma healthy_filter_world now ids : forall st r st1,
  healthy_filter now ids st = (r, st1) -> same_world st st1.
Proof.
  induction ids as [|id ids IH]; intros st r st1 Hrun.
  - cbn in Hrun. by injection Hrun as _ <-.
  - cbn [healthy_filter] in Hrun. unfold bind at 1, subscript in Hrun.
    destruct (agents st !! id) as [a|]; [|by injection Hrun as _ <-].
    unfold bind at 1 in Hrun.
    destruct (decide (status a = HEALTHY)) as [Hh|Hh].
    + unfold bind at 1, subscript in Hrun.
      destruct (circuit_breakers st !! id) as [cb0|];
        [|by injection Hrun as _ <-].
      destruct (CircuitBreaker.can_execute now cb0) as [ok cb'].
      unfold bind at 1, modify, ret in Hrun.
      unfold bind at 1 in Hrun.
      destruct (healthy_filter now ids _) as [[rest|err] st'] eqn:Hrest;
        injection Hrun as _ <-; by apply IH in Hrest.
    + unfold ret at 1 in Hrun. unfold bind at 1 in Hrun.
      destruct (healthy_filter now ids st) as [[rest|err] st'] eqn:Hrest;
        injection Hrun as _ <-; by apply IH in Hrest.
Qed.

Lemma route_message_attempts now msg dt di strategy st :
  let res := route_message E now msg dt di strategy st in
  (attempted st (snd res) [] /\ fst res = false) \/
  (exists id ok,
      is_Some (agents st !! id) /\
      attempted st (snd res) [(AgentInbox id, ok)] /\ fst res = ok) \/
  (exists id1 id2 ok2,
      is_Some (agents st !! id1) /\ is_Some (agents st !! id2) /\
      id2 <> id1 /\
      attempted st (snd res) [(AgentInbox id1, false); (AgentInbox id2, ok2)] /\
      fst res = ok2).
Proof.
  intros res. subst res. unfold attempted.
  destruct (route_message E now msg dt di strategy st) as [b st'] eqn:Hres.
  cbn [fst snd].
  unfold route_message, try_except, route_body in Hres.
  unfold bind at 1, get in Hres.
  destruct (destinations msg dt di st) as [|d ds] eqn:Hdest.
  { injection Hres as <- <-. left. by rewrite app_nil_r. }
  rewrite <- Hdest in Hres.
  unfold bind at 1 in Hres.
  destruct (healthy_filter now (destinations msg dt di st) st)
    as [[healthy|err] st1] eqn:Hfilter.
  2:{ apply healthy_filter_world in Hfilter as [_ Hpub].
      injection Hres as <- <-. left. cbn. by rewrite Hpub, app_nil_r. }
  destruct (healthy_filter_frame now _ _ _ _ Hfilter)
    as ((Hag1 & Hpub1) & _ & Hin).
  destruct (decide (healthy = [])) as [->|Hne].
  { injection Hres as <- <-. left. by rewrite Hpub1, app_nil_r. }
  rewrite (match_nonempty _ _ _ Hne) in Hres.
  unfold bind at 1 in Hres.
  destruct (_select_agent E healthy strategy st1) as [[sel|err] st2] eqn:Hsel.
  2:{ destruct (select_frame E _ _ _ _ _ Hsel) as ((_ & Hpub2) & _).
      injection Hres as <- <-. left. cbn. by rewrite Hpub2, Hpub1, app_nil_r. }
  destruct (select_frame E _ _ _ _ _ Hsel) as ((Hag2 & Hpub2) & Hcb2 & Hsel_in).
  specialize (Hsel_in sel eq_refl).
  destruct (Hin sel Hsel_in) as (_ & Hreg & [cb Hcb]).
  assert (is_Some (agents st2 !! sel)) as Hreg2 by (by rewrite Hag2, Hag1).
  destruct (deliver_spec E sel st2 Hreg2) as (st3 & Hdel & Hpub3 & Hcb3 & Hag3).
  rewrite Hpub2, Hpub1 in Hdel, Hpub3.
  unfold bind at 1, total at 1 in Hres. rewrite Hdel in Hres.
  destruct (publish_ok E (length (published st)) (AgentInbox sel)) eqn:Hok.
  - unfold bind at 1, modify at 1 in Hres. unfold bind at 1 in Hres.
    rewrite (breaker_success_spec sel cb) in Hres
      by (by cbn; rewrite Hcb3, Hcb2).
    unfold ret in Hres. injection Hres as <- <-.
    right. left. exists sel, true. cbn. by rewrite Hpub3.
  - unfold bind at 1, modify at 1 in Hres. unfold bind at 1 in Hres.
    rewrite (breaker_failure_spec now sel cb) in Hres
      by (by cbn; rewrite Hcb3, Hcb2).
    set (st4 := set_circuit_breakers _ _) in *.
    assert (published st4 = published st ++ [(AgentInbox sel, false)])
      as Hpub4 by (by unfold st4; cbn; rewrite Hpub3).
    destruct (1 <? length healthy)%nat.
    2:{ injection Hres as <- <-. right. left. by exists sel, false. }
    set (others := List.filter (fun a => negb (bool_decide (a = sel))) healthy)
      in *.
    unfold bind at 1 in Hres.
    destruct (_select_agent E others strategy st4) as [[alt|err] st5] eqn:Halt.
    2:{ destruct (select_frame E _ _ _ _ _ Halt) as ((_ & Hpub5) & _).
        injection Hres as <- <-. right. left. exists sel, false. cbn.
        by rewrite Hpub5, Hpub4. }
    destruct (select_frame E _ _ _ _ _ Halt)
      as ((Hag5 & Hpub5) & Hcb5 & Halt_in).
    specialize (Halt_in alt eq_refl).
    apply list_elem_of_In, filter_In in Halt_in as [Halt_in Hneq].
    apply negb_true_iff, bool_decide_eq_false in Hneq.
    apply list_elem_of_In in Halt_in.
    destruct (Hin alt Halt_in) as (_ & Hareg & _).
    destruct (deliver_spec E alt st5) as (st6 & Hdel6 & Hpub6 & _ & _).
    { rewrite Hag5. unfold st4. cbn. apply Hag3. by rewrite Hag2, Hag1. }
    unfold total in Hres. rewrite Hdel6 in Hres. injection Hres as <- <-.
    right. right. eexists sel, alt, _. split; [done|]. split; [done|].
    split; [done|]. split; [|reflexivity].
    rewrite Hpub6, Hpub5, Hpub4, <- app_assoc. done.
Qed.

End RouteAttempts.

(** X10.  Whatever its arguments and the state of the router,
    [route_message] hands the transport no message, one message or two,
    each for the inbox of a registered agent; a second message only
    follows a first one that failed and goes to a different agent; and the
    call returns true exactly when the last message it handed over was
    accepted. *)
Theorem route_returns_last_delivery_outcome :
  forall (E : CentralRouter.env) (now : Time.datetime)
         (msg : CentralRouter.message)
         (destination_type destination_id : option string)
         (strategy : CentralRouter.RoutingStrategy)
         (st : CentralRouter.router),
    let res := CentralRouter.route_message E now msg destination_type
                 destination_id strategy st in
    exists attempts,
      CentralRouter.published (snd res)
      = CentralRouter.published st ++ attempts /\
      (length attempts <= 2)%nat /\
      (forall t ok, (t, ok) ∈ attempts ->
         exists id, t = CentralRouter.AgentInbox id /\
                    is_Some (CentralRouter.agents st !! id)) /\
      (forall t1 ok1 t2 ok2, attempts = [(t1, ok1); (t2, ok2)] ->
         ok1 = false /\ t1 <> t2) /\
      (fst res = true <-> exists t, last attempts = Some (t, true)).
Proof.
  intros E now msg dt di strategy st res.
  destruct (route_message_attempts E now msg dt di strategy st)
    as [[Hatt Hres]|[(id & ok & Hreg & Hatt & Hres)
                    |(id1 & id2 & ok2 & Hreg1 & Hreg2 & Hne & Hatt & Hres)]];
    fold res in Hatt, Hres; unfold CentralRouter.attempted in Hatt.
  - exists []. split; [done|]. split; [cbn; lia|].
    split; [by intros ? ? ?%elem_of_nil|]. split; [done|].
    rewrite Hres. split; [done|]. by intros [? ?].
  - exists [(CentralRouter.AgentInbox id, ok)]. split; [done|].
    split; [cbn; lia|]. split.
    { intros t ok' [= -> ->]%list_elem_of_singleton. by exists id. }
    split; [done|]. rewrite Hres. cbn. split.
    + intros ->. by eexists.
    + by intros [? [= _ ->]].
  - exists [(CentralRouter.AgentInbox id1, false);
            (CentralRouter.AgentInbox id2, ok2)].
    split; [done|]. split; [cbn; lia|]. split.
    { intros t ok' [[= -> ->]|[= -> ->]%list_elem_of_singleton]%elem_of_cons;
        eauto. }
    split.
    { intros ? ? ? ? [= <- <- <- <-]. split; [done|]. congruence. }
    rewrite Hres. cbn. split.
    + intros ->. by eexists.
    + by intros [? [= _ ->]].
Qed.

Lemma route_returns_last_delivery_outcome_witness :
  let E := CentralRouter.unreachable "b" in
  let st := CentralRouter.register_agent E
              (CentralRouter.fresh_agent "b" "analyst" ["charts"] 0)
              (CentralRouter.register_agent E
                 (CentralRouter.fresh_agent "a" "analyst" ["charts"] 0)
                 CentralRouter.init) in
  let res := CentralRouter.route_message E 0
               (CentralRouter.mkMessage (Some "m1") None)
               (Some "analyst") None CentralRouter.ROUND_ROBIN st in
  exists attempts,
    CentralRouter.published (snd res)
    = CentralRouter.published st ++ attempts /\
    exists t, last attempts = Some (t, true).
Proof.
  intros E st res.
  destruct (route_returns_last_delivery_outcome E 0
              (CentralRouter.mkMessage (Some "m1") None)
              (Some "analyst") None CentralRouter.ROUND_ROBIN st)
    as (attempts & Hpub & _ & _ & _ & Hiff).
  exists attempts. split; [exact Hpub|]. apply Hiff. vm_compute. reflexivity.
Defined.

Section RouteRefusals.

Import CentralRouter.
Context (E : env).

Lemma route_without_destination now msg dt di strategy st :
  destinations msg dt di st = [] ->
  route_message E now msg dt di strategy st = (false, st).
Proof.
  intros Hd. unfold route_message, try_except, route_body.
  unfold bind at 1, get. by rewrite Hd.
Qed.

Lemma healthy_filter_none_healthy now ids st :
  (forall id, id ∈ ids ->
     exists a, agents st !! id = Some a /\ status a <> HEALTHY) ->
  healthy_filter now ids st = (Ret [], st).
Proof.
  induction ids as [|id ids IH]; intros Hall; [done|].
  destruct (Hall id) as (a & Ha & Hst); [apply elem_of_cons; by left|].
  cbn [healthy_filter]. unfold bind at 1, subscript. rewrite Ha.
  unfold bind at 1. rewrite decide_False by done. unfold ret at 1.
  unfold bind at 1. rewrite IH; [done|].
  intros k Hk. apply Hall, elem_of_cons. by right.
Qed.

Lemma healthy_filter_raises now ids : forall st,
  (exists id, id ∈ ids /\ agents st !! id = None) ->
  exists e st1, healthy_filter now ids st = (Raise e, st1) /\
                stats st1 = stats st.
Proof.
  induction ids as [|id ids IH]; intros st (k & Hk & Hnone).
  - by apply elem_of_nil in Hk.
  - cbn [healthy_filter]. unfold bind at 1, subscript.
    destruct (agents st !! id) as [a|] eqn:Ha; [|by eexists _, _].
    assert (k ∈ ids) as Hk'.
    { apply elem_of_cons in Hk as [->|]; [congruence|done]. }
    unfold bind at 1.
    destruct (decide (status a = HEALTHY)) as [Hh|Hh].
    + unfold bind at 1, subscript.
      destruct (circuit_breakers st !! id) as [cb0|]; [|by eexists _, _].
      destruct (CircuitBreaker.can_execute now cb0) as [ok cb'].
      unfold bind at 1, modify, ret.
      set (st0 := set_circuit_breakers (insert id cb') st).
      destruct (IH st0) as (e & st1 & Hrun & Hstats); [by exists k|].
      unfold bind at 1. rewrite Hrun. by eexists _, _.
    + unfold ret at 1. unfold bind at 1.
      destruct (IH st) as (e & st1 & Hrun & Hstats); [by exists k|].
      rewrite Hrun. by eexists _, _.
Qed.

End RouteRefusals.

(** X11.  [route_message] returns false and leaves the router exactly as
    it was when the destination does not resolve - an explicit
    [destination_id] that is not registered (a [destination_type] given
    next to it is not consulted), or no id, type or required capability at
    all - and when every resolved candidate is registered with a status
    other than healthy. *)
Theorem route_refusal_changes_nothing :
  forall (E : CentralRouter.env) (now : Time.datetime)
         (msg : CentralRouter.message)
         (destination_type destination_id : option string)
         (strategy : CentralRouter.RoutingStrategy)
         (st : CentralRouter.router),
    let res := CentralRouter.route_message E now msg destination_type
                 destination_id strategy st in
    (forall id, Py.truthy destination_id = Some id ->
                CentralRouter.agents st !! id = None -> res = (false, st)) /\
    (Py.truthy destination_id = None ->
     Py.truthy destination_type = None ->
     Py.truthy (CentralRouter.required_capability msg) = None ->
     res = (false, st)) /\
    ((forall id,
        id ∈ CentralRouter.destinations msg destination_type destination_id st ->
        exists a, CentralRouter.agents st !! id = Some a /\
                  CentralRouter.status a <> CentralRouter.HEALTHY) ->
     res = (false, st)).
Proof.
  intros E now msg dt di strategy st res. unfold res. split; [|split].
  - intros id Hid Hnone. apply route_without_destination.
    unfold CentralRouter.destinations. rewrite Hid.
    rewrite decide_False; [done|]. rewrite Hnone. by intros [? ?].
  - intros Hdi Hdt Hcap. apply route_without_destination.
    unfold CentralRouter.destinations. by rewrite Hdi, Hdt, Hcap.
  - intros Hall.
    destruct (CentralRouter.destinations msg dt di st) as [|d ds] eqn:Hd;
      [by apply route_without_destination|].
    unfold CentralRouter.route_message, CentralRouter.try_except,
      CentralRouter.route_body.
    unfold CentralRouter.bind at 1, CentralRouter.get. rewrite Hd.
    unfold CentralRouter.bind at 1.
    by rewrite (healthy_filter_none_healthy now (d :: ds) st Hall).
Qed.

Lemma route_refusal_changes_nothing_witness :
  let E := CentralRouter.quiet_env in
  let st := CentralRouter.register_agent E
              (CentralRouter.fresh_agent "a" "analyst" ["charts"] 0)
              CentralRouter.init in
  CentralRouter.route_message E 0 (CentralRouter.mkMessage None None)
    (Some "analyst") (Some "ghost") CentralRouter.ROUND_ROBIN st
  = (false, st).
Proof.
  intros E st.
  destruct (route_refusal_changes_nothing E 0
              (CentralRouter.mkMessage None None) (Some "analyst")
              (Some "ghost") CentralRouter.ROUND_ROBIN st) as (H & _).
  apply (H "ghost"); reflexivity.
Defined.

(** X12.  When the resolved candidates include an id that has no profile
    (an index entry left behind), [route_message] returns false, hands
    nothing to the transport and counts one routing error, whatever the
    other candidates are. *)
Theorem route_fails_on_stale_index_entry :
  forall (E : CentralRouter.env) (now : Time.datetime)
         (msg : CentralRouter.message)
         (destination_type destination_id : option string)
         (strategy : CentralRouter.RoutingStrategy)
         (st : CentralRouter.router) (stale : string),
    stale ∈ CentralRouter.destinations msg destination_type destination_id st ->
    CentralRouter.agents st !! stale = None ->
    let res := CentralRouter.route_message E now msg destination_type
                 destination_id strategy st in
    fst res = false /\
    CentralRouter.published (snd res) = CentralRouter.published st /\
    CentralRouter.agents (snd res) = CentralRouter.agents st /\
    CentralRouter.routing_errors (CentralRouter.stats (snd res))
    = CentralRouter.routing_errors (CentralRouter.stats st) + 1.
Proof.
  intros E now msg dt di strategy st stale Hin Hnone res. unfold res.
  destruct (CentralRouter.destinations msg dt di st) as [|d ds] eqn:Hd;
    [by apply elem_of_nil in Hin|].
  destruct (healthy_filter_raises now (d :: ds) st) as (e & st1 & Hrun & Hstats);
    [by exists stale|].
  destruct (healthy_filter_world now _ _ _ _ Hrun) as [Hag Hpub].
  assert (CentralRouter.route_message E now msg dt di strategy st
          = (false, CentralRouter.set_stats CentralRouter.bump_routing_errors
                      st1)) as ->.
  { unfold CentralRouter.route_message, CentralRouter.try_except,
      CentralRouter.route_body.
    unfold CentralRouter.bind at 1, CentralRouter.get. rewrite Hd.
    unfold CentralRouter.bind at 1. by rewrite Hrun. }
  cbn. by rewrite Hstats.
Qed.

Lemma route_fails_on_stale_index_entry_witness :
  let E := CentralRouter.quiet_env in
  let a := CentralRouter.fresh_agent "a" "analyst" ["charts"] 0 in
  let b := CentralRouter.fresh_agent "b" "analyst" ["charts"] 0 in
  let st := CentralRouter.register_agent E b
              (snd (CentralRouter._unregister_agent "a"
                      (CentralRouter.register_agent E a
                         (CentralRouter.register_agent E a
                            CentralRouter.init)))) in
  fst (CentralRouter.route_message E 0 (CentralRouter.mkMessage None None)
         (Some "analyst") None CentralRouter.ROUND_ROBIN st) = false.
Proof.
  intros E a b st.
  apply (route_fails_on_stale_index_entry E 0
           (CentralRouter.mkMessage None None) (Some "analyst") None
           CentralRouter.ROUND_ROBIN st "a").
  - vm_compute. apply elem_of_cons. by left.
  - vm_compute. reflexivity.
Defined.

(** ** Central router: broadcast *)

Lemma dict_keys_elem {V} (keys : list string) (d : gmap string V) id :
  Py.dict_keys keys d -> (id ∈ keys <-> is_Some (d !! id)).
Proof.
  unfold Py.dict_keys. intros ->. rewrite list_elem_of_fmap. split.
  - intros ([k v] & -> & Hkv). apply elem_of_map_to_list in Hkv. by exists v.
  - intros [v Hv]. exists (id, v). split; [done|].
    by apply elem_of_map_to_list.
Qed.

Lemma dict_keys_NoDup {V} (keys : list string) (d : gmap string V) :
  Py.dict_keys keys d -> NoDup keys.
Proof. unfold Py.dict_keys. intros ->. apply NoDup_fst_map_to_list. Qed.

Section BroadcastFacts.

Import CentralRouter.
Context (E : env).

Lemma deliver_unknown id st :
  agents st !! id = None -> _deliver_message E id st = (false, st).
Proof. intros H. unfold _deliver_message. by rewrite H. Qed.

Lemma deliver_registered id st k :
  is_Some (agents (snd (_deliver_message E id st)) !! k)
  <-> is_Some (agents st !! k).
Proof.
  unfold _deliver_message. destruct (agents st !! id); [|done].
  unfold publish. destruct (publish_ok _ _ _); cbn; [|done].
  apply lookup_alter_is_Some.
Qed.

Lemma deliver_each targets : forall st,
  let st' := fold_left (fun s id => snd (_deliver_message E id s)) targets st in
  exists outcomes,
    published st' = published st ++ outcomes /\
    map fst outcomes
    = map AgentInbox
        (List.filter (fun id => bool_decide (is_Some (agents st !! id)))
           targets) /\
    circuit_breakers st' = circuit_breakers st /\
    forall k, is_Some (agents st' !! k) <-> is_Some (agents st !! k).
Proof.
  induction targets as [|id targets IH]; intros st; cbn [fold_left].
  - exists []. by rewrite app_nil_r.
  - destruct (IH (snd (_deliver_message E id st)))
      as (outcomes & Hpub & Hmap & Hcb & Hdom).
    assert (List.filter
              (fun k => bool_decide
                 (is_Some (agents (snd (_deliver_message E id st)) !! k)))
              targets
            = List.filter (fun k => bool_decide (is_Some (agents st !! k)))
                targets) as Hfilter.
    { apply filter_ext. intros k. apply bool_decide_ext, deliver_registered. }
    rewrite Hfilter in Hmap. cbn [List.filter].
    destruct (agents st !! id) as [a|] eqn:Ha.
    + destruct (deliver_spec E id st) as (st1 & Hdel & Hpub1 & Hcb1 & _);
        [by rewrite Ha|].
      rewrite Hdel in Hpub, Hcb, Hdom. cbn [snd] in Hpub, Hcb, Hdom.
      eexists (_ :: outcomes). rewrite Hdel. cbn [snd].
      rewrite Hpub, Hpub1, <- app_assoc. split; [done|].
      rewrite bool_decide_eq_true_2 by done. cbn. rewrite Hmap.
      split; [done|]. split; [by rewrite Hcb, Hcb1|].
      intros k. rewrite Hdom.
      pose proof (deliver_registered id st k) as Hk.
      by rewrite Hdel in Hk.
    + rewrite (deliver_unknown id st Ha) in *. cbn [snd] in *.
      exists outcomes. rewrite bool_decide_eq_false_2; [done|].
      by intros [? ?].
Qed.

End BroadcastFacts.

(** X13.  A broadcast attempts exactly one delivery for each target that
    is registered, in the order of the targets and whatever the outcome of
    the earlier deliveries; it consults and changes no circuit breaker;
    and without a type filter, whatever the order [keys] in which the dict
    lists the registered ids, it attempts one delivery per registered
    agent, in that order and whatever the agent's status. *)
Theorem broadcast_attempts_every_target :
  forall (E : CentralRouter.env) (keys types : list string)
         (st : CentralRouter.router),
    Py.dict_keys keys (CentralRouter.agents st) ->
    let st' := CentralRouter._handle_broadcast_message E keys types st in
    exists outcomes,
      CentralRouter.published st' = CentralRouter.published st ++ outcomes /\
      map fst outcomes
      = map CentralRouter.AgentInbox
          (List.filter
             (fun id => bool_decide (is_Some (CentralRouter.agents st !! id)))
             (CentralRouter.broadcast_targets keys types st)) /\
      CentralRouter.circuit_breakers st' = CentralRouter.circuit_breakers st /\
      (types = [] ->
       map fst outcomes = map CentralRouter.AgentInbox keys /\
       length outcomes = size (CentralRouter.agents st)).
Proof.
  intros E keys types st Hkeys st'.
  destruct (deliver_each E (CentralRouter.broadcast_targets keys types st) st)
    as (outcomes & Hpub & Hmap & Hcb & _).
  exists outcomes. split; [exact Hpub|]. split; [exact Hmap|].
  split; [exact Hcb|]. intros ->.
  cbn [CentralRouter.broadcast_targets] in Hmap.
  rewrite forallb_filter_id in Hmap.
  - split; [exact Hmap|].
    apply (f_equal length) in Hmap. rewrite !length_map in Hmap.
    rewrite Hmap. unfold Py.dict_keys in Hkeys.
    by rewrite Hkeys, length_map, length_map_to_list.
  - apply forallb_forall. intros id Hin. apply bool_decide_eq_true_2.
    apply (dict_keys_elem _ _ _ Hkeys). by apply list_elem_of_In.
Qed.

Lemma broadcast_attempts_every_target_witness :
  let E := CentralRouter.unreachable "a" in
  let st := CentralRouter.register_agent E
              (CentralRouter.set_status CentralRouter.OFFLINE
                 (CentralRouter.fresh_agent "b" "analyst" [] 0))
              (CentralRouter.register_agent E
                 (CentralRouter.fresh_agent "a" "analyst" [] 0)
                 CentralRouter.init) in
  exists outcomes,
    CentralRouter.published
      (CentralRouter._handle_broadcast_message E ["a"; "b"] [] st)
    = CentralRouter.published st ++ outcomes /\
    map fst outcomes
    = [CentralRouter.AgentInbox "a"; CentralRouter.AgentInbox "b"].
Proof.
  intros E st.
  destruct (broadcast_attempts_every_target E ["a"; "b"] [] st)
    as (outcomes & Hpub & _ & _ & Horder).
  - unfold Py.dict_keys. vm_compute. reflexivity.
  - exists outcomes. split; [exact Hpub|]. by destruct Horder.
Defined.

(** ** Central router: what the cleanup pass leaves alone *)

Section CleanupFrame.

Import CentralRouter.

Lemma unregister_agent_lookup id st r st' :
  _unregister_agent id st = (r, st') ->
  forall k, agents st' !! k = agents st !! k \/
            (k = id /\ agents st' !! k = None).
Proof.
  unfold _unregister_agent. destruct (agents st !! id) as [a|] eqn:Ha.
  - destruct (Py.remove id _) as [l|]; intros [= <- <-] k; [|by left].
    set (st1 := set_agent_types _ st).
    destruct (drop_capabilities_frame id (capabilities a) st1) as (Hag & _).
    cbn [agents set_agents set_circuit_breakers]. rewrite Hag. cbn.
    destruct (decide (k = id)) as [->|Hne].
    + right. split; [done|apply lookup_delete_eq].
    + left. by apply lookup_delete_ne.
  - intros [= <- <-] k. by left.
Qed.

Lemma unregister_each_lookup ids : forall st r st',
  for_each _unregister_agent ids st = (r, st') ->
  forall k, agents st' !! k = agents st !! k \/
            (k ∈ ids /\ agents st' !! k = None).
Proof.
  induction ids as [|id ids IH]; intros st r st' Hrun k.
  - cbn in Hrun. injection Hrun as _ <-. by left.
  - cbn [for_each] in Hrun. unfold bind in Hrun.
    destruct (_unregister_agent id st) as [[[]|err] st1] eqn:Hun.
    + destruct (IH _ _ _ Hrun k) as [Heq|[Hin Hnone]].
      * destruct (unregister_agent_lookup _ _ _ _ Hun k) as [Heq'|[-> Hnone]].
        -- left. by rewrite Heq.
        -- right. split; [apply elem_of_cons; by left|by rewrite Heq].
      * right. split; [apply elem_of_cons; by right|done].
    + injection Hrun as _ <-.
      destruct (unregister_agent_lookup _ _ _ _ Hun k) as [Heq'|[-> Hnone]].
      * by left.
      * right. split; [apply elem_of_cons; by left|done].
Qed.

End CleanupFrame.

(** X14.  A cleanup pass only removes: with no assumption on the router,
    so also when an unregistration raises and ends the pass early, every
    profile that is not offline or whose last heartbeat is at most 5
    minutes old is still there unchanged after the pass, and every
    profile found after the pass was there before it. *)
Theorem cleanup_pass_only_evicts_expired :
  forall (now : Time.datetime) (st : CentralRouter.router) (id : string),
    (forall a, CentralRouter.agents st !! id = Some a ->
               CentralRouter.expired now a = false ->
               CentralRouter.agents (CentralRouter.cleanup_pass now st) !! id
               = Some a) /\
    (forall a, CentralRouter.agents (CentralRouter.cleanup_pass now st) !! id
               = Some a ->
               CentralRouter.agents st !! id = Some a).
Proof.
  intros now st id. unfold CentralRouter.cleanup_pass.
  destruct (CentralRouter.for_each CentralRouter._unregister_agent
              (CentralRouter.offline_agents now st) st) as [r st'] eqn:Hrun.
  cbn [snd].
  destruct (unregister_each_lookup _ _ _ _ Hrun id) as [Heq|[Hin Hnone]].
  - rewrite Heq. by split.
  - split.
    + intros a Ha Hexp. exfalso.
      apply elem_of_offline_agents in Hin as (b & Hb & Hexpb). congruence.
    + intros a Ha. congruence.
Qed.

Lemma cleanup_pass_only_evicts_expired_witness :
  let a := CentralRouter.fresh_agent "a" "analyst" ["charts"] 0 in
  let st := CentralRouter.register_agent CentralRouter.quiet_env a
              CentralRouter.init in
  CentralRouter.agents
    (CentralRouter.cleanup_pass (Time.of_seconds 1000) st) !! "a" = Some a.
Proof.
  intros a st.
  destruct (cleanup_pass_only_evicts_expired (Time.of_seconds 1000) st "a")
    as [H _].
  apply H; reflexivity.
Defined.

(** ** Capability registry: registration, lookup, removal *)

Section CapabilityRegistry.

Import A2A.

Lemma set_add_elem x l : x ∈ set_add x l.
Proof.
  unfold set_add. case_decide; [done|]. apply elem_of_app. right.
  by apply list_elem_of_singleton.
Qed.

Lemma set_add_idem x l : set_add x (set_add x l) = set_add x l.
Proof.
  unfold set_add at 1. rewrite decide_True; [done|apply set_add_elem].
Qed.

Lemma set_add_NoDup x l : NoDup l -> NoDup (set_add x l).
Proof.
  intros Hnd. unfold set_add. case_decide; [done|].
  apply NoDup_app. split; [done|]. split; [|apply NoDup_singleton].
  intros y Hy ->%list_elem_of_singleton. done.
Qed.

Lemma set_discard_elem x y l : y ∈ set_discard x l <-> y ∈ l /\ y <> x.
Proof.
  unfold set_discard. rewrite !list_elem_of_In, filter_In.
  by rewrite negb_true_iff, bool_decide_eq_false.
Qed.

Lemma set_discard_idem x l : set_discard x (set_discard x l) = set_discard x l.
Proof.
  unfold set_discard. induction l as [|y l IH]; [done|]. cbn.
  destruct (bool_decide (y = x)) eqn:Hy; cbn; [done|]. by rewrite Hy, IH.
Qed.

Lemma index_fold (f : list string -> list string) caps :
  (forall l, f (f l) = f l) ->
  forall idx c,
    fold_left (fun idx c => index_update c f idx) caps idx c
    = if decide (c ∈ caps) then f (idx c) else idx c.
Proof.
  intros Hf. induction caps as [|c' caps IH]; intros idx c; cbn [fold_left].
  - rewrite decide_False; [done|]. by intros ?%elem_of_nil.
  - rewrite IH. unfold index_update.
    destruct (decide (c ∈ caps)) as [Hin|Hnin],
      (decide (c = c')) as [Heq|Hne],
      (decide (c ∈ c' :: caps)) as [Hin'|Hnin']; try done.
    all: try (exfalso; apply Hnin', elem_of_cons; auto; fail).
    all: try (by rewrite Hf).
    apply elem_of_cons in Hin' as [?|?]; done.
Qed.

Lemma unregister_all_lookup ids : forall r k,
  agents (fold_left (fun r id => snd (unregister_agent id r)) ids r) !! k
  = if decide (k ∈ ids) then None else agents r !! k.
Proof.
  induction ids as [|id ids IH]; intros r k; cbn [fold_left].
  - rewrite decide_False; [done|]. by intros ?%elem_of_nil.
  - rewrite IH.
    assert (agents (snd (unregister_agent id r)) = delete id (agents r)) as ->.
    { unfold unregister_agent. destruct (agents r !! id) eqn:Hid; cbn; [done|].
      symmetry. by apply delete_id. }
    destruct (decide (k ∈ ids)) as [Hin|Hnin],
      (decide (k ∈ id :: ids)) as [Hin'|Hnin']; try done.
    + exfalso. apply Hnin', elem_of_cons. by right.
    + apply elem_of_cons in Hin' as [->|?]; [|done]. apply lookup_delete_eq.
    + rewrite lookup_delete_ne; [done|]. intros ->.
      apply Hnin', elem_of_cons. by left.
Qed.

End CapabilityRegistry.

(** X15.  After [AgentRegistry.register_agent] the profile is found under
    its id and by [find_agents_by_capability] for each capability it
    declares; an index entry without duplicates stays without duplicates;
    and registering the same profile a second time changes neither the
    profiles nor any index entry. *)
Theorem capability_registration_is_idempotent :
  forall (p : A2A.AgentProfile) (r : A2A.AgentRegistry),
    let r1 := A2A.register_agent p r in
    A2A.agents r1 !! A2A.agent_id p = Some p /\
    (forall c, c ∈ A2A.capabilities p ->
       A2A.agent_id p ∈ A2A.capabilities_index r1 c /\
       p ∈ A2A.find_agents_by_capability c r1) /\
    (forall c, NoDup (A2A.capabilities_index r c) ->
               NoDup (A2A.capabilities_index r1 c)) /\
    A2A.agents (A2A.register_agent p r1) = A2A.agents r1 /\
    (forall c, A2A.capabilities_index (A2A.register_agent p r1) c
               = A2A.capabilities_index r1 c).
Proof.
  intros p r r1. unfold r1, A2A.register_agent.
  cbn [A2A.agents A2A.capabilities_index].
  pose proof (index_fold (A2A.set_add (A2A.agent_id p)) (A2A.capabilities p)
                (set_add_idem (A2A.agent_id p))) as Hidx.
  split; [apply lookup_insert_eq|]. split; [|split; [|split]].
  - intros c Hc. rewrite Hidx, decide_True by done.
    split; [apply set_add_elem|].
    unfold A2A.find_agents_by_capability. cbn [A2A.agents A2A.capabilities_index].
    apply list_elem_of_omap. exists (A2A.agent_id p).
    split; [|apply lookup_insert_eq].
    rewrite Hidx, decide_True by done. apply set_add_elem.
  - intros c Hnd. rewrite Hidx. case_decide; [by apply set_add_NoDup|done].
  - apply insert_insert_eq.
  - intros c. rewrite !Hidx. case_decide; [apply set_add_idem|done].
Qed.

Lemma capability_registration_is_idempotent_witness :
  let p := A2A.mkProfile "agent_1" "technical"
             [A2A.TECHNICAL_ANALYSIS; A2A.MARKET_DATA]
             (9 # 10) (9 # 10) (1 # 10) 10 None "active" in
  p ∈ A2A.find_agents_by_capability A2A.MARKET_DATA
        (A2A.register_agent p A2A.empty_registry).
Proof.
  intros p.
  destruct (capability_registration_is_idempotent p A2A.empty_registry)
    as (_ & Hfind & _).
  apply Hfind. apply elem_of_cons. right. apply elem_of_cons. by left.
Defined.

(** X16.  [AgentRegistry.unregister_agent] returns false and changes
    nothing for an id that is not registered.  For a registered id it
    returns true, removes the profile, takes the id out of the index entry
    of every capability the profile declares, and from then on
    [find_agents_by_capability] returns no profile stored under that id,
    for whatever capability. *)
Theorem capability_unregistration :
  forall (id : string) (r : A2A.AgentRegistry),
    let res := A2A.unregister_agent id r in
    (A2A.agents r !! id = None -> res = (false, r)) /\
    (forall p, A2A.agents r !! id = Some p ->
       fst res = true /\
       A2A.agents (snd res) = delete id (A2A.agents r) /\
       (forall c, c ∈ A2A.capabilities p ->
                  id ∉ A2A.capabilities_index (snd res) c) /\
       (forall c q, q ∈ A2A.find_agents_by_capability c (snd res) ->
          exists k, k <> id /\ A2A.agents r !! k = Some q)).
Proof.
  intros id r res. unfold res, A2A.unregister_agent. split.
  - by intros ->.
  - intros p ->. cbn [fst snd A2A.agents A2A.capabilities_index].
    pose proof (index_fold (A2A.set_discard id) (A2A.capabilities p)
                  (set_discard_idem id)) as Hidx.
    split; [done|]. split; [done|]. split.
    + intros c Hc. rewrite Hidx, decide_True by done.
      intros [_ Hne]%set_discard_elem. done.
    + intros c q Hq. unfold A2A.find_agents_by_capability in Hq.
      cbn [A2A.agents A2A.capabilities_index] in Hq.
      apply list_elem_of_omap in Hq as (k & _ & Hk).
      apply lookup_delete_Some in Hk as [Hne Hk]. by exists k.
Qed.

Lemma capability_unregistration_witness :
  let p := A2A.mkProfile "agent_1" "technical" [A2A.TECHNICAL_ANALYSIS]
             (9 # 10) (9 # 10) (1 # 10) 10 None "active" in
  let r := A2A.register_agent p A2A.empty_registry in
  fst (A2A.unregister_agent "agent_1" r) = true /\
  A2A.unregister_agent "agent_2" r = (false, r).
Proof.
  intros p r.
  destruct (capability_unregistration "agent_1" r) as [_ Hknown].
  destruct (capability_unregistration "agent_2" r) as [Hunknown _].
  split.
  - destruct (Hknown p) as [H _]; [reflexivity | exact H].
  - apply Hunknown. reflexivity.
Defined.

(** X17.  [cleanup_stale_agents] removes exactly the profiles whose last
    heartbeat is older than the cutoff [now - timeout]: a profile whose
    heartbeat is at the cutoff or later stays as it is, a profile that has
    never had a heartbeat is never removed, and a profile whose status
    was updated at most [timeout] before the cleanup survives it. *)
Theorem stale_cleanup_removes_exactly_the_stale :
  forall (now : Time.datetime) (timeout_minutes : Z) (r : A2A.AgentRegistry)
         (id : string),
    let cutoff := now - Time.of_minutes timeout_minutes in
    let r' := A2A.cleanup_stale_agents now timeout_minutes r in
    A2A.agents r' !! id
    = match A2A.agents r !! id with
      | Some p => if A2A.stale cutoff p then None else Some p
      | None => None
      end /\
    (forall p, A2A.agents r !! id = Some p ->
               A2A.last_heartbeat p = None -> A2A.agents r' !! id = Some p) /\
    (forall earlier status load,
       is_Some (A2A.agents r !! id) ->
       cutoff <= earlier ->
       is_Some (A2A.agents
                  (A2A.cleanup_stale_agents now timeout_minutes
                     (A2A.update_agent_status earlier id status load r))
                !! id)).
Proof.
  intros now minutes r id cutoff r'.
  assert (forall r0 k,
            A2A.agents (A2A.cleanup_stale_agents now minutes r0) !! k
            = match A2A.agents r0 !! k with
              | Some p => if A2A.stale cutoff p then None else Some p
              | None => None
              end) as Hlook.
  { intros r0 k. unfold A2A.cleanup_stale_agents. rewrite unregister_all_lookup.
    fold cutoff.
    destruct (decide (k ∈ map fst
                (List.filter (fun item => A2A.stale cutoff (snd item))
                   (map_to_list (A2A.agents r0))))) as [Hin|Hnin].
    - apply list_elem_of_In, in_map_iff in Hin as ([k' p] & <- & Hin).
      apply filter_In in Hin as [Hin Hstale].
      apply list_elem_of_In, elem_of_map_to_list in Hin.
      cbn in *. by rewrite Hin, Hstale.
    - destruct (A2A.agents r0 !! k) as [p|] eqn:Hk; [|done].
      destruct (A2A.stale cutoff p) eqn:Hstale; [|done].
      exfalso. apply Hnin, list_elem_of_In, in_map_iff. exists (k, p).
      split; [done|]. apply filter_In. split; [|done].
      by apply list_elem_of_In, elem_of_map_to_list. }
  split; [apply Hlook|]. split.
  - intros p Hp Hhb. unfold r'. rewrite Hlook, Hp. unfold A2A.stale.
    by rewrite Hhb.
  - intros earlier status load [p Hp] Hcut. rewrite Hlook.
    unfold A2A.update_agent_status. cbn [A2A.agents].
    rewrite lookup_alter_eq, Hp. cbn. unfold A2A.stale. cbn.
    destruct (Z.ltb_spec earlier cutoff); [lia|by eexists].
Qed.

Lemma stale_cleanup_removes_exactly_the_stale_witness :
  let p := A2A.mkProfile "agent_1" "technical" [A2A.TECHNICAL_ANALYSIS]
             (9 # 10) (9 # 10) (1 # 10) 10 None "active" in
  let r := A2A.register_agent p A2A.empty_registry in
  A2A.agents (A2A.cleanup_stale_agents (Time.of_minutes 60) 5 r) !! "agent_1"
  = Some p.
Proof.
  intros p r.
  destruct (stale_cleanup_removes_exactly_the_stale (Time.of_minutes 60) 5 r
              "agent_1") as (_ & Hnever & _).
  apply Hnever; reflexivity.
Defined.

(** ** Message router: acceptance, refusal and the watchdog *)

(** X18.  [MessageRouter.route_message] accepts a message exactly when its
    receiver is registered, its [ttl] (if any) has not passed, and a
    handler is registered for the receiver.  A refused message changes
    nothing in the router; an accepted one schedules exactly one delivery,
    of that message, and leaves registry, handlers and, unless it requires
    a response, the pending slots as they were. *)
Theorem message_routing_acceptance :
  forall (now : Time.datetime) (m : A2A.AgentMessage) (mr : A2A.MessageRouter),
    let res := A2A.route_message now m mr in
    (fst res = true <->
     is_Some (A2A.agents (A2A.registry mr) !! A2A.receiver_id m) /\
     (forall t, A2A.ttl m = Some t -> now <= t) /\
     A2A.receiver_id m ∈ A2A.message_handlers mr) /\
    (fst res = false -> snd res = mr) /\
    (fst res = true ->
     A2A.deliveries (snd res) = A2A.deliveries mr ++ [m] /\
     A2A.registry (snd res) = A2A.registry mr /\
     A2A.message_handlers (snd res) = A2A.message_handlers mr /\
     (A2A.requires_response m = false ->
      A2A.pending_responses (snd res) = A2A.pending_responses mr /\
      A2A.timers (snd res) = A2A.timers mr)).
Proof.
  intros now m mr res. unfold res, A2A.route_message.
  destruct (A2A.agents (A2A.registry mr) !! A2A.receiver_id m) as [p|] eqn:Hp.
  2:{ cbn. split; [split; [done|by intros [[? ?] _]]|]. by split. }
  destruct (A2A.ttl m) as [t|] eqn:Httl.
  - destruct (Z.ltb_spec t now) as [Hlate|Hok].
    + cbn. split; [|by split]. split; [done|].
      intros (_ & H & _). specialize (H t eq_refl). lia.
    + destruct (decide (A2A.receiver_id m ∈ A2A.message_handlers mr))
        as [Hh|Hh]; cbn.
      * split; [split; [intros _|done]|].
        { split; [by eexists|]. split; [|done]. by intros ? [= <-]. }
        split; [done|]. intros _.
        destruct (A2A.requires_response m); cbn; [|done].
        unfold A2A._track_pending_response.
        destruct (A2A.response_timeout m) as [n|]; [|done].
        by destruct (decide (n = 0)).
      * split; [split; [done|by intros (_ & _ & ?)]|]. by split.
  - destruct (decide (A2A.receiver_id m ∈ A2A.message_handlers mr))
      as [Hh|Hh]; cbn.
    + split; [split; [intros _|done]|].
      { split; [by eexists|]. by split. }
      split; [done|]. intros _.
      destruct (A2A.requires_response m); cbn; [|done].
      unfold A2A._track_pending_response.
      destruct (A2A.response_timeout m) as [n|]; [|done].
      by destruct (decide (n = 0)).
    + split; [split; [done|by intros (_ & _ & ?)]|]. by split.
Qed.

Lemma message_routing_acceptance_witness :
  let p := A2A.mkProfile "agent_2" "news" [A2A.NEWS_ANALYSIS]
             (9 # 10) (9 # 10) (1 # 10) 10 None "active" in
  let mr := A2A.new_router (A2A.register_agent p A2A.empty_registry) in
  let m := A2A.mkMsg "m1" "agent_1" "agent_2" None false None in
  A2A.route_message 0 m mr = (false, mr).
Proof.
  intros p mr m.
  destruct (message_routing_acceptance 0 m mr) as (_ & Hrefused & _).
  rewrite <- (Hrefused eq_refl) at 2. reflexivity.
Defined.

(** X19.  The watchdog [_handle_response_timeout] touches one slot and one
    future only: the slots of other message ids stay, no future is created
    or dropped, a future that is already done keeps its state, every
    future other than the one the slot held is unchanged, and running it a
    second time for the same id changes nothing. *)
Theorem response_timeout_is_local_and_idempotent :
  forall (id : string) (mr : A2A.MessageRouter),
    let mr' := A2A._handle_response_timeout id mr in
    A2A.pending_responses mr' !! id = None /\
    (forall other, other <> id ->
       A2A.pending_responses mr' !! other = A2A.pending_responses mr !! other) /\
    length (A2A.futures mr') = length (A2A.futures mr) /\
    (forall addr f, A2A.futures mr !! addr = Some f ->
       A2A.done f = true \/ A2A.pending_responses mr !! id <> Some addr ->
       A2A.futures mr' !! addr = Some f) /\
    A2A._handle_response_timeout id mr' = mr'.
Proof.
  intros id mr mr'. unfold mr', A2A._handle_response_timeout.
  destruct (A2A.pending_responses mr !! id) as [addr0|] eqn:Hslot.
  - cbn [A2A.pending_responses A2A.futures].
    rewrite lookup_delete_eq. split; [done|].
    split; [intros other Hne; by apply lookup_delete_ne|].
    split.
    { destruct (A2A.futures mr !! addr0) as [f0|]; [|done].
      destruct (A2A.done f0); [done|apply length_insert]. }
    split; [|done].
    intros addr f Hf Hcase.
    destruct (A2A.futures mr !! addr0) as [f0|] eqn:Hf0; [|done].
    destruct (A2A.done f0) eqn:Hdone; [done|].
    destruct (decide (addr0 = addr)) as [->|Hne].
    + destruct Hcase as [Hd|Hd]; [congruence|done].
    + by rewrite list_lookup_insert_ne.
  - rewrite ?Hslot. split; [done|]. split; [done|]. split; [done|].
    split; [done|]. by rewrite ?Hslot.
Qed.

Lemma response_timeout_is_local_and_idempotent_witness :
  let p := A2A.mkProfile "agent_2" "news" [A2A.NEWS_ANALYSIS]
             (9 # 10) (9 # 10) (1 # 10) 10 None "active" in
  let mr := A2A.register_handler "agent_2"
              (A2A.new_router (A2A.register_agent p A2A.empty_registry)) in
  let mr1 := snd (A2A.route_message 0
                    (A2A.mkMsg "m1" "agent_1" "agent_2" None true (Some 30)) mr) in
  let mr2 := snd (A2A.route_message 0
                    (A2A.mkMsg "m2" "agent_1" "agent_2" None true (Some 60)) mr1) in
  A2A.pending_responses (A2A._handle_response_timeout "m1" mr2) !! "m2"
  = A2A.pending_responses mr2 !! "m2".
Proof.
  intros p mr mr1 mr2.
  destruct (response_timeout_is_local_and_idempotent "m1" mr2)
    as (_ & Hother & _).
  apply Hother. discriminate.
Defined.

(** ** The manager's broadcast *)

Section ManagerBroadcast.

Import A2A.

Lemma route_broadcast_message now id sender target mr :
  route_message now (mkMsg id sender target None false None) mr
  = if accepts mr target
    then (true,
          mkMR (registry mr) (message_handlers mr) (pending_responses mr)
            (futures mr) (timers mr)
            (deliveries mr ++ [mkMsg id sender target None false None]))
    else (false, mr).
Proof.
  unfold route_message, accepts. cbn.
  destruct (agents (registry mr) !! target) as [p|] eqn:Hp.
  - rewrite bool_decide_eq_true_2 by done. cbn.
    destruct (decide (target ∈ message_handlers mr)).
    + by rewrite bool_decide_eq_true_2.
    + by rewrite bool_decide_eq_false_2.
  - rewrite bool_decide_eq_false_2; [done|]. by intros [? ?].
Qed.

Lemma broadcast_loop_spec uuid now sender targets : forall sent mr,
  let res := broadcast_loop uuid now sender targets sent mr in
  exists ds,
    fst res = Z.of_nat (length ds) /\
    map receiver_id ds = List.filter (accepts mr) targets /\
    Forall (fun d => sender_id d = sender) ds /\
    snd res = mkMR (registry mr) (message_handlers mr) (pending_responses mr)
                (futures mr) (timers mr) (deliveries mr ++ ds).
Proof.
  induction targets as [|t targets IH]; intros sent mr.
  - exists []. cbn. rewrite app_nil_r. by destruct mr.
  - cbn [broadcast_loop List.filter]. rewrite route_broadcast_message.
    destruct (accepts mr t) eqn:Hacc.
    + set (mr1 := mkMR _ _ _ _ _ _).
      destruct (IH (S sent) mr1) as (ds & Hcount & Hrecv & Hsend & Hmr).
      destruct (broadcast_loop uuid now sender targets (S sent) mr1)
        as [n mr2].
      cbn [fst snd] in *.
      exists (mkMsg (uuid sent) sender t None false None :: ds).
      split; [rewrite Hcount; cbn [length]; lia|].
      split; [cbn; by rewrite Hrecv|].
      split; [by constructor|].
      rewrite Hmr. unfold mr1. cbn. by rewrite <- app_assoc.
    + destruct (IH (S sent) mr) as (ds & Hcount & Hrecv & Hsend & Hmr).
      destruct (broadcast_loop uuid now sender targets (S sent) mr)
        as [n mr2].
      cbn [fst snd] in *. exists ds. split; [rewrite Hcount; lia|]. done.
Qed.

End ManagerBroadcast.

Lemma find_agents_in_order ids c r :
  A2A.iterates ids (Some c) r ->
  A2A.find_agents_in ids r ≡ₚ A2A.find_agents_by_capability c r.
Proof.
  unfold A2A.iterates, A2A.find_agents_in, A2A.find_agents_by_capability.
  by intros ->.
Qed.

(** X20.  Whatever the order in which Python iterates the registered ids
    or the members of the capability's set, [broadcast_message] returns
    the number of targets that are registered and have a handler, which
    lies between 0 and the number of targets; it schedules exactly one
    delivery for each of them, in the order of the targets, each message
    carrying the sender's id; no message is addressed to the sender;
    registry, handlers and pending slots stay as they were.  Without a
    filter the receivers are, each once, the registered agents other than
    the sender that have a handler; with a filter they are the ids, other
    than the sender and accepted by the router, of the profiles that
    [find_agents_by_capability] returns. *)
Theorem broadcast_counts_accepted_targets :
  forall (uuid : nat -> string) (now : Time.datetime) (ids : list string)
         (sender : string) (capability_filter : option A2A.AgentCapability)
         (mr : A2A.MessageRouter),
    A2A.iterates ids capability_filter (A2A.registry mr) ->
    let targets := A2A.broadcast_targets ids sender capability_filter
                     (A2A.registry mr) in
    let res := A2A.broadcast_message uuid now ids sender capability_filter
                 mr in
    exists ds,
      A2A.deliveries (snd res) = A2A.deliveries mr ++ ds /\
      fst res = Z.of_nat (length ds) /\
      0 <= fst res <= Z.of_nat (length targets) /\
      map A2A.receiver_id ds = List.filter (A2A.accepts mr) targets /\
      Forall (fun d => A2A.sender_id d = sender /\
                       A2A.receiver_id d <> sender) ds /\
      A2A.registry (snd res) = A2A.registry mr /\
      A2A.message_handlers (snd res) = A2A.message_handlers mr /\
      A2A.pending_responses (snd res) = A2A.pending_responses mr /\
      (capability_filter = None ->
       NoDup (map A2A.receiver_id ds) /\
       forall id, id ∈ map A2A.receiver_id ds
                  <-> id <> sender /\ A2A.accepts mr id = true) /\
      (forall c, capability_filter = Some c ->
       forall id, id ∈ map A2A.receiver_id ds
                  <-> id <> sender /\ A2A.accepts mr id = true /\
                      exists p, p ∈ A2A.find_agents_by_capability c
                                      (A2A.registry mr) /\
                                A2A.agent_id p = id).
Proof.
  intros uuid now ids sender cf mr Hids targets res.
  destruct (broadcast_loop_spec uuid now sender targets 0%nat mr)
    as (ds & Hcount & Hrecv & Hsend & Hmr).
  subst res. unfold A2A.broadcast_message. fold targets.
  exists ds. rewrite Hmr. cbn.
  split; [done|]. split; [done|]. split.
  { rewrite Hcount. split; [lia|]. apply inj_le.
    rewrite <- (length_map A2A.receiver_id ds), Hrecv. apply filter_length_le. }
  split; [done|]. split.
  { apply Forall_forall. intros d Hd. split.
    - by apply (proj1 (Forall_forall _ _) Hsend).
    - assert (A2A.receiver_id d ∈ List.filter (A2A.accepts mr) targets) as Hin.
      { rewrite <- Hrecv. apply list_elem_of_fmap. by exists d. }
      apply list_elem_of_In, filter_In in Hin as [Hin _].
      unfold targets, A2A.broadcast_targets in Hin.
      apply filter_In in Hin as [_ Hne].
      by apply negb_true_iff, bool_decide_eq_false in Hne. }
  split; [done|]. split; [done|]. split; [done|].
  assert (forall id, id ∈ map A2A.receiver_id ds
            <-> id <> sender /\ A2A.accepts mr id = true /\
                id ∈ match cf with
                     | Some _ =>
                         map A2A.agent_id
                           (A2A.find_agents_in ids (A2A.registry mr))
                     | None => ids
                     end) as Hmem.
  { intros id. rewrite Hrecv. unfold targets, A2A.broadcast_targets.
    rewrite list_elem_of_In, filter_In, filter_In, <- list_elem_of_In.
    rewrite negb_true_iff, bool_decide_eq_false. tauto. }
  split.
  - intros ->. cbn in Hids. split.
    + rewrite Hrecv. unfold targets, A2A.broadcast_targets.
      apply NoDup_ListNoDup, List.NoDup_filter, List.NoDup_filter.
      apply NoDup_ListNoDup. by eapply dict_keys_NoDup.
    + intros id. rewrite Hmem. split; [tauto|]. intros [Hne Hacc].
      split; [done|]. split; [done|].
      apply (dict_keys_elem _ _ _ Hids).
      unfold A2A.accepts in Hacc. apply andb_true_iff in Hacc as [Hreg _].
      by apply bool_decide_eq_true in Hreg.
  - intros c ->. intros id. rewrite Hmem.
    rewrite (find_agents_in_order ids c _ Hids), list_elem_of_fmap.
    split.
    + intros (Hne & Hacc & p & -> & Hp). eauto.
    + intros (Hne & Hacc & p & Hp & <-). eauto.
Qed.

Lemma broadcast_counts_accepted_targets_witness :
  let p1 := A2A.mkProfile "agent_1" "news" [A2A.NEWS_ANALYSIS]
              (9 # 10) (9 # 10) (1 # 10) 10 None "active" in
  let p2 := A2A.mkProfile "agent_2" "news" [A2A.NEWS_ANALYSIS]
              (9 # 10) (9 # 10) (1 # 10) 10 None "active" in
  let p3 := A2A.mkProfile "agent_3" "news" [A2A.NEWS_ANALYSIS]
              (9 # 10) (9 # 10) (1 # 10) 10 None "active" in
  let mr := A2A.register_handler "agent_2"
              (A2A.register_handler "agent_1"
                 (A2A.new_router
                    (A2A.register_agent p3
                       (A2A.register_agent p2
                          (A2A.register_agent p1 A2A.empty_registry))))) in
  let res := A2A.broadcast_message (fun _ => "u") 0
               ["agent_3"; "agent_1"; "agent_2"] "agent_1"
               (Some A2A.NEWS_ANALYSIS) mr in
  exists ds,
    A2A.deliveries (snd res) = ds /\
    map A2A.receiver_id ds = ["agent_2"].
Proof.
  intros p1 p2 p3 mr res.
  destruct (broadcast_counts_accepted_targets (fun _ => "u") 0
              ["agent_3"; "agent_1"; "agent_2"] "agent_1"
              (Some A2A.NEWS_ANALYSIS) mr)
    as (ds & Hds & _ & _ & Hrecv & _).
  - vm_compute.
    apply (Permutation_cons_app ["agent_1"; "agent_2"] [] "agent_3").
    reflexivity.
  - exists ds. split; [exact Hds|]. rewrite Hrecv. reflexivity.
Defined.

(** ** Orchestrator: recording and analysing responses *)

(** X21.  [handle_consensus_response] ignores a response for a
    collaboration that is not active.  For an active one it stores the
    payload under the sender's id, whoever the sender is, replacing what
    that sender had answered before and leaving the answers of the others
    and the participant list alone; response ids stay distinct; and no
    other collaboration is touched. *)
Theorem consensus_response_recording :
  forall (cid sender : string) (content : A2A.response) (o : A2A.orchestrator),
    let o' := A2A.handle_consensus_response cid sender content o in
    (o !! cid = None -> o' = o) /\
    (forall c, o !! cid = Some c ->
       exists c',
         o' !! cid = Some c' /\
         A2A.participants c' = A2A.participants c /\
         Py.dict_get sender (A2A.responses c') = Some content /\
         (forall other, other <> sender ->
            Py.dict_get other (A2A.responses c')
            = Py.dict_get other (A2A.responses c)) /\
         (NoDup (map fst (A2A.responses c)) ->
          NoDup (map fst (A2A.responses c'))) /\
         (is_Some (Py.dict_get sender (A2A.responses c)) ->
          length (A2A.responses c') = length (A2A.responses c))) /\
    (forall other, other <> cid -> o' !! other = o !! other).
Proof.
  intros cid sender content o o'. unfold o', A2A.handle_consensus_response.
  unfold A2A.orchestrator in *.
  split; [|split].
  - intros Hnone. apply map_eq. intros k. rewrite lookup_alter.
    case_decide; [subst; by rewrite Hnone|done].
  - intros c Hc.
    exists (A2A.mkCollab (A2A.topic c) (A2A.participants c)
              (Py.dict_set sender content (A2A.responses c)) (A2A.timeout c)).
    rewrite lookup_alter_eq, Hc. cbn.
    split; [done|]. split; [done|]. split.
    { rewrite dict_get_set. by rewrite decide_True. }
    split.
    { intros other Hne. rewrite dict_get_set. by rewrite decide_False. }
    split; [apply dict_set_NoDup|].
    intros Hknown. rewrite <- !(length_map fst), dict_set_keys.
    rewrite decide_True; [done|].
    destruct Hknown as [v Hv]. apply dict_get_Some_elem in Hv.
    apply list_elem_of_fmap. by exists (sender, v).
  - intros other Hne. by rewrite lookup_alter_ne.
Qed.

Lemma consensus_response_recording_witness :
  let c := A2A.mkCollab "rebalance" ["agent_1"; "agent_2"] [] 60 in
  let r := A2A.mkResponse (Some (A2A.PyStr "buy")) in
  exists c',
    A2A.handle_consensus_response "c1" "agent_9" r {[ "c1" := c ]} !! "c1"
    = Some c' /\
    Py.dict_get "agent_9" (A2A.responses c') = Some r.
Proof.
  intros c r.
  destruct (consensus_response_recording "c1" "agent_9" r {[ "c1" := c ]})
    as (_ & Hknown & _).
  destruct (Hknown c) as (c' & Hc' & _ & Hget & _); [reflexivity|].
  exists c'. split; [exact Hc' | exact Hget].
Defined.

Section ConsensusShape.

Import A2A.

Lemma votes_bounds decisions d :
  0 <= votes decisions d <= Z.of_nat (length decisions).
Proof.
  unfold votes. split; [lia|]. apply inj_le, count_occ_bound.
Qed.

Lemma votes_positive decisions d : d ∈ decisions -> 1 <= votes decisions d.
Proof.
  intros Hin. unfold votes. apply list_elem_of_In in Hin.
  apply (count_occ_In pyval_eq_dec) in Hin. lia.
Qed.

(** The result of [_analyze_consensus] in terms of the decisions that the
    responses carry. *)
Lemma analyze_consensus_shape (responses : list (string * response)) :
  let decisions := omap (fun item => decision (snd item)) responses in
  let r := _analyze_consensus responses in
  (decisions = [] /\ r = mkConsensus false 0 PyNone (map fst responses)) \/
  (decisions <> [] /\ final_decision r ∈ decisions /\
   (forall d, votes decisions d <= votes decisions (final_decision r)) /\
   agreement_score r
   = (inject_Z (votes decisions (final_decision r))
      / inject_Z (Z.of_nat (length decisions)))%Q /\
   consensus_achieved r = Qle_bool (6 # 10) (agreement_score r) /\
   dissenting_agents r
   = map fst
       (List.filter
          (fun item =>
             negb (bool_decide (get_decision (snd item) = final_decision r)))
          responses)).
Proof.
  intros decisions r. subst r decisions. unfold _analyze_consensus.
  destruct (decide (responses = [])) as [->|Hne]; [left; by split|].
  rewrite (match_nonempty _ _ _ Hne).
  set (decisions := omap (fun item => decision (snd item)) responses).
  destruct (Py.max_by Z.ltb snd (fold_left count_vote decisions []))
    as [[k n]|] eqn:Hmax.
  - right. pose proof (max_by_elem _ _ _ _ Hmax) as Hin.
    apply vote_counts_items in Hin as [Hk ->].
    split; [by intros Hnil; rewrite Hnil in Hk; apply elem_of_nil in Hk|].
    cbn [final_decision agreement_score consensus_achieved dissenting_agents
           fst snd].
    split; [done|]. split; [|done].
    intros d. destruct (decide (d ∈ decisions)) as [Hd|Hd].
    + apply (max_by_upper Z.ltb Z.le snd Z.le_refl Z.le_trans) with
        (y := (d, votes decisions d)) in Hmax; [done| | |].
      * intros a b H. apply Z.ltb_lt in H. lia.
      * intros a b H. apply Z.ltb_ge in H. lia.
      * by apply vote_counts_items.
    + unfold votes at 1.
      rewrite (proj1 (count_occ_not_In _ _ _)); [unfold votes; lia|].
      by rewrite <- list_elem_of_In.
  - left. split; [|done].
    destruct decisions as [|d0 ds] eqn:Hd; [done|]. exfalso.
    assert ((d0, votes (d0 :: ds) d0) ∈ fold_left count_vote (d0 :: ds) [])
      as Hin by (apply vote_counts_items; split; [apply elem_of_cons; by left|done]).
    destruct (fold_left count_vote (d0 :: ds) []); [|done].
    by apply elem_of_nil in Hin.
Qed.

End ConsensusShape.

Section ScoreArithmetic.

Lemma ratio_bounds (n t : Z) :
  1 <= n <= t -> (0 < inject_Z n / inject_Z t <= 1)%Q.
Proof.
  intros [Hn Ht].
  assert (0 < inject_Z t)%Q as Htpos
    by (change 0%Q with (inject_Z 0); rewrite <- Zlt_Qlt; lia).
  split.
  - apply Qlt_shift_div_l; [done|].
    rewrite Qmult_0_l. change 0%Q with (inject_Z 0). rewrite <- Zlt_Qlt. lia.
  - apply Qle_shift_div_r; [done|]. rewrite Qmult_1_l.
    rewrite <- Zle_Qle. lia.
Qed.

Lemma ratio_one (t : Z) : 1 <= t -> (inject_Z t / inject_Z t == 1)%Q.
Proof.
  intros Ht. apply Qmult_inv_r. intros Heq.
  unfold Qeq in Heq. cbn in Heq. lia.
Qed.

End ScoreArithmetic.

(** X22.  [_analyze_consensus] on any responses: when no response carries
    a ["decision"], the result is no consensus, score 0.0, no decision,
    and all responders dissenting.  Otherwise [final_decision] is one of
    the decisions received, [agreement_score] is its vote count divided by
    the number of responses that carry a decision (the others are left out
    of the count), the score lies in (0, 1], and every responder without a
    decision is listed as dissenting unless the final decision is [None]
    itself. *)
Theorem consensus_counts_only_decisions :
  forall responses : list (string * A2A.response),
    let decisions := omap (fun item => A2A.decision (snd item)) responses in
    let r := A2A._analyze_consensus responses in
    (decisions = [] ->
     r = A2A.mkConsensus false 0 A2A.PyNone (map fst responses)) /\
    (decisions <> [] ->
     A2A.final_decision r ∈ decisions /\
     A2A.agreement_score r
     = (inject_Z (A2A.votes decisions (A2A.final_decision r))
        / inject_Z (Z.of_nat (length decisions)))%Q /\
     (0 < A2A.agreement_score r <= 1)%Q /\
     (forall id resp,
        (id, resp) ∈ responses -> A2A.decision resp = None ->
        A2A.final_decision r <> A2A.PyNone ->
        id ∈ A2A.dissenting_agents r)).
Proof.
  intros responses decisions r.
  destruct (analyze_consensus_shape responses)
    as [[Hnil Hr]|(Hne & Hfinal & Hmax & Hscore & _ & Hdiss)];
    fold decisions in Hnil || fold decisions in Hne, Hfinal, Hmax, Hscore;
    fold r in Hr || fold r in Hfinal, Hmax, Hscore, Hdiss.
  - split; [done|]. by intros Hne.
  - split; [by intros Hnil|]. intros _.
    split; [done|]. split; [done|]. split.
    + rewrite Hscore. apply ratio_bounds. split.
      * by apply votes_positive.
      * apply votes_bounds.
    + intros id resp Hin Hnone Hfin. rewrite Hdiss.
      apply elem_of_dissenting. exists resp. split; [done|].
      unfold A2A.get_decision. rewrite Hnone. cbn. congruence.
Qed.

Lemma consensus_counts_only_decisions_witness :
  let responses :=
    [("agent_1", A2A.mkResponse (Some (A2A.PyStr "buy")));
     ("agent_2", A2A.mkResponse None)] in
  "agent_2" ∈ A2A.dissenting_agents (A2A._analyze_consensus responses).
Proof.
  intros responses.
  destruct (consensus_counts_only_decisions responses) as [_ H].
  destruct H as (_ & _ & _ & Hdiss); [discriminate|].
  apply (Hdiss "agent_2" (A2A.mkResponse None)).
  - apply elem_of_cons. right. apply elem_of_cons. by left.
  - reflexivity.
  - vm_compute. discriminate.
Defined.

(** X23.  When the responses are not empty and all carry the same
    decision, that decision is the final one, [agreement_score] equals 1,
    consensus is achieved and nobody dissents. *)
Theorem unanimous_consensus :
  forall (responses : list (string * A2A.response)) (d : A2A.pyval),
    responses <> [] ->
    Forall (fun item => A2A.decision (snd item) = Some d) responses ->
    let r := A2A._analyze_consensus responses in
    A2A.final_decision r = d /\
    (A2A.agreement_score r == 1)%Q /\
    A2A.consensus_achieved r = true /\
    A2A.dissenting_agents r = [].
Proof.
  intros responses d Hne Hall r.
  assert (omap (fun item => A2A.decision (snd item)) responses
          = replicate (length responses) d) as Hdec.
  { clear Hne r. induction Hall as [|item l Hd _ IH]; [done|].
    cbn. rewrite Hd. cbn. f_equal. exact IH. }
  assert (forall item, item ∈ responses -> A2A.get_decision (snd item) = d)
    as Hget.
  { intros item Hin. apply (proj1 (Forall_forall _ _) Hall) in Hin.
    unfold A2A.get_decision. by rewrite Hin. }
  destruct (analyze_consensus_shape responses)
    as [[Hnil _]|(_ & Hfinal & _ & Hscore & Hach & Hdiss)];
    fold r in Hfinal, Hscore, Hach, Hdiss || idtac.
  { rewrite Hdec in Hnil. destruct responses; [done|discriminate]. }
  rewrite Hdec in Hfinal, Hscore.
  apply elem_of_replicate_inv in Hfinal.
  assert (A2A.votes (replicate (length responses) d) d
          = Z.of_nat (length responses)) as Hvotes.
  { unfold A2A.votes. f_equal. clear. induction (length responses); [done|].
    cbn. destruct (A2A.pyval_eq_dec d d); [by f_equal|done]. }
  rewrite Hfinal, Hvotes, length_replicate in Hscore.
  assert (A2A.agreement_score r == 1)%Q as Hone.
  { rewrite Hscore. apply ratio_one. destruct responses; [done|cbn; lia]. }
  split; [done|]. split; [done|]. split.
  - rewrite Hach. apply Qle_bool_iff. rewrite Hone. discriminate.
  - rewrite Hdiss, Hfinal.
    assert (List.filter
              (fun item => negb (bool_decide (A2A.get_decision (snd item) = d)))
              responses = []) as ->; [|done].
    clear -Hget. induction responses as [|item l IH]; [done|].
    cbn. rewrite bool_decide_eq_true_2.
    + cbn. apply IH. intros i Hi. apply Hget, elem_of_cons. by right.
    + apply Hget, elem_of_cons. by left.
Qed.

Lemma unanimous_consensus_witness :
  let responses :=
    [("agent_1", A2A.mkResponse (Some (A2A.PyStr "hold")));
     ("agent_2", A2A.mkResponse (Some (A2A.PyStr "hold")))] in
  A2A.final_decision (A2A._analyze_consensus responses) = A2A.PyStr "hold" /\
  A2A.dissenting_agents (A2A._analyze_consensus responses) = [].
Proof.
  intros responses.
  destruct (unanimous_consensus responses (A2A.PyStr "hold"))
    as (H1 & _ & _ & H4).
  - discriminate.
  - repeat constructor.
  - split; [exact H1 | exact H4].
Defined.

(** ** Orchestrator: bounds of the peer-review aggregate *)

Section MeanBounds.

Import A2A.

Lemma Qsum_acc (l : list Q) : forall acc,
  (fold_left Qplus l acc == acc + Py.Qsum l)%Q.
Proof.
  unfold Py.Qsum. induction l as [|x l IH]; intros acc; cbn [fold_left].
  - ring.
  - rewrite (IH (acc + x)%Q), (IH (0 + x)%Q). ring.
Qed.

Lemma Qsum_cons (x : Q) (l : list Q) : (Py.Qsum (x :: l) == x + Py.Qsum l)%Q.
Proof. unfold Py.Qsum at 1. cbn [fold_left]. rewrite Qsum_acc. ring. Qed.

Lemma Qsum_lower (lo : Q) (l : list Q) :
  Forall (fun x => lo <= x)%Q l ->
  (lo * inject_Z (Z.of_nat (length l)) <= Py.Qsum l)%Q.
Proof.
  induction 1 as [|x l Hx _ IH].
  - change (lo * 0 <= 0)%Q. lra.
  - rewrite Qsum_cons. cbn [length].
    rewrite Nat2Z.inj_succ, <- Z.add_1_r, inject_Z_plus.
    change (inject_Z 1) with 1%Q. lra.
Qed.

Lemma Qsum_upper (hi : Q) (l : list Q) :
  Forall (fun x => x <= hi)%Q l ->
  (Py.Qsum l <= hi * inject_Z (Z.of_nat (length l)))%Q.
Proof.
  induction 1 as [|x l Hx _ IH].
  - change (0 <= hi * 0)%Q. lra.
  - rewrite Qsum_cons. cbn [length].
    rewrite Nat2Z.inj_succ, <- Z.add_1_r, inject_Z_plus.
    change (inject_Z 1) with 1%Q. lra.
Qed.

Lemma length_positive {A} (l : list A) :
  l <> [] -> (0 < inject_Z (Z.of_nat (length l)))%Q.
Proof.
  intros Hne. change 0%Q with (inject_Z 0). rewrite <- Zlt_Qlt.
  destruct l; [done|cbn; lia].
Qed.

Lemma mean_lower (lo : Q) (l : list Q) :
  (lo <= 0)%Q -> Forall (fun x => lo <= x)%Q l -> (lo <= mean l)%Q.
Proof.
  intros Hlo Hall. destruct (decide (l = [])) as [->|Hne]; [done|].
  rewrite mean_nonempty by done.
  apply Qle_shift_div_l; [by apply length_positive|by apply Qsum_lower].
Qed.

Lemma mean_upper (hi : Q) (l : list Q) :
  (0 <= hi)%Q -> Forall (fun x => x <= hi)%Q l -> (mean l <= hi)%Q.
Proof.
  intros Hhi Hall. destruct (decide (l = [])) as [->|Hne]; [done|].
  rewrite mean_nonempty by done.
  apply Qle_shift_div_r; [by apply length_positive|by apply Qsum_upper].
Qed.


Lemma max0_bounds (x : Q) : (x <= 1 -> 0 <= max0 x <= 1)%Q.
Proof.
  intros Hx. unfold max0, Py.Qltb.
  destruct (Qle_bool x 0) eqn:Hle; cbn.
  - lra.
  - split; [|done]. apply Qlt_le_weak, Qnot_le_lt. intros H.
    apply Qle_bool_iff in H. congruence.
Qed.

Lemma aggregate_criteria_keys reviews criteria :
  NoDup (map fst (aggregate_criteria reviews criteria)).
Proof.
  unfold aggregate_criteria.
  assert (forall acc : list (string * Q), NoDup (map fst acc) ->
            NoDup (map fst
              (fold_left
                 (fun acc criterion =>
                    Py.dict_set criterion
                      (mean (map (fun item => score_of criterion (snd item))
                               reviews)) acc) criteria acc))) as H.
  { induction criteria as [|c cs IH]; intros acc Hacc; [done|].
    cbn [fold_left]. apply IH. by apply dict_set_NoDup. }
  apply H. constructor.
Qed.

Lemma aggregate_criteria_items reviews criteria c q :
  (c, q) ∈ aggregate_criteria reviews criteria ->
  c ∈ criteria /\
  q = mean (map (fun item => score_of c (snd item)) reviews).
Proof.
  intros Hin.
  apply dict_get_NoDup_elem in Hin; [|apply aggregate_criteria_keys].
  unfold aggregate_criteria in Hin.
  rewrite (aggregate_get
             (fun c => mean (map (fun item => score_of c (snd item)) reviews)))
    in Hin.
  destruct (decide (c ∈ criteria)); [|done]. by injection Hin as <-.
Qed.

End MeanBounds.

(** X24.  When every score a review gives for a criterion lies in
    [0, 1] (a missing one reads as 0.0), every aggregated criterion score
    and the overall score of [_aggregate_peer_reviews] lie in [0, 1] as
    well, for any reviews and criteria, empty ones included. *)
Theorem peer_review_scores_stay_in_range :
  forall (reviews : list (string * A2A.review)) (criteria : list string),
    (forall item c, item ∈ reviews -> c ∈ criteria ->
                    (0 <= A2A.score_of c (snd item) <= 1)%Q) ->
    let res := A2A._aggregate_peer_reviews reviews criteria in
    (forall c q, (c, q) ∈ A2A.criteria_scores res -> (0 <= q <= 1)%Q) /\
    (0 <= A2A.overall_score res <= 1)%Q.
Proof.
  intros reviews criteria Hrange res.
  destruct (decide (reviews = [])) as [->|Hne].
  { cbn. split; [by intros ? ? ?%elem_of_nil|]. split; discriminate. }
  assert (A2A.criteria_scores res = A2A.aggregate_criteria reviews criteria)
    as Hcs by (by destruct reviews).
  assert (A2A.overall_score res
          = A2A.mean (map snd (A2A.criteria_scores res))) as Hov
    by (by destruct reviews).
  assert (forall c q, (c, q) ∈ A2A.criteria_scores res -> (0 <= q <= 1)%Q)
    as Hitems.
  { intros c q Hin. rewrite Hcs in Hin.
    apply aggregate_criteria_items in Hin as [Hc ->].
    split.
    - apply mean_lower; [apply Qle_refl|]. apply Forall_forall.
      intros x Hx. apply list_elem_of_fmap in Hx as (item & -> & Hitem).
      by apply Hrange.
    - apply mean_upper; [discriminate|]. apply Forall_forall.
      intros x Hx. apply list_elem_of_fmap in Hx as (item & -> & Hitem).
      by apply Hrange. }
  split; [exact Hitems|]. rewrite Hov. split.
  - apply mean_lower; [apply Qle_refl|]. apply Forall_forall.
    intros x Hx. apply list_elem_of_fmap in Hx as ([c q] & -> & Hin).
    by apply (Hitems c q).
  - apply mean_upper; [discriminate|]. apply Forall_forall.
    intros x Hx. apply list_elem_of_fmap in Hx as ([c q] & -> & Hin).
    by apply (Hitems c q).
Qed.

Lemma peer_review_scores_stay_in_range_witness :
  let reviews :=
    [("reviewer_1", A2A.mkReview (Some {[ "accuracy" := 8 # 10 ]}) None);
     ("reviewer_2", A2A.mkReview (Some ∅) None)] in
  (0 <= A2A.overall_score (A2A._aggregate_peer_reviews reviews ["accuracy"])
   <= 1)%Q.
Proof.
  intros reviews.
  apply (peer_review_scores_stay_in_range reviews ["accuracy"]).
  intros item c Hitem Hc.
  apply list_elem_of_singleton in Hc as ->.
  apply elem_of_cons in Hitem as [->|Hitem].
  - vm_compute. split; discriminate.
  - apply list_elem_of_singleton in Hitem as ->. vm_compute.
    split; discriminate.
Defined.



Lemma breaker_open_only_at_threshold_witness :
  let cb := CircuitBreaker.run
              [CircuitBreaker.CallFailure 0; CircuitBreaker.CallFailure 1;
               CircuitBreaker.CallCanExecute 100]
              (CircuitBreaker.init 2 60) in
  2 <= CircuitBreaker.failure_count cb.
Proof.
  intros cb.
  destruct (breaker_open_only_at_threshold 2 60
              [CircuitBreaker.CallFailure 0; CircuitBreaker.CallFailure 1;
               CircuitBreaker.CallCanExecute 100]) as (_ & _ & _ & H).
  destruct H as [H _]; [vm_compute; discriminate | exact H].
Defined.

(** ** Capability registry: the score behind the best agent *)

Section BestAgentScore.

Import A2A.

Lemma max0_nonneg (x : Q) : (0 <= max0 x)%Q.
Proof.
  unfold max0, Py.Qltb. destruct (Qle_bool x 0) eqn:Hle; cbn; [lra|].
  apply Qlt_le_weak, Qnot_le_lt. intros H. apply Qle_bool_iff in H. congruence.
Qed.

Lemma max0_le (x : Q) : (0 <= x -> max0 x == x)%Q.
Proof.
  intros Hx. unfold max0, Py.Qltb. destruct (Qle_bool x 0) eqn:Hle; cbn.
  - apply Qle_bool_iff in Hle. lra.
  - reflexivity.
Qed.

Lemma score_agent_active (p : AgentProfile) :
  status p = "active" -> score_agent p = weighted_score p.
Proof. intros H. unfold score_agent. by rewrite decide_True. Qed.

Lemma score_agent_inactive (p : AgentProfile) :
  status p <> "active" -> score_agent p = 0%Q.
Proof. intros H. unfold score_agent. by rewrite decide_False. Qed.

End BestAgentScore.

Lemma score_agent_fl_inactive rnd w4 w3 p :
  A2A.status p <> "active" -> A2A.score_agent_fl rnd w4 w3 p = 0%Q.
Proof.
  intros H. unfold A2A.score_agent_fl.
  by destruct (decide (A2A.status p = "active")).
Qed.

(** With the identity for [rnd] and the rationals 4/10 and 3/10 for the
    weights, the double arithmetic is the exact one. *)
Lemma get_best_agent_exact c r :
  A2A.get_best_agent_fl (fun x => x) (4 # 10) (3 # 10)
    (A2A.capabilities_index r c) r
  = A2A.get_best_agent_for_capability c r.
Proof. reflexivity. Qed.

(** X26.  In double arithmetic, whatever the rounding [rnd] of its
    operations and whatever the order [agent_ids] in which the capability's
    set is iterated: when some candidate for a capability has a positive
    computed score, [get_best_agent_for_capability] returns a candidate
    that is active and whose computed score no candidate exceeds. *)
Theorem best_agent_is_active_when_one_scores :
  forall (rnd : Q -> Q) (w4 w3 : Q) (agent_ids : list string)
         (c : A2A.AgentCapability) (r : A2A.AgentRegistry)
         (q : A2A.AgentProfile),
    agent_ids ≡ₚ A2A.capabilities_index r c ->
    q ∈ A2A.find_agents_by_capability c r ->
    (0 < A2A.score_agent_fl rnd w4 w3 q)%Q ->
    exists p,
      A2A.get_best_agent_fl rnd w4 w3 agent_ids r = Some p /\
      p ∈ A2A.find_agents_by_capability c r /\
      A2A.status p = "active" /\
      forall q', q' ∈ A2A.find_agents_by_capability c r ->
                 (A2A.score_agent_fl rnd w4 w3 q'
                  <= A2A.score_agent_fl rnd w4 w3 p)%Q.
Proof.
  intros rnd w4 w3 ids c r q Hids Hq Hpos.
  pose proof (find_agents_in_order ids c r Hids) as Hperm.
  unfold A2A.get_best_agent_fl.
  destruct (Py.max_by Py.Qltb (A2A.score_agent_fl rnd w4 w3)
              (A2A.find_agents_in ids r)) as [p|] eqn:Hbest.
  2:{ destruct (A2A.find_agents_in ids r); [|done].
      rewrite <- Hperm in Hq. by apply elem_of_nil in Hq. }
  assert (forall q', q' ∈ A2A.find_agents_by_capability c r ->
            (A2A.score_agent_fl rnd w4 w3 q'
             <= A2A.score_agent_fl rnd w4 w3 p)%Q) as Hmax.
  { intros q' Hq'. rewrite <- Hperm in Hq'. revert q' Hq'.
    apply (max_by_upper Py.Qltb Qle (A2A.score_agent_fl rnd w4 w3)
             Qle_refl Qle_trans); [| |done].
    + intros a b H. unfold Py.Qltb in H. apply negb_true_iff in H.
      apply Qlt_le_weak, Qnot_le_lt. intros Hle.
      apply Qle_bool_iff in Hle. congruence.
    + intros a b H. unfold Py.Qltb in H. apply negb_false_iff in H.
      by apply Qle_bool_iff. }
  exists p. split; [done|].
  split; [rewrite <- Hperm; by eapply max_by_elem|].
  split; [|done].
  destruct (decide (A2A.status p = "active")) as [|Hina]; [done|].
  specialize (Hmax q Hq).
  rewrite (score_agent_fl_inactive rnd w4 w3 p Hina) in Hmax. lra.
Qed.

Lemma best_agent_is_active_when_one_scores_witness :
  let w4 := (3602879701896397 # 9007199254740992)%Q in
  let w3 := (5404319552844595 # 18014398509481984)%Q in
  let busy := A2A.mkProfile "agent_1" "technical" [A2A.TECHNICAL_ANALYSIS]
                (9 # 10) (9 # 10) (9 # 10) 10 None "active" in
  let down := A2A.mkProfile "agent_2" "technical" [A2A.TECHNICAL_ANALYSIS]
                1 1 0 10 None "offline" in
  let r := A2A.register_agent down
             (A2A.register_agent busy A2A.empty_registry) in
  exists p,
    A2A.get_best_agent_fl Qred w4 w3 ["agent_2"; "agent_1"] r = Some p /\
    A2A.status p = "active".
Proof.
  intros w4 w3 busy down r.
  destruct (best_agent_is_active_when_one_scores Qred w4 w3
              ["agent_2"; "agent_1"] A2A.TECHNICAL_ANALYSIS r busy)
    as (p & Hbest & _ & Hactive & _).
  - vm_compute. apply perm_swap.
  - vm_compute. apply elem_of_cons. by left.
  - vm_compute. reflexivity.
  - exists p. split; [exact Hbest | exact Hactive].
Defined.

(** X27.  For a profile whose reputation and service level lie in [0, 1]
    and whose load factor is not negative, [score_agent] lies in [0, 1]
    however large the load, it is 0.0 for every status other than "active",
    and for an active profile with a load factor of at most 1 it is
    0.4 reputation + 0.3 service level + 0.3 (1 - load). *)
Theorem agent_score_range :
  forall p : A2A.AgentProfile,
    (0 <= A2A.reputation_score p <= 1)%Q ->
    (0 <= A2A.service_level p <= 1)%Q ->
    (0 <= A2A.load_factor p)%Q ->
    (0 <= A2A.score_agent p <= 1)%Q /\
    (A2A.status p <> "active" -> A2A.score_agent p = 0%Q) /\
    (A2A.status p = "active" -> (A2A.load_factor p <= 1)%Q ->
     (A2A.score_agent p
      == A2A.reputation_score p * (4 # 10) + A2A.service_level p * (3 # 10)
         + (1 - A2A.load_factor p) * (3 # 10))%Q).
Proof.
  intros p Hrep Hsl Hload.
  pose proof (max0_nonneg (1 - A2A.load_factor p)) as Hm0.
  assert (A2A.max0 (1 - A2A.load_factor p) <= 1)%Q as Hm1.
  { destruct (max0_bounds (1 - A2A.load_factor p)) as [_ H]; [lra|done]. }
  split; [|split].
  - destruct (decide (A2A.status p = "active")) as [Ha|Ha].
    + rewrite (score_agent_active p Ha). unfold A2A.weighted_score. lra.
    + rewrite (score_agent_inactive p Ha). lra.
  - apply score_agent_inactive.
  - intros Ha Hl. rewrite (score_agent_active p Ha). unfold A2A.weighted_score.
    rewrite max0_le by lra. reflexivity.
Qed.

Lemma agent_score_range_witness :
  let p := A2A.mkProfile "agent_1" "technical" [A2A.TECHNICAL_ANALYSIS]
             (9 # 10) (8 # 10) 3 10 None "active" in
  (0 <= A2A.score_agent p <= 1)%Q.
Proof.
  intros p.
  destruct (agent_score_range p) as [H _];
    [vm_compute; split; discriminate .. | | exact H].
  vm_compute. discriminate.
Defined.

(** ** Orchestrator: the choice of reviewers *)

Section DescendingSort.

Context {A K : Type} (lt : K -> K -> bool) (key : A -> K).
Context (lt_asym : forall a b, lt a b = true -> lt b a = false)
  (nlt_trans : forall a b c, lt a b = false -> lt b c = false -> lt a c = false).

Lemma insert_desc_Permutation x l : Py.insert_desc lt key x l ≡ₚ x :: l.
Proof.
  induction l as [|y l IH]; cbn; [done|].
  destruct (lt (key x) (key y)); [|done].
  rewrite IH. apply Permutation_swap.
Qed.

Lemma sorted_desc_Permutation l : Py.sorted_desc lt key l ≡ₚ l.
Proof.
  induction l as [|x l IH]; cbn; [done|].
  rewrite insert_desc_Permutation. by rewrite IH.
Qed.

Lemma insert_desc_sorted x l :
  StronglySorted (Py.not_below lt key) l ->
  StronglySorted (Py.not_below lt key) (Py.insert_desc lt key x l).
Proof.
  induction 1 as [|y l Hl IH Hy]; cbn.
  - constructor; constructor.
  - destruct (lt (key x) (key y)) eqn:Hxy.
    + constructor; [exact IH|].
      apply Forall_forall. intros z Hz.
      rewrite insert_desc_Permutation in Hz.
      apply elem_of_cons in Hz as [->|Hz].
      * unfold Py.not_below. by apply lt_asym.
      * by apply (proj1 (Forall_forall _ _) Hy).
    + constructor; [by constructor|].
      constructor; [exact Hxy|].
      apply Forall_forall. intros z Hz. unfold Py.not_below.
      apply (nlt_trans _ (key y)); [exact Hxy|].
      by apply (proj1 (Forall_forall _ _) Hy).
Qed.

Lemma sorted_desc_sorted l : StronglySorted (Py.not_below lt key) (Py.sorted_desc lt key l).
Proof.
  induction l as [|x l IH]; cbn; [constructor|]. by apply insert_desc_sorted.
Qed.

Lemma sorted_split l1 l2 :
  StronglySorted (Py.not_below lt key) (l1 ++ l2) ->
  forall a b, a ∈ l1 -> b ∈ l2 -> Py.not_below lt key a b.
Proof.
  induction l1 as [|x l1 IH]; intros Hs a b Ha Hb.
  - by apply elem_of_nil in Ha.
  - cbn in Hs. apply StronglySorted_inv in Hs as [Hs Hx].
    apply elem_of_cons in Ha as [->|Ha]; [|by apply IH].
    apply (proj1 (Forall_forall _ _) Hx). apply elem_of_app. by right.
Qed.

End DescendingSort.

Section PairOrder.

Lemma Qltb_true (a b : Q) : Py.Qltb a b = true <-> (a < b)%Q.
Proof.
  unfold Py.Qltb. rewrite negb_true_iff. split.
  - intros H. apply Qnot_le_lt. intros Hle. apply Qle_bool_iff in Hle.
    congruence.
  - intros H. destruct (Qle_bool b a) eqn:Hle; [|done].
    apply Qle_bool_iff in Hle. lra.
Qed.

Lemma Qltb_false (a b : Q) : Py.Qltb a b = false <-> (b <= a)%Q.
Proof.
  unfold Py.Qltb. rewrite negb_false_iff. apply Qle_bool_iff.
Qed.

Lemma pair_ltb_true (a b : Q * Q) :
  Py.pair_ltb a b = true
  <-> (fst a < fst b \/ (fst a == fst b /\ snd a < snd b))%Q.
Proof.
  unfold Py.pair_ltb. rewrite orb_true_iff, andb_true_iff.
  by rewrite !Qltb_true, Qeq_bool_iff.
Qed.

Lemma pair_ltb_false (a b : Q * Q) :
  Py.pair_ltb a b = false
  <-> (fst b < fst a \/ (fst a == fst b /\ snd b <= snd a))%Q.
Proof.
  unfold Py.pair_ltb. rewrite orb_false_iff, andb_false_iff.
  rewrite !Qltb_false. split.
  - intros [H1 [H2|H2]].
    + destruct (Qlt_le_dec (fst b) (fst a)) as [Hlt|Hle]; [by left|].
      exfalso. assert (fst a == fst b)%Q as Heq by lra.
      apply Qeq_bool_iff in Heq. congruence.
    + destruct (Qlt_le_dec (fst b) (fst a)) as [Hlt|Hle]; [by left|].
      right. split; [lra|done].
  - intros [H|[H1 H2]].
    + split; [lra|]. left. destruct (Qeq_bool (fst a) (fst b)) eqn:Heq; [|done].
      apply Qeq_bool_iff in Heq. lra.
    + split; [lra|]. by right.
Qed.

Lemma pair_ltb_asym (a b : Q * Q) :
  Py.pair_ltb a b = true -> Py.pair_ltb b a = false.
Proof. rewrite pair_ltb_true, pair_ltb_false. intros [?|[? ?]]; lra. Qed.

Lemma pair_nltb_trans (a b c : Q * Q) :
  Py.pair_ltb a b = false -> Py.pair_ltb b c = false ->
  Py.pair_ltb a c = false.
Proof.
  rewrite !pair_ltb_false. intros [?|[? ?]] [?|[? ?]]; lra.
Qed.

End PairOrder.

(** X28.  The reviewers [orchestrate_peer_review] selects from distinct
    registered ids are distinct, registered and different from the subject
    agent; for a non-negative request their number is the smaller of the
    request and the number of eligible agents, while a negative request
    [-k] drops the [k] lowest-ranked eligible agents; and no eligible
    agent that is left out ranks above a selected one in the order
    (reputation, then lower load). *)
Theorem reviewers_are_the_top_ranked :
  forall (subject : string) (num_reviewers : Z) (all_agents : list string)
         (r : A2A.AgentRegistry),
    NoDup all_agents ->
    (forall x, x ∈ all_agents -> is_Some (A2A.agents r !! x)) ->
    let eligible :=
      List.filter (fun a => negb (bool_decide (a = subject))) all_agents in
    let selected := A2A.select_reviewers subject num_reviewers all_agents r in
    NoDup selected /\
    (forall x, x ∈ selected -> x ∈ all_agents /\ x <> subject) /\
    (0 <= num_reviewers ->
     length selected = Nat.min (Z.to_nat num_reviewers) (length eligible)) /\
    (num_reviewers < 0 ->
     length selected = (length eligible - Z.to_nat (- num_reviewers))%nat) /\
    (forall x y, x ∈ selected -> y ∈ eligible -> y ∉ selected ->
       Py.pair_ltb (A2A.reviewer_key r x) (A2A.reviewer_key r y) = false).
Proof.
  intros subject num all r Hnd _ eligible selected.
  set (ranked := Py.sorted_desc Py.pair_ltb (A2A.reviewer_key r) eligible).
  assert (ranked ≡ₚ eligible) as Hperm by apply sorted_desc_Permutation.
  assert (NoDup eligible) as Hnde.
  { unfold eligible. apply NoDup_ListNoDup, List.NoDup_filter.
    by apply NoDup_ListNoDup. }
  assert (NoDup ranked) as Hndr by (by rewrite Hperm).
  assert (exists k, selected = take k ranked /\
            (0 <= num -> k = Nat.min (Z.to_nat num) (length eligible)) /\
            (num < 0 -> k = (length eligible - Z.to_nat (- num))%nat))
    as (k & Hsel & Hk1 & Hk2).
  { unfold selected, A2A.select_reviewers. fold eligible. fold ranked.
    unfold Py.slice_to.
    destruct (Z.ltb_spec (Z.of_nat (length eligible)) num) as [Hlt|Hge].
    - rewrite (proj2 (Z.leb_le 0 _)) by lia. rewrite Nat2Z.id.
      eexists. split; [reflexivity|]. split; intros; lia.
    - destruct (Z.leb_spec 0 num).
      + eexists. split; [reflexivity|]. split; intros; lia.
      + assert (length ranked = length eligible) as Hlen by (by rewrite Hperm).
        eexists. split; [reflexivity|]. split; intros; lia. }
  rewrite Hsel.
  split; [by eapply sublist_NoDup; [|apply sublist_take]|].
  split; [|split; [|split]].
  - intros x Hx. apply elem_of_take in Hx as (i & Hx & _).
    apply list_elem_of_lookup_2 in Hx. rewrite Hperm in Hx.
    unfold eligible in Hx. apply list_elem_of_In, filter_In in Hx as [Hx Hne].
    apply negb_true_iff, bool_decide_eq_false in Hne.
    split; [by apply list_elem_of_In|done].
  - intros Hnum. rewrite length_take, Hperm, (Hk1 Hnum). lia.
  - intros Hnum. rewrite length_take, Hperm, (Hk2 Hnum). lia.
  - intros x y Hx Hy Hny.
    assert (y ∈ drop k ranked) as Hyd.
    { rewrite <- Hperm in Hy. rewrite <- (take_drop k ranked) in Hy.
      apply elem_of_app in Hy as [Hy|Hy]; done. }
    apply (sorted_split Py.pair_ltb (A2A.reviewer_key r) (take k ranked)
             (drop k ranked)); [|done..].
    rewrite take_drop.
    apply sorted_desc_sorted; [apply pair_ltb_asym|apply pair_nltb_trans].
Qed.

Lemma reviewers_are_the_top_ranked_witness :
  let p1 := A2A.mkProfile "agent_1" "news" [] 1 (5 # 10) 0 10 None "active" in
  let p2 := A2A.mkProfile "agent_2" "news" [] 1 (9 # 10) 0 10 None "active" in
  let p3 := A2A.mkProfile "agent_3" "news" [] 1 (7 # 10) 0 10 None "active" in
  let r := A2A.register_agent p3
             (A2A.register_agent p2 (A2A.register_agent p1 A2A.empty_registry)) in
  length (A2A.select_reviewers "agent_3" 1 ["agent_1"; "agent_2"; "agent_3"] r)
  = 1%nat.
Proof.
  intros p1 p2 p3 r.
  destruct (reviewers_are_the_top_ranked "agent_3" 1
              ["agent_1"; "agent_2"; "agent_3"] r) as (_ & _ & Hlen & _).
  - repeat constructor; intros Hin;
      repeat (apply elem_of_cons in Hin as [Hin|Hin]; [discriminate|]);
      by apply elem_of_nil in Hin.
  - intros x Hin.
    repeat (apply elem_of_cons in Hin as [->|Hin]; [by eexists|]).
    by apply elem_of_nil in Hin.
  - apply Hlen. lia.
Defined.

(** Running the selection: of three agents with reputations 0.5, 0.9 and
    0.7, the most reputable one other than the subject is chosen. *)
Example select_reviewers_run :
  let p1 := A2A.mkProfile "agent_1" "news" [] 1 (5 # 10) 0 10 None "active" in
  let p2 := A2A.mkProfile "agent_2" "news" [] 1 (9 # 10) 0 10 None "active" in
  let p3 := A2A.mkProfile "agent_3" "news" [] 1 (7 # 10) 0 10 None "active" in
  let r := A2A.register_agent p3
             (A2A.register_agent p2 (A2A.register_agent p1 A2A.empty_registry)) in
  A2A.select_reviewers "agent_3" 1 ["agent_1"; "agent_2"; "agent_3"] r
  = ["agent_2"] /\
  A2A.select_reviewers "agent_2" 5 ["agent_1"; "agent_2"; "agent_3"] r
  = ["agent_3"; "agent_1"] /\
  A2A.select_reviewers "agent_2" (-1) ["agent_1"; "agent_2"; "agent_3"] r
  = ["agent_3"].
Proof. vm_compute. repeat split; reflexivity. Qed.
